(** * String Analyser service (src/app.py): a shallow embedding

    The Flask application analyses submitted strings, keeps the results in
    one SQLite table and answers structured and natural-language queries.
    Python [str] values are modelled as lists of Unicode code points,
    Python [int] values as [Z], the [strings] table as the list of its rows
    and every request handler as a function from the table to the new table
    and the response. *)

From Stdlib Require Import List ZArith NArith Bool Lia String Ascii.
From Stdlib Require DecimalPos DecimalN DecimalFacts.
Import ListNotations.


(** ** Text *)

(** A character is a code point; a Python [str] is a sequence of them. *)
Definition char := N.
Definition str := list char.

(** [u "text"] is the [str] with the code points of an ASCII literal. *)
Definition chr (a : ascii) : char := N_of_ascii a.
Definition u (s : string) : str := List.map chr (list_ascii_of_string s).

Fixpoint str_eqb (a b : str) : bool :=
  match a, b with
  | [], [] => true
  | x :: a', y :: b' => N.eqb x y && str_eqb a' b'
  | _, _ => false
  end.

Definition is_ascii (c : char) : bool := N.ltb c 128.

Fixpoint take_while (p : char -> bool) (s : str) : str :=
  match s with
  | c :: s' => if p c then c :: take_while p s' else []
  | [] => []
  end.

Fixpoint drop_while (p : char -> bool) (s : str) : str :=
  match s with
  | c :: s' => if p c then drop_while p s' else s
  | [] => []
  end.

(** ASCII behaviour of [str.lower], [str.isspace] and the decimal digits. *)
Definition ascii_lower (c : char) : char :=
  if N.leb 65 c && N.leb c 90 then (c + 32)%N else c.

Definition ascii_space (c : char) : bool :=
  (N.leb 9 c && N.leb c 13) || (N.leb 28 c && N.leb c 32).

Definition ascii_decimal (c : char) : option N :=
  if N.leb 48 c && N.leb c 57 then Some (c - 48)%N else None.

(** The Unicode character database of the interpreter, and the digest of
    [hashlib]: tables the program uses through the standard library.  Their
    behaviour on ASCII text is fixed; beyond ASCII they are left open, but
    for the fact that no decimal digit is a space. *)
Class Runtime := {
  lower : str -> str;
  isspace : char -> bool;
  decimal : char -> option N;
  isprintable : char -> bool;
  sha256_hexdigest : list N -> str;
  lower_ascii : forall s, forallb is_ascii s = true -> lower s = List.map ascii_lower s;
  isspace_ascii : forall c, is_ascii c = true -> isspace c = ascii_space c;
  decimal_ascii : forall c, is_ascii c = true -> decimal c = ascii_decimal c;
  decimal_not_space : forall c d, decimal c = Some d -> isspace c = false
}.

(** ** Exceptions and results *)

Inductive exn :=
| UnicodeEncodeError
| TypeError
| OverflowError
| ValueError
| EvalError.

Inductive result (A : Type) :=
| Ok (a : A)
| Raise (e : exn).
Arguments Ok {A} a.
Arguments Raise {A} e.

Definition bind {A B} (r : result A) (k : A -> result B) : result B :=
  match r with
  | Ok a => k a
  | Raise e => Raise e
  end.

Notation "x <- r ;; k" := (bind r (fun x => k))
  (at level 61, r at next level, right associativity).

(** ** [str.encode()]: UTF-8, which refuses surrogate code points *)

Definition is_surrogate (c : char) : bool := N.leb 0xD800 c && N.leb c 0xDFFF.

Definition is_scalar (c : char) : bool := N.ltb c 0x110000 && negb (is_surrogate c).

Definition utf8_char (c : char) : list N :=
  if N.ltb c 0x80 then [c]
  else if N.ltb c 0x800 then [0xC0 + c / 64; 0x80 + c mod 64]%N
  else if N.ltb c 0x10000 then
    [0xE0 + c / 4096; 0x80 + (c / 64) mod 64; 0x80 + c mod 64]%N
  else
    [0xF0 + c / 262144; 0x80 + (c / 4096) mod 64; 0x80 + (c / 64) mod 64;
     0x80 + c mod 64]%N.

Definition encode (s : str) : result (list N) :=
  if forallb is_scalar s then Ok (flat_map utf8_char s) else Raise UnicodeEncodeError.

(** ** Dictionaries

    A Python [dict] keeps its keys in insertion order; assigning to a key
    that is present replaces the value where it stands. *)

Definition dict (V : Type) := list (str * V).

Fixpoint dict_find {V} (d : dict V) (k : str) : option V :=
  match d with
  | [] => None
  | (k', v) :: d' => if str_eqb k' k then Some v else dict_find d' k
  end.

(** [d.get(k, default)] *)
Definition dict_get {V} (d : dict V) (k : str) (default : V) : V :=
  match dict_find d k with
  | Some v => v
  | None => default
  end.

(** [d[k] = v] *)
Fixpoint dict_set {V} (d : dict V) (k : str) (v : V) : dict V :=
  match d with
  | [] => [(k, v)]
  | (k', v') :: d' =>
      if str_eqb k' k then (k', v) :: d' else (k', v') :: dict_set d' k v
  end.

Definition dict_keys {V} (d : dict V) : list str := List.map fst d.
Definition dict_values {V} (d : dict V) : list V := List.map snd d.

(** [sum(d.values())] *)
Definition sum_values (d : dict Z) : Z := fold_right Z.add 0%Z (dict_values d).

(** ** The analyzer: [analyze_string] *)

Module Properties.
Record t := make {
  length : Z;
  is_palindrome : bool;
  unique_characters : Z;
  word_count : Z;
  sha256_hash : str;
  character_frequency_map : dict Z
}.
End Properties.

Definition len {A} (l : list A) : Z := Z.of_nat (List.length l).

Section Analyzer.
Context {R : Runtime}.

(** [value.split()]: the maximal runs of characters that are not spaces;
    [cur] is the run being read, latest character first. *)
Fixpoint split_from (cur : str) (s : str) : list str :=
  match s with
  | [] => match cur with [] => [] | _ => [rev cur] end
  | c :: s' =>
      if isspace c then
        match cur with
        | [] => split_from [] s'
        | _ => rev cur :: split_from [] s'
        end
      else split_from (c :: cur) s'
  end.

Definition split (s : str) : list str := split_from [] s.

(** [value.lower() == value.lower()[::-1]] *)
Definition palindrome (value : str) : bool :=
  str_eqb (lower value) (rev (lower value)).

(** The loop [for char in value: char_freq[char] = char_freq.get(char, 0) + 1]. *)
Definition count_char (char_freq : dict Z) (c : char) : dict Z :=
  dict_set char_freq [c] (dict_get char_freq [c] 0 + 1)%Z.

Definition char_frequency (value : str) : dict Z :=
  fold_left count_char value [].

Definition analyze_string (value : str) : result Properties.t :=
  let length := len value in
  let is_palindrome := palindrome value in
  let unique_characters := len (nodup N.eq_dec value) in
  let word_count := len (split value) in
  bytes <- encode value ;;
  let sha256_hash := sha256_hexdigest bytes in
  let char_freq := char_frequency value in
  Ok (Properties.make length is_palindrome unique_characters word_count
        sha256_hash char_freq).
End Analyzer.

(** ** Regular expressions: the fragment of [re] the translator uses

    Literals, one character of a class, a greedy [+] over a class, greedy
    optional parts, alternation, sequence and the capturing group 1.  The
    matcher backtracks the way [re] does: the first alternative, the longer
    repetition and the present option are tried first, and the next choice
    is taken when the rest of the pattern fails. *)

Inductive regex :=
| Lit (l : str)
| Class (p : char -> bool)
| Plus (p : char -> bool)
| Opt (r : regex)
| Alt (r1 r2 : regex)
| Seq (r1 r2 : regex)
| Group (r : regex).

Fixpoint starts_with (l s : str) : option str :=
  match l, s with
  | [], _ => Some s
  | x :: l', y :: s' => if N.eqb x y then starts_with l' s' else None
  | _ :: _, [] => None
  end.

Definition or_else {A} (a b : option A) : option A :=
  match a with
  | Some x => Some x
  | None => b
  end.

Fixpoint many {A} (p : char -> bool) (s : str) (k : str -> option A) : option A :=
  match s with
  | c :: s' => if p c then or_else (many p s' k) (k s) else k s
  | [] => k s
  end.

(** [rmatch r s g k]: match [r] at the start of [s]; [g] is group 1 so far,
    [k] matches the rest of the pattern on what is left. *)
Fixpoint rmatch {A} (r : regex) (s : str) (g : option str)
    (k : str -> option str -> option A) : option A :=
  match r with
  | Lit l =>
      match starts_with l s with
      | Some s' => k s' g
      | None => None
      end
  | Class p =>
      match s with
      | c :: s' => if p c then k s' g else None
      | [] => None
      end
  | Plus p =>
      match s with
      | c :: s' => if p c then many p s' (fun s'' => k s'' g) else None
      | [] => None
      end
  | Opt r1 => or_else (rmatch r1 s g k) (k s g)
  | Alt r1 r2 => or_else (rmatch r1 s g k) (rmatch r2 s g k)
  | Seq r1 r2 => rmatch r1 s g (fun s' g' => rmatch r2 s' g' k)
  | Group r1 =>
      rmatch r1 s g
        (fun s' _ => k s' (Some (firstn (List.length s - List.length s') s)))
  end.

(** A match object, reduced to what the program reads: [match.group(1)],
    which is [None] when the group took no part in the match. *)
Definition rematch := option str.

Definition match_at (r : regex) (s : str) : option rematch :=
  rmatch r s None (fun _ g => Some g).

(** [re.search(r, s)]: the match at the leftmost position that has one. *)
Fixpoint search (r : regex) (s : str) : option rematch :=
  match match_at r s with
  | Some m => Some m
  | None =>
      match s with
      | [] => None
      | _ :: s' => search r s'
      end
  end.

(** [sub in s] *)
Fixpoint substring_in (sub s : str) : bool :=
  match starts_with sub s with
  | Some _ => true
  | None =>
      match s with
      | [] => false
      | _ :: s' => substring_in sub s'
      end
  end.

(** ** [int(text)]

    The interpreter first rewrites the text to ASCII: a character below 127
    stays, one above becomes a blank when [str.isspace] holds of it and an
    ASCII digit when it is a decimal digit.  Then the blanks of C (9 to 13
    and 32) around the number are dropped, so that the separators 28 to 31,
    spaces for [str.isspace], are not; a sign, [-] (45) or [+] (43), may
    come first; the digits may be grouped by single underscores (95).  A
    number of more than [max_str_digits] digits is refused with
    [ValueError], as a text that is no number is. *)

(** [Py_ISSPACE] *)
Definition c_space (c : char) : bool := (N.leb 9 c && N.leb c 13) || N.eqb c 32.

(** [sys.int_info.default_max_str_digits] *)
Definition max_str_digits : N := 4300.

Section Int.
Context {R : Runtime}.

(** The characters [int] drops around the number. *)
Definition int_space (c : char) : bool :=
  if N.ltb c 127 then c_space c else isspace c.

Fixpoint lstrip (s : str) : str :=
  match s with
  | c :: s' => if int_space c then lstrip s' else s
  | [] => []
  end.

Definition strip (s : str) : str := rev (lstrip (rev (lstrip s))).

(** Digits in groups separated by single underscores; [after_digit] says
    that the character before was a digit. *)
Fixpoint digits_value (acc : Z) (after_digit : bool) (s : str) : option Z :=
  match s with
  | [] => if after_digit then Some acc else None
  | c :: s' =>
      match decimal c with
      | Some d => digits_value (10 * acc + Z.of_N d)%Z true s'
      | None =>
          if N.eqb c 95 && after_digit then digits_value acc false s' else None
      end
  end.

(** The digits the scan counts: the underscores are not among them, the
    leading zeros are. *)
Fixpoint count_digits (s : str) : N :=
  match s with
  | [] => 0
  | c :: s' =>
      match decimal c with
      | Some _ => 1 + count_digits s'
      | None => count_digits s'
      end
  end.

Definition digits_int (s : str) : option Z :=
  match digits_value 0 false s with
  | Some n => if N.ltb max_str_digits (count_digits s) then None else Some n
  | None => None
  end.

Definition py_int (text : str) : result Z :=
  let signed :=
    match strip text with
    | c :: s' =>
        if N.eqb c 45 then option_map Z.opp (digits_int s')
        else if N.eqb c 43 then digits_int s'
        else digits_int (c :: s')
    | [] => None
    end in
  match signed with
  | Some n => Ok n
  | None => Raise ValueError
  end.

(** [int(match.group(1))] *)
Definition int_group (m : rematch) : result Z :=
  match m with
  | Some text => py_int text
  | None => Raise TypeError
  end.

Definition is_decimal (c : char) : bool :=
  match decimal c with
  | Some _ => true
  | None => false
  end.
End Int.

(** ** The translator: [parse_natural_language]

    The dict [filters] has five possible keys, each holding values of one
    type.  It is modelled as a record of optional fields: a key is in the
    dict when its field is [Some _], and [filters[key] = v] sets the field,
    replacing what was there. *)

Module Filters.
Record t := make {
  is_palindrome : option bool;
  min_length : option Z;
  max_length : option Z;
  word_count : option Z;
  contains_character : option str
}.

(** [{}] *)
Definition empty : t := make None None None None None.

(** [not filters] *)
Definition is_empty (f : t) : bool :=
  match f with
  | make None None None None None => true
  | _ => false
  end.

Definition set_is_palindrome (f : t) (v : bool) : t :=
  make (Some v) (min_length f) (max_length f) (word_count f) (contains_character f).
Definition set_min_length (f : t) (v : Z) : t :=
  make (is_palindrome f) (Some v) (max_length f) (word_count f) (contains_character f).
Definition set_max_length (f : t) (v : Z) : t :=
  make (is_palindrome f) (min_length f) (Some v) (word_count f) (contains_character f).
Definition set_word_count (f : t) (v : Z) : t :=
  make (is_palindrome f) (min_length f) (max_length f) (Some v) (contains_character f).
Definition set_contains_character (f : t) (v : str) : t :=
  make (is_palindrome f) (min_length f) (max_length f) (word_count f) (Some v).
End Filters.

Definition a_to_z (c : char) : bool := N.leb 97 c && N.leb c 122.

Section Translator.
Context {R : Runtime}.

(** [r"longer than (\d+)"] *)
Definition length_pattern : regex :=
  Seq (Lit (u "longer than ")) (Group (Plus is_decimal)).

(** [r"shorter than (\d+)"] *)
Definition length_pattern2 : regex :=
  Seq (Lit (u "shorter than ")) (Group (Plus is_decimal)).

(** [r"contain(?:s|ing)? (?:the )?(?:letter |character )?([a-z])"] *)
Definition char_pattern : regex :=
  Seq (Lit (u "contain"))
    (Seq (Opt (Alt (Lit (u "s")) (Lit (u "ing"))))
       (Seq (Lit (u " "))
          (Seq (Opt (Lit (u "the ")))
             (Seq (Opt (Alt (Lit (u "letter ")) (Lit (u "character "))))
                (Group (Class a_to_z)))))).

(** [match.group(1)] as a [str] *)
Definition group_text (m : rematch) : result str :=
  match m with
  | Some text => Ok text
  | None => Raise TypeError
  end.

Definition parse_natural_language (query : str) : result Filters.t :=
  let query_lower := lower query in
  let filters := Filters.empty in
  let filters :=
    if substring_in (u "palindrom") query_lower
    then Filters.set_is_palindrome filters true
    else filters in
  let filters :=
    if substring_in (u "single word") query_lower
    then Filters.set_word_count filters 1
    else if substring_in (u "two word") query_lower
            || substring_in (u "2 word") query_lower
    then Filters.set_word_count filters 2
    else filters in
  filters <-
    match search length_pattern query_lower with
    | Some m =>
        n <- int_group m ;;
        Ok (Filters.set_min_length filters (n + 1))
    | None => Ok filters
    end ;;
  filters <-
    match search length_pattern2 query_lower with
    | Some m =>
        n <- int_group m ;;
        Ok (Filters.set_max_length filters (n - 1))
    | None => Ok filters
    end ;;
  filters <-
    match search char_pattern query_lower with
    | Some m =>
        c <- group_text m ;;
        Ok (Filters.set_contains_character filters c)
    | None => Ok filters
    end ;;
  let filters :=
    if substring_in (u "first vowel") query_lower
    then Filters.set_contains_character filters (u "a")
    else filters in
  Ok filters.
End Translator.

(** ** [str(dict)]: the text stored in the column [character_frequency_map] *)

Fixpoint uint_chars (d : Decimal.uint) : str :=
  match d with
  | Decimal.Nil => []
  | Decimal.D0 d' => 48%N :: uint_chars d'
  | Decimal.D1 d' => 49%N :: uint_chars d'
  | Decimal.D2 d' => 50%N :: uint_chars d'
  | Decimal.D3 d' => 51%N :: uint_chars d'
  | Decimal.D4 d' => 52%N :: uint_chars d'
  | Decimal.D5 d' => 53%N :: uint_chars d'
  | Decimal.D6 d' => 54%N :: uint_chars d'
  | Decimal.D7 d' => 55%N :: uint_chars d'
  | Decimal.D8 d' => 56%N :: uint_chars d'
  | Decimal.D9 d' => 57%N :: uint_chars d'
  end.

(** [repr] of an [int]; 45 is the minus sign. *)
Definition repr_int (n : Z) : str :=
  if Z.ltb n 0 then 45%N :: uint_chars (N.to_uint (Z.to_N (- n)))
  else uint_chars (N.to_uint (Z.to_N n)).

Definition hex_digit (d : N) : char :=
  if N.ltb d 10 then (48 + d)%N else (87 + d)%N.

Definition hex2 (c : char) : str :=
  [hex_digit (c / 16); hex_digit (c mod 16)]%N.

Definition hex4 (c : char) : str :=
  [hex_digit (c / 4096); hex_digit ((c / 256) mod 16);
   hex_digit ((c / 16) mod 16); hex_digit (c mod 16)]%N.

Definition hex8 (c : char) : str :=
  [hex_digit (c / 268435456); hex_digit ((c / 16777216) mod 16);
   hex_digit ((c / 1048576) mod 16); hex_digit ((c / 65536) mod 16);
   hex_digit ((c / 4096) mod 16); hex_digit ((c / 256) mod 16);
   hex_digit ((c / 16) mod 16); hex_digit (c mod 16)]%N.

Section Repr.
Context {R : Runtime}.

(** One character of [repr] of a [str] between quotes [quote]; 92 is the
    backslash, 9, 10 and 13 are tab, line feed and carriage return. *)
Definition repr_char (quote : char) (c : char) : str :=
  if N.eqb c quote || N.eqb c 92 then [92%N; c]
  else if N.eqb c 9 then u "\t"
  else if N.eqb c 10 then u "\n"
  else if N.eqb c 13 then u "\r"
  else if N.ltb c 32 || N.eqb c 127 then u "\x" ++ hex2 c
  else if N.ltb c 127 then [c]
  else if isprintable c then [c]
  else if N.leb c 0xff then u "\x" ++ hex2 c
  else if N.leb c 0xffff then u "\u" ++ hex4 c
  else u "\U" ++ hex8 c.

(** Single quotes (39), unless the text has a single quote and no double
    one (34). *)
Definition repr_quote (s : str) : char :=
  if existsb (N.eqb 39) s && negb (existsb (N.eqb 34) s) then 34%N else 39%N.

Definition repr_str (s : str) : str :=
  let quote := repr_quote s in
  quote :: flat_map (repr_char quote) s ++ [quote].

Definition repr_item (kv : str * Z) : str :=
  repr_str (fst kv) ++ u ": " ++ repr_int (snd kv).

Fixpoint join (sep : str) (parts : list str) : str :=
  match parts with
  | [] => []
  | [p] => p
  | p :: parts' => p ++ sep ++ join sep parts'
  end.

(** [str(d)] for a dict from [str] to [int] *)
Definition str_dict (d : dict Z) : str :=
  u "{" ++ join (u ", ") (List.map repr_item d) ++ u "}".
End Repr.

(** ** [eval(text)] on dict displays

    [eval] is modelled on the expressions [str_dict] can write: a dict
    display whose keys are one-line string literals without prefix, with the
    escapes of one letter and the hexadecimal ones, and whose values are
    unsigned decimal literals, with spaces between tokens.  The result is
    [None] when Python raises and also for every text outside this grammar,
    about which the model says nothing. *)

Inductive token :=
| TLBrace
| TRBrace
| TColon
| TComma
| TString (s : str)
| TNumber (n : N).

Definition hex_value (c : char) : option N :=
  if N.leb 48 c && N.leb c 57 then Some (c - 48)%N
  else if N.leb 97 c && N.leb c 102 then Some (c - 87)%N
  else if N.leb 65 c && N.leb c 70 then Some (c - 55)%N
  else None.

Fixpoint hex_number (acc : N) (digits : str) : option N :=
  match digits with
  | [] => Some acc
  | h :: digits' =>
      match hex_value h with
      | Some v => hex_number (16 * acc + v)%N digits'
      | None => None
      end
  end.

(** A backslash followed by one character that stands for one character. *)
Definition simple_escape (e : char) : option char :=
  if N.eqb e 92 then Some 92%N
  else if N.eqb e 39 then Some 39%N
  else if N.eqb e 34 then Some 34%N
  else if N.eqb e 97 then Some 7%N
  else if N.eqb e 98 then Some 8%N
  else if N.eqb e 102 then Some 12%N
  else if N.eqb e 110 then Some 10%N
  else if N.eqb e 114 then Some 13%N
  else if N.eqb e 116 then Some 9%N
  else if N.eqb e 118 then Some 11%N
  else None.

(** A character that may stand for itself inside a one-line literal. *)
Definition literal_char (c : char) : bool :=
  negb (N.eqb c 0) && negb (N.eqb c 10) && negb (N.eqb c 13) && is_scalar c.

Definition cons_text (c : char) (r : option (str * str)) : option (str * str) :=
  match r with
  | Some (text, rest) => Some (c :: text, rest)
  | None => None
  end.

Definition escaped (digits : str) (r : option (str * str)) : option (str * str) :=
  match hex_number 0 digits with
  | Some c => if N.ltb c 0x110000 then cons_text c r else None
  | None => None
  end.

(** The body of a string literal after its opening quote: the text it
    denotes and what follows the closing quote.  After the backslash (92),
    [x] (120), [u] (117) and [U] (85) take two, four and eight hexadecimal
    digits. *)
Fixpoint string_body (quote : char) (s : str) : option (str * str) :=
  match s with
  | [] => None
  | c :: s1 =>
      if N.eqb c quote then Some ([], s1)
      else if N.eqb c 92 then
        match s1 with
        | [] => None
        | e :: s2 =>
            if N.eqb e 120 then
              match s2 with
              | h1 :: h2 :: s3 => escaped [h1; h2] (string_body quote s3)
              | _ => None
              end
            else if N.eqb e 117 then
              match s2 with
              | h1 :: h2 :: h3 :: h4 :: s3 =>
                  escaped [h1; h2; h3; h4] (string_body quote s3)
              | _ => None
              end
            else if N.eqb e 85 then
              match s2 with
              | h1 :: h2 :: h3 :: h4 :: h5 :: h6 :: h7 :: h8 :: s3 =>
                  escaped [h1; h2; h3; h4; h5; h6; h7; h8] (string_body quote s3)
              | _ => None
              end
            else
              match simple_escape e with
              | Some c' => cons_text c' (string_body quote s2)
              | None => None
              end
        end
      else if literal_char c then cons_text c (string_body quote s1)
      else None
  end.

Definition ascii_digit (c : char) : bool := N.leb 48 c && N.leb c 57.

Fixpoint take_digits (s : str) : str * str :=
  match s with
  | c :: s' =>
      if ascii_digit c then
        let (ds, rest) := take_digits s' in (c :: ds, rest)
      else ([], s)
  | [] => ([], [])
  end.

(** The number a run of ASCII digits denotes. *)
Definition add_ascii_digit (acc : N) (c : char) : N := (10 * acc + (c - 48))%N.

Definition decimal_value (ds : str) : N := fold_left add_ascii_digit ds 0%N.

(** A decimal literal: no leading zero, unless every digit is a zero. *)
Definition number_value (ds : str) : option N :=
  match ds with
  | c :: _ :: _ =>
      if N.eqb c 48
      then if forallb (N.eqb 48) ds then Some 0%N else None
      else Some (decimal_value ds)
  | _ => Some (decimal_value ds)
  end.

(** The tokens of a text: spaces (32) are skipped, [{] (123), [}] (125),
    [:] (58) and [,] (44) stand alone, a quote opens a string literal, unless
    it opens a triple-quoted one, and a digit opens a number. *)
Fixpoint tokens (fuel : nat) (s : str) : option (list token) :=
  match fuel with
  | O => None
  | S fuel' =>
      match s with
      | [] => Some []
      | c :: s' =>
          if N.eqb c 32 then tokens fuel' s'
          else if N.eqb c 123 then option_map (cons TLBrace) (tokens fuel' s')
          else if N.eqb c 125 then option_map (cons TRBrace) (tokens fuel' s')
          else if N.eqb c 58 then option_map (cons TColon) (tokens fuel' s')
          else if N.eqb c 44 then option_map (cons TComma) (tokens fuel' s')
          else if N.eqb c 39 || N.eqb c 34 then
            match starts_with [c; c] s' with
            | Some _ => None
            | None =>
                match string_body c s' with
                | Some (text, rest) =>
                    option_map (cons (TString text)) (tokens fuel' rest)
                | None => None
                end
            end
          else if ascii_digit c then
            let (ds, rest) := take_digits s in
            match number_value ds with
            | Some n => option_map (cons (TNumber n)) (tokens fuel' rest)
            | None => None
            end
          else None
      end
  end.

(** The items of a display after its opening brace, added to [acc]. *)
Fixpoint display_items (toks : list token) (acc : dict Z) : option (dict Z) :=
  match toks with
  | [TRBrace] => Some acc
  | TString k :: TColon :: TNumber n :: rest =>
      let acc' := dict_set acc k (Z.of_N n) in
      match rest with
      | [TRBrace] => Some acc'
      | TComma :: rest' => display_items rest' acc'
      | _ => None
      end
  | _ => None
  end.

Definition eval_dict (text : str) : option (dict Z) :=
  match tokens (S (List.length text)) text with
  | Some (TLBrace :: toks) => display_items toks []
  | _ => None
  end.

(** ** The table [strings] (init_db)

    [id TEXT PRIMARY KEY, value TEXT UNIQUE NOT NULL] and seven plain
    columns.  The table is the list of its rows, oldest first. *)

Module Row.
Record t := make {
  id : str;
  value : str;
  length : Z;
  is_palindrome : Z;
  unique_characters : Z;
  word_count : Z;
  sha256_hash : str;
  character_frequency_map : str;
  created_at : str
}.
End Row.

Definition table := list Row.t.

(** [INSERT INTO strings ... VALUES (...)]: [None] is [sqlite3.IntegrityError],
    raised when the primary key or the unique column is already taken.  The
    integers of a row are lengths and counts of a string, which fit SQLite's
    INTEGER. *)
Definition insert (db : table) (r : Row.t) : option table :=
  if existsb (fun x => str_eqb (Row.id x) (Row.id r)
                       || str_eqb (Row.value x) (Row.value r)) db
  then None
  else Some (db ++ [r]).

(** [SELECT * FROM strings WHERE value = ?] *)
Definition select_by_value (db : table) (v : str) : list Row.t :=
  filter (fun x => str_eqb (Row.value x) v) db.

(** [DELETE FROM strings WHERE value = ?]: the table left and [rowcount]. *)
Definition delete_by_value (db : table) (v : str) : table * Z :=
  (filter (fun x => negb (str_eqb (Row.value x) v)) db,
   len (select_by_value db v)).

(** The operator [LIKE] as SQLite evaluates it by default: [%] (37) stands
    for any run of characters, [_] (95) for any one character, and every
    other character of the pattern for itself, where ASCII letters match in
    either case.  SQLite reads both operands as C strings, which end at the
    first NUL.  Patterns are taken to be within SQLite's limit on their
    length. *)
Definition c_text (s : str) : str := take_while (fun c => negb (N.eqb c 0)) s.

Definition like_char (c d : char) : bool := N.eqb (ascii_lower c) (ascii_lower d).

Fixpoint like (pattern : str) : str -> bool :=
  match pattern with
  | [] => fun s => match s with [] => true | _ :: _ => false end
  | c :: pattern' =>
      if N.eqb c 37 then
        fix skip (s : str) : bool :=
          like pattern' s || match s with [] => false | _ :: s' => skip s' end
      else if N.eqb c 95 then
        fun s => match s with [] => false | _ :: s' => like pattern' s' end
      else
        fun s => match s with [] => false | d :: s' => like_char c d && like pattern' s' end
  end.

(** The terms the handlers append to [SELECT * FROM strings WHERE 1=1], each
    with its parameter. *)
Inductive cond :=
| IsPalindromeEq (n : Z)   (* AND is_palindrome = ? *)
| LengthGe (n : Z)         (* AND length >= ? *)
| LengthLe (n : Z)         (* AND length <= ? *)
| WordCountEq (n : Z)      (* AND word_count = ? *)
| ValueLike (pattern : str). (* AND value LIKE ? *)

Definition holds (r : Row.t) (c : cond) : bool :=
  match c with
  | IsPalindromeEq n => Z.eqb (Row.is_palindrome r) n
  | LengthGe n => Z.leb n (Row.length r)
  | LengthLe n => Z.leb (Row.length r) n
  | WordCountEq n => Z.eqb (Row.word_count r) n
  | ValueLike pattern => like (c_text pattern) (c_text (Row.value r))
  end.

(** An [int] parameter must fit SQLite's 64-bit INTEGER. *)
Definition fits_int64 (n : Z) : bool :=
  Z.leb (- 9223372036854775808) n && Z.leb n 9223372036854775807.

Definition bindable (c : cond) : bool :=
  match c with
  | IsPalindromeEq n | LengthGe n | LengthLe n | WordCountEq n => fits_int64 n
  | ValueLike _ => true
  end.

(** [conn.execute(query, params).fetchall()] *)
Definition fetchall (db : table) (query : list cond) : result (list Row.t) :=
  if forallb bindable query
  then Ok (filter (fun r => forallb (holds r) query) db)
  else Raise OverflowError.

(** ** Requests and responses *)

(** The parsed JSON body.  Of a float the handlers observe only whether it
    is zero; an object holds the items of the dict it was parsed to, whose
    keys are distinct. *)
#[local] Set Warnings "-register-all".
Inductive json :=
| JNull
| JBool (b : bool)
| JInt (n : Z)
| JFloat (is_zero : bool)
| JStr (s : str)
| JArr (items : list json)
| JObj (members : list (str * json)).

(** [not data] *)
Definition falsy (data : json) : bool :=
  match data with
  | JNull => true
  | JBool b => negb b
  | JInt n => Z.eqb n 0
  | JFloat is_zero => is_zero
  | JStr s => match s with [] => true | _ => false end
  | JArr items => match items with [] => true | _ => false end
  | JObj members => match members with [] => true | _ => false end
  end.

Definition is_the_str (k : str) (j : json) : bool :=
  match j with
  | JStr s => str_eqb s k
  | _ => false
  end.

(** [data["value"]] when ["value" in data] holds; otherwise [None].  The
    test itself raises on what is neither a dict, a list nor a str, and the
    subscript raises on a list and on a str. *)
Definition value_of (data : json) : result (option json) :=
  match data with
  | JObj members => Ok (dict_find members (u "value"))
  | JArr items =>
      if existsb (is_the_str (u "value")) items then Raise TypeError else Ok None
  | JStr s =>
      if substring_in (u "value") s then Raise TypeError else Ok None
  | _ => Raise TypeError
  end.

Record item := make_item {
  item_id : str;
  item_value : str;
  item_properties : Properties.t;
  item_created_at : str
}.

Inductive body :=
| Empty
| Error (message : string)
| Item (i : item)
| Listing (data : list item) (count : Z) (filters_applied : Filters.t)
| Interpreted (data : list item) (count : Z) (original : str)
    (parsed_filters : Filters.t).

(** What a handler returns: a body with its status, or an exception that
    leaves the handler. *)
Inductive response :=
| Response (b : body) (status : Z)
| Unhandled (e : exn).

Definition bool_int (b : bool) : Z := if b then 1%Z else 0%Z.

(** [bool(n)] *)
Definition int_bool (n : Z) : bool := negb (Z.eqb n 0).

(** ** The handlers *)

Section Handlers.
Context {R : Runtime}.

(** POST /strings *)
Definition create_string (db : table) (data : json) (now : str)
    : table * response :=
  if falsy data then (db, Response (Error "Invalid request body") 400)
  else
    match value_of data with
    | Raise e => (db, Unhandled e)
    | Ok None => (db, Response (Error "Missing 'value' field") 400)
    | Ok (Some (JStr value)) =>
        match analyze_string value with
        | Raise e => (db, Unhandled e)
        | Ok properties =>
            let sha256_hash := Properties.sha256_hash properties in
            let created_at := now ++ u "Z" in
            match
              insert db
                (Row.make sha256_hash value (Properties.length properties)
                   (bool_int (Properties.is_palindrome properties))
                   (Properties.unique_characters properties)
                   (Properties.word_count properties) sha256_hash
                   (str_dict (Properties.character_frequency_map properties))
                   created_at)
            with
            | None =>
                (db, Response (Error "String already exists in the system") 409)
            | Some db' =>
                (db',
                 Response (Item (make_item sha256_hash value properties created_at))
                   201)
            end
        end
    | Ok (Some _) =>
        (db,
         Response (Error "Invalid data type for 'value' (must be string)") 422)
    end.

(** The JSON object the read handlers build from a row; [EvalError] when
    [eval] of the stored map gives no dict. *)
Definition row_item (row : Row.t) : result item :=
  match eval_dict (Row.character_frequency_map row) with
  | Some char_freq =>
      Ok (make_item (Row.id row) (Row.value row)
            (Properties.make (Row.length row) (int_bool (Row.is_palindrome row))
               (Row.unique_characters row) (Row.word_count row)
               (Row.sha256_hash row) char_freq)
            (Row.created_at row))
  | None => Raise EvalError
  end.

Fixpoint row_items (rows : list Row.t) : result (list item) :=
  match rows with
  | [] => Ok []
  | row :: rows' =>
      i <- row_item row ;;
      data <- row_items rows' ;;
      Ok (i :: data)
  end.

(** GET /strings/<string_value> *)
Definition get_string (db : table) (string_value : str) : response :=
  match select_by_value db string_value with
  | [] => Response (Error "String does not exist in the system") 404
  | row :: _ =>
      match row_item row with
      | Ok i => Response (Item i) 200
      | Raise e => Unhandled e
      end
  end.

(** The [try] block of [get_all_strings]: the query and [filters_applied]. *)
Definition structured_query
    (is_palindrome min_length max_length word_count contains_character : option str)
    : result (list cond * Filters.t) :=
  let query : list cond := [] in
  let filters_applied := Filters.empty in
  let (query, filters_applied) :=
    match is_palindrome with
    | Some text =>
        let is_pal := str_eqb (lower text) (u "true") in
        (query ++ [IsPalindromeEq (bool_int is_pal)],
         Filters.set_is_palindrome filters_applied is_pal)
    | None => (query, filters_applied)
    end in
  qf <-
    match min_length with
    | Some text =>
        n <- py_int text ;;
        Ok (query ++ [LengthGe n], Filters.set_min_length filters_applied n)
    | None => Ok (query, filters_applied)
    end ;;
  qf <-
    match max_length with
    | Some text =>
        n <- py_int text ;;
        Ok (fst qf ++ [LengthLe n], Filters.set_max_length (snd qf) n)
    | None => Ok qf
    end ;;
  qf <-
    match word_count with
    | Some text =>
        n <- py_int text ;;
        Ok (fst qf ++ [WordCountEq n], Filters.set_word_count (snd qf) n)
    | None => Ok qf
    end ;;
  match contains_character with
  | Some text =>
      Ok (fst qf ++ [ValueLike (u "%" ++ text ++ u "%")],
          Filters.set_contains_character (snd qf) text)
  | None => Ok qf
  end.

(** GET /strings *)
Definition get_all_strings (db : table)
    (is_palindrome min_length max_length word_count contains_character : option str)
    : response :=
  match
    structured_query is_palindrome min_length max_length word_count
      contains_character
  with
  | Raise ValueError =>
      Response (Error "Invalid query parameter values or types") 400
  | Raise e => Unhandled e
  | Ok (query, filters_applied) =>
      match rows <- fetchall db query ;; row_items rows with
      | Ok data => Response (Listing data (len data) filters_applied) 200
      | Raise e => Unhandled e
      end
  end.

(** The SQL terms of [filter_by_natural_language], in the order it adds
    them. *)
Definition filters_query (filters : Filters.t) : list cond :=
  let sql_query : list cond := [] in
  let sql_query :=
    match Filters.is_palindrome filters with
    | Some b => sql_query ++ [IsPalindromeEq (bool_int b)]
    | None => sql_query
    end in
  let sql_query :=
    match Filters.min_length filters with
    | Some n => sql_query ++ [LengthGe n]
    | None => sql_query
    end in
  let sql_query :=
    match Filters.max_length filters with
    | Some n => sql_query ++ [LengthLe n]
    | None => sql_query
    end in
  let sql_query :=
    match Filters.word_count filters with
    | Some n => sql_query ++ [WordCountEq n]
    | None => sql_query
    end in
  match Filters.contains_character filters with
  | Some c => sql_query ++ [ValueLike (u "%" ++ c ++ u "%")]
  | None => sql_query
  end.

(** GET /strings/filter-by-natural-language *)
Definition filter_by_natural_language (db : table) (query_param : option str)
    : response :=
  match query_param with
  | None | Some [] => Response (Error "Missing 'query' parameter") 400
  | Some query =>
      match parse_natural_language query with
      | Raise e => Unhandled e
      | Ok filters =>
          if Filters.is_empty filters
          then Response (Error "Unable to parse natural language query") 400
          else
            match rows <- fetchall db (filters_query filters) ;; row_items rows with
            | Ok data => Response (Interpreted data (len data) query filters) 200
            | Raise e => Unhandled e
            end
      end
  end.

(** DELETE /strings/<string_value> *)
Definition delete_string (db : table) (string_value : str) : table * response :=
  let (db', rowcount) := delete_by_value db string_value in
  if Z.eqb rowcount 0
  then (db', Response (Error "String does not exist in the system") 404)
  else (db', Response Empty 204).

(** The requests that write to the table. *)
Inductive request :=
| Create (data : json) (now : str)
| Delete (string_value : str).

Definition step (db : table) (req : request) : table :=
  match req with
  | Create data now => fst (create_string db data now)
  | Delete string_value => fst (delete_string db string_value)
  end.

Definition run (db : table) (reqs : list request) : table :=
  fold_left step reqs db.
End Handlers.

(** ** A runtime that knows ASCII only

    Every table is the ASCII one and leaves other characters alone; the
    digest is a stand-in that spells the bytes out.  It shows that the
    assumptions of [Runtime] can be met and lets the examples compute. *)

Definition spell_bytes (bytes : list N) : str := flat_map hex2 bytes.

Definition ascii_runtime : Runtime.
Proof.
  refine {| lower := List.map ascii_lower;
            isspace := ascii_space;
            decimal := ascii_decimal;
            isprintable := fun c => N.leb 32 c && N.ltb c 127;
            sha256_hexdigest := spell_bytes;
            lower_ascii := fun s _ => eq_refl;
            isspace_ascii := fun c _ => eq_refl;
            decimal_ascii := fun c _ => eq_refl;
            decimal_not_space := _ |}.
  intros c d. unfold ascii_decimal, ascii_space.
  destruct (N.leb_spec 48 c), (N.leb_spec c 57); simpl; try discriminate.
  intros _.
  destruct (N.leb_spec 9 c), (N.leb_spec c 13), (N.leb_spec 28 c), (N.leb_spec c 32);
    simpl; try reflexivity; lia.
Defined.

(** ** Sample data for the concrete cases *)

Definition sample_row (value : str) : Row.t :=
  Row.make (spell_bytes value) value (len value) 0 1 1 (spell_bytes value)
    (u "{}") (u "2025-01-01T00:00:00Z").

(** The table after one accepted request for the value "A". *)
Definition table_with_A : table :=
  Eval vm_compute in
    fst (@create_string ascii_runtime [] (JObj [(u "value", JStr (u "A"))]) (u "2025-01-01T00:00:00")).

(** The table after one accepted request for "Abba", and the record that
    request returned. *)
Definition table_with_Abba : table :=
  Eval vm_compute in
    fst (@create_string ascii_runtime [] (JObj [(u "value", JStr (u "Abba"))])
           (u "2025-01-01T00:00:00")).

Definition item_Abba : item :=
  Eval vm_compute in
    match
      snd (@create_string ascii_runtime [] (JObj [(u "value", JStr (u "Abba"))])
             (u "2025-01-01T00:00:00"))
    with
    | Response (Item i) _ => i
    | _ => make_item [] [] (Properties.make 0 false 0 0 [] []) []
    end.

(** ** Notions used to state the properties *)

(** The decimal numeral of a natural number. *)
Definition numeral (n : N) : str := uint_chars (N.to_uint n).

Section Notions.
Context {R : Runtime}.

(** The number a run of decimal digits denotes, most significant first. *)
Definition add_digit (acc : Z) (c : char) : Z :=
  match decimal c with
  | Some d => (10 * acc + Z.of_N d)%Z
  | None => acc
  end.

Definition digits_number (ds : str) : Z := fold_left add_digit ds 0%Z.

(** The number in the leftmost match of a pattern with a group of digits. *)
Definition found_number (r : regex) (s : str) : option Z :=
  match search r s with
  | Some (Some ds) => Some (digits_number ds)
  | _ => None
  end.

(** The text of group 1 in the leftmost match. *)
Definition found_text (r : regex) (s : str) : option str :=
  match search r s with
  | Some (Some c) => Some c
  | _ => None
  end.

(** A run of digits, where one was found, is short enough for [int]. *)
Definition int_reads (group : option str) : bool :=
  match group with
  | Some ds => N.leb (N.of_nat (List.length ds)) max_str_digits
  | None => true
  end.

(** Both length rules of the translator find no numeral or one that [int]
    reads. *)
Definition numerals_read (s : str) : bool :=
  int_reads (found_text length_pattern s)
  && int_reads (found_text length_pattern2 s).

(** A row as [create_string] writes it: the analysis of its value. *)
Definition analysed_row (r : Row.t) : Prop :=
  exists p,
    analyze_string (Row.value r) = Ok p
    /\ r = Row.make (Properties.sha256_hash p) (Row.value r) (Properties.length p)
             (bool_int (Properties.is_palindrome p))
             (Properties.unique_characters p) (Properties.word_count p)
             (Properties.sha256_hash p)
             (str_dict (Properties.character_frequency_map p)) (Row.created_at r).

(** The record the read handlers show for a row of an analysed value. *)
Definition shown (r : Row.t) (p : Properties.t) : item :=
  make_item (Properties.sha256_hash p) (Row.value r) p (Row.created_at r).

(** What a filter set asks of a value. *)
Definition value_matches (f : Filters.t) (v : str) : bool :=
  match Filters.is_palindrome f with
  | Some b => Bool.eqb (palindrome v) b
  | None => true
  end
  && match Filters.min_length f with
     | Some n => Z.leb n (len v)
     | None => true
     end
  && match Filters.max_length f with
     | Some n => Z.leb (len v) n
     | None => true
     end
  && match Filters.word_count f with
     | Some n => Z.eqb (len (split v)) n
     | None => true
     end
  && match Filters.contains_character f with
     | Some c => like (c_text (u "%" ++ c ++ u "%")) (c_text v)
     | None => true
     end.
End Notions.

(** The tokens of a display as [str_dict] writes it. *)
Definition item_tokens (kv : str * Z) : list token :=
  [TString (fst kv); TColon; TNumber (Z.to_N (snd kv))].

Fixpoint items_tokens (d : dict Z) : list token :=
  match d with
  | [] => []
  | [kv] => item_tokens kv
  | kv :: d' => item_tokens kv ++ TComma :: items_tokens d'
  end.

(** A dict [str_dict] and [eval_dict] agree on: keys that UTF-8 can encode,
    counts that are not negative. *)
Definition plain_item (kv : str * Z) : bool :=
  forallb is_scalar (fst kv) && Z.leb 0 (snd kv).

(** One item of a display added to the dict read so far. *)
Definition set_item (acc : dict Z) (kv : str * Z) : dict Z :=
  dict_set acc (fst kv) (Z.of_N (Z.to_N (snd kv))).

(** How often a character occurs in a text. *)
Definition occurrences (c : char) (s : str) : Z :=
  Z.of_nat (count_occ N.eq_dec s c).

(** The texts a client sends for filters on the structured path. *)
Definition bool_text (b : bool) : str := if b then u "true" else u "false".

(** A character a line of text in a TEXT column can hold as it is. *)
Definition clean_char (c : char) : Prop := c <> 0%N /\ c <> 10%N /\ c <> 13%N.

(** SQLite refuses a LIKE pattern of more than 50000 bytes (its
    SQLITE_MAX_LIKE_PATTERN_LENGTH), and a parameter is bound as UTF-8;
    [like] has no such limit, so what is said of the pattern [%text%] of an
    arbitrary text is said within it. *)
Definition pattern_fits (text : str) : bool :=
  match encode (u "%" ++ text ++ u "%") with
  | Ok bytes => (N.of_nat (List.length bytes) <=? 50000)%N
  | Raise _ => false
  end.

(** A match whose group 1 is one lowercase letter. *)
Definition one_letter (m : rematch) : Prop :=
  exists c, m = Some [c] /\ a_to_z c = true.

(** * Properties *)

(** ** Text and dictionaries *)

Lemma str_eqb_eq (a b : str) : str_eqb a b = true <-> a = b.
Proof.
  revert b; induction a as [|x a IH]; intros [|y b]; simpl;
    try (split; [discriminate | congruence]).
  - split; reflexivity.
  - rewrite andb_true_iff, N.eqb_eq, IH. split.
    + intros [-> ->]; reflexivity.
    + intros E; inversion E; auto.
Qed.

Lemma str_eqb_refl (a : str) : str_eqb a a = true.
Proof. apply str_eqb_eq; reflexivity. Qed.

Lemma str_eqb_neq (a b : str) : str_eqb a b = false <-> a <> b.
Proof.
  rewrite <- str_eqb_eq. destruct (str_eqb a b); split; congruence.
Qed.

Lemma sum_values_count (d : dict Z) (k : str) :
  sum_values (dict_set d k (dict_get d k 0 + 1)%Z) = (sum_values d + 1)%Z.
Proof.
  unfold sum_values, dict_values, dict_get.
  induction d as [|[k' v'] d IH]; simpl.
  - reflexivity.
  - destruct (str_eqb k' k); simpl; lia.
Qed.

Lemma forallb_rev {A} (f : A -> bool) (l : list A) :
  forallb f (rev l) = forallb f l.
Proof.
  induction l as [|x l IH]; simpl; [reflexivity|].
  rewrite forallb_app, IH. simpl. rewrite andb_true_r. apply andb_comm.
Qed.

Section AnalyzerFacts.
Context {R : Runtime}.

Lemma sum_values_fold (value : str) (d : dict Z) :
  sum_values (fold_left count_char value d) = (sum_values d + len value)%Z.
Proof.
  revert d; induction value as [|c value IH]; intros d.
  - unfold len; simpl; lia.
  - simpl fold_left. rewrite IH. unfold count_char.
    rewrite sum_values_count. unfold len; simpl List.length. lia.
Qed.

(** [analyze_string] returns exactly on the text UTF-8 can encode, and
    then with these fields. *)
Lemma analyze_string_ok (value : str) :
  forallb is_scalar value = true ->
  analyze_string value =
    Ok (Properties.make (len value) (palindrome value)
          (len (nodup N.eq_dec value)) (len (split value))
          (sha256_hexdigest (flat_map utf8_char value)) (char_frequency value)).
Proof.
  intros H. unfold analyze_string, encode. rewrite H. reflexivity.
Qed.

Lemma analyze_string_inv (value : str) (p : Properties.t) :
  analyze_string value = Ok p ->
  forallb is_scalar value = true
  /\ p = Properties.make (len value) (palindrome value)
           (len (nodup N.eq_dec value)) (len (split value))
           (sha256_hexdigest (flat_map utf8_char value)) (char_frequency value).
Proof.
  unfold analyze_string, encode.
  destruct (forallb is_scalar value); simpl; [|discriminate].
  intros E; inversion E; auto.
Qed.

Lemma map_ascii_lower_rev (s : str) :
  List.map ascii_lower (rev s) = rev (List.map ascii_lower s).
Proof. apply map_rev. Qed.

(** C1.  For every string, [analyze_string] sets [is_palindrome] exactly
    when the lowercased text, reversed, equals the lowercased text; on
    ASCII text that is also when the lowercased reversal equals it.  The
    analyzer returns on every text that UTF-8 can encode.  "Racecar" is a
    palindrome and "hello" is not. *)
Theorem is_palindrome_case_folded (s : str) :
  (forallb is_scalar s = true -> exists p, analyze_string s = Ok p)
  /\ (forall p, analyze_string s = Ok p ->
        (Properties.is_palindrome p = true <-> rev (lower s) = lower s)
        /\ (forallb is_ascii s = true ->
            (Properties.is_palindrome p = true <-> lower (rev s) = lower s)))
  /\ (exists p, analyze_string (u "Racecar") = Ok p
                /\ Properties.is_palindrome p = true)
  /\ (exists p, analyze_string (u "hello") = Ok p
                /\ Properties.is_palindrome p = false).
Proof.
  split; [|split; [|split]].
  - intros H. eexists. apply analyze_string_ok, H.
  - intros p Hp. apply analyze_string_inv in Hp. destruct Hp as [_ ->].
    simpl. unfold palindrome. rewrite str_eqb_eq. split.
    + split; intros E; congruence.
    + intros Ha. rewrite (lower_ascii (rev s)) by (rewrite forallb_rev; exact Ha).
      rewrite (lower_ascii s Ha), map_ascii_lower_rev.
      split; intros E; congruence.
  - eexists. split; [apply analyze_string_ok; reflexivity|].
    simpl. unfold palindrome. rewrite lower_ascii by reflexivity. reflexivity.
  - eexists. split; [apply analyze_string_ok; reflexivity|].
    simpl. unfold palindrome. rewrite lower_ascii by reflexivity. reflexivity.
Qed.

(** C8.  For every string the analyzer returns on, the values of
    [character_frequency_map] add up to [length], and [length] is the number
    of characters of the string; it returns on every text UTF-8 can
    encode. *)
Theorem character_frequency_sums_to_length (s : str) :
  (forallb is_scalar s = true -> exists p, analyze_string s = Ok p)
  /\ (forall p, analyze_string s = Ok p ->
        sum_values (Properties.character_frequency_map p) = Properties.length p
        /\ Properties.length p = len s).
Proof.
  split.
  - intros H. eexists. apply analyze_string_ok, H.
  - intros p Hp. apply analyze_string_inv in Hp. destruct Hp as [_ ->].
    simpl. split; [|reflexivity].
    unfold char_frequency. rewrite sum_values_fold. reflexivity.
Qed.
End AnalyzerFacts.

(** ** Regular expressions *)

Lemma take_drop_while (p : char -> bool) (s : str) :
  take_while p s ++ drop_while p s = s.
Proof.
  induction s as [|c s IH]; simpl; [reflexivity|].
  destruct (p c); simpl; [rewrite IH|]; reflexivity.
Qed.

Lemma take_while_all (p : char -> bool) (s : str) :
  forallb p (take_while p s) = true.
Proof.
  induction s as [|c s IH]; simpl; [reflexivity|].
  destruct (p c) eqn:E; simpl; [rewrite E; exact IH|reflexivity].
Qed.

Lemma firstn_take_while (p : char -> bool) (s : str) :
  firstn (List.length s - List.length (drop_while p s)) s = take_while p s.
Proof.
  rewrite <- (take_drop_while p s) at 1 3.
  rewrite length_app, Nat.add_sub, firstn_app, Nat.sub_diag, firstn_all.
  simpl. apply app_nil_r.
Qed.

Lemma drop_while_length (p : char -> bool) (s : str) :
  (List.length (drop_while p s) <= List.length s)%nat.
Proof.
  rewrite <- (take_drop_while p s) at 2. rewrite length_app. lia.
Qed.

(** A greedy repetition whose continuation cannot fail takes the longest
    run. *)
Lemma many_greedy {A} (p : char -> bool) (s : str) (k : str -> option A) :
  (forall s', k s' <> None) -> many p s k = k (drop_while p s).
Proof.
  intros Hk. induction s as [|c s IH]; simpl; [reflexivity|].
  destruct (p c); [|reflexivity].
  rewrite IH. destruct (k (drop_while p s)) eqn:E; [reflexivity|].
  destruct (Hk _ E).
Qed.

(** A literal followed by a group of one or more characters of a class. *)
Lemma match_at_counted (l : str) (p : char -> bool) (s : str) :
  match_at (Seq (Lit l) (Group (Plus p))) s =
    match starts_with l s with
    | Some (c :: s') => if p c then Some (Some (c :: take_while p s')) else None
    | _ => None
    end.
Proof.
  unfold match_at. simpl.
  destruct (starts_with l s) as [[|c s']|]; try reflexivity.
  destruct (p c); [|reflexivity].
  rewrite many_greedy by discriminate.
  do 2 f_equal.
  pose proof (drop_while_length p s') as Hle.
  change (List.length (c :: s')) with (S (List.length s')).
  rewrite Nat.sub_succ_l by exact Hle.
  simpl. f_equal. apply firstn_take_while.
Qed.

Lemma search_counted (l : str) (p : char -> bool) (s : str) (m : rematch) :
  search (Seq (Lit l) (Group (Plus p))) s = Some m ->
  exists ds, m = Some ds /\ ds <> [] /\ forallb p ds = true.
Proof.
  induction s as [|c s IH]; cbn [search]; rewrite match_at_counted.
  - destruct (starts_with l []) as [[|c s']|]; try discriminate.
    destruct (p c) eqn:E; [|discriminate].
    intros H; inversion H. eexists; split; [reflexivity|]. split; [discriminate|].
    simpl. rewrite E. apply take_while_all.
  - destruct (starts_with l (c :: s)) as [[|c' s']|]; auto.
    destruct (p c') eqn:E; auto.
    intros H; inversion H. eexists; split; [reflexivity|]. split; [discriminate|].
    simpl. rewrite E. apply take_while_all.
Qed.

(** What the continuation guarantees of its results, every match
    guarantees. *)
Lemma many_result {A} (Q : A -> Prop) (p : char -> bool) (s : str)
    (k : str -> option A) :
  (forall s' x, k s' = Some x -> Q x) ->
  forall x, many p s k = Some x -> Q x.
Proof.
  intros Hk. induction s as [|c s IH]; simpl; intros x; [apply Hk|].
  destruct (p c); [|apply Hk].
  destruct (many p s k) eqn:E; simpl.
  - intros H; inversion H; subst. apply IH; reflexivity.
  - apply Hk.
Qed.

Lemma rmatch_result {A} (Q : A -> Prop) (r : regex) :
  forall (s : str) (g : option str) (k : str -> option str -> option A),
  (forall s' g' x, k s' g' = Some x -> Q x) ->
  forall x, rmatch r s g k = Some x -> Q x.
Proof.
  induction r as [l|p|p|r IH|r1 IH1 r2 IH2|r1 IH1 r2 IH2|r IH];
    intros s g k Hk x; simpl.
  - destruct (starts_with l s); [apply Hk|discriminate].
  - destruct s as [|c s]; [discriminate|]. destruct (p c); [apply Hk|discriminate].
  - destruct s as [|c s]; [discriminate|]. destruct (p c); [|discriminate].
    apply many_result. intros s' y; apply Hk.
  - destruct (rmatch r s g k) eqn:E; simpl.
    + intros H; inversion H; subst. eapply IH; eauto.
    + apply Hk.
  - destruct (rmatch r1 s g k) eqn:E; simpl.
    + intros H; inversion H; subst. eapply IH1; eauto.
    + eapply IH2; eauto.
  - apply IH1. intros s' g' y. apply IH2, Hk.
  - apply IH. intros s' g' y. apply Hk.
Qed.

Lemma rmatch_seq {A} (r1 r2 : regex) (s : str) (g : option str)
    (k : str -> option str -> option A) :
  rmatch (Seq r1 r2) s g k = rmatch r1 s g (fun s' g' => rmatch r2 s' g' k).
Proof. reflexivity. Qed.

(** A match of [char_pattern] has one lowercase letter in its group. *)
Lemma match_at_char_pattern `{Runtime} (s : str) (m : rematch) :
  match_at char_pattern s = Some m -> one_letter m.
Proof.
  unfold match_at, char_pattern.
  do 5 (rewrite rmatch_seq; apply (rmatch_result one_letter); intros ? ? ?).
  cbn [rmatch].
  match goal with |- match ?s with _ => _ end = _ -> _ => destruct s as [|c s2] end;
    [discriminate|].
  destruct (a_to_z c) eqn:E; [|discriminate].
  change (List.length (c :: s2)) with (S (List.length s2)).
  rewrite Nat.sub_succ_l, Nat.sub_diag by apply Nat.le_refl.
  intros H1; injection H1 as <-. exists c. split; [reflexivity|exact E].
Qed.

Lemma search_char_pattern `{Runtime} (s : str) (m : rematch) :
  search char_pattern s = Some m -> one_letter m.
Proof.
  induction s as [|c s IH]; cbn [search].
  - destruct (match_at char_pattern []) eqn:E; [|discriminate].
    intros H1; inversion H1; subst. eapply match_at_char_pattern; eauto.
  - destruct (match_at char_pattern (c :: s)) eqn:E; [|exact IH].
    intros H1; inversion H1; subst. eapply match_at_char_pattern; eauto.
Qed.

(** ** [int] on a run of digits *)

Section IntFacts.
Context {R : Runtime}.

Lemma is_decimal_not_space (c : char) : is_decimal c = true -> isspace c = false.
Proof.
  unfold is_decimal. destruct (decimal c) eqn:E; [|discriminate].
  intros _. eapply decimal_not_space, E.
Qed.

Lemma is_decimal_not_ascii (c k : char) :
  is_decimal c = true -> is_ascii k = true -> ascii_decimal k = None ->
  N.eqb c k = false.
Proof.
  intros Hc Hk Hn. destruct (N.eqb_spec c k) as [->|]; [|reflexivity].
  unfold is_decimal in Hc. rewrite (decimal_ascii _ Hk), Hn in Hc. discriminate.
Qed.

Lemma is_decimal_not_int_space (c : char) :
  is_decimal c = true -> int_space c = false.
Proof.
  intros Hc. unfold int_space. destruct (N.ltb_spec c 127) as [Hlt|Hge].
  - unfold is_decimal in Hc. rewrite decimal_ascii in Hc
      by (unfold is_ascii; apply N.ltb_lt; lia).
    unfold ascii_decimal in Hc. unfold c_space.
    destruct (N.leb_spec 48 c), (N.leb_spec c 57); cbn [andb] in Hc;
      try discriminate.
    destruct (N.leb_spec 9 c), (N.leb_spec c 13), (N.eqb_spec c 32);
      cbn [andb orb]; try reflexivity; lia.
  - apply is_decimal_not_space, Hc.
Qed.

Lemma lstrip_digits (ds : str) : forallb is_decimal ds = true -> lstrip ds = ds.
Proof.
  destruct ds as [|c ds]; simpl; [reflexivity|].
  intros H. apply andb_true_iff in H. destruct H as [H _].
  rewrite (is_decimal_not_int_space _ H). reflexivity.
Qed.

Lemma strip_digits (ds : str) : forallb is_decimal ds = true -> strip ds = ds.
Proof.
  intros H. unfold strip. rewrite (lstrip_digits _ H).
  rewrite lstrip_digits by (rewrite forallb_rev; exact H).
  apply rev_involutive.
Qed.

Lemma digits_value_run (ds : str) :
  forallb is_decimal ds = true ->
  forall acc after_digit,
  ds <> [] \/ after_digit = true ->
  digits_value acc after_digit ds = Some (fold_left add_digit ds acc).
Proof.
  induction ds as [|c ds IH]; intros H acc b Hb.
  - destruct Hb as [Hb| ->]; [destruct Hb|]; reflexivity.
  - simpl in H. apply andb_true_iff in H. destruct H as [Hc H].
    simpl. unfold add_digit at 2. unfold is_decimal in Hc.
    destruct (decimal c); [|discriminate].
    apply IH; auto.
Qed.

Lemma count_digits_run (ds : str) :
  forallb is_decimal ds = true -> count_digits ds = N.of_nat (List.length ds).
Proof.
  induction ds as [|c ds IH]; [reflexivity|].
  cbn [forallb]. intros H. apply andb_true_iff in H. destruct H as [Hc H].
  cbn [count_digits List.length]. unfold is_decimal in Hc.
  destruct (decimal c); [|discriminate]. rewrite (IH H). lia.
Qed.

(** On a run of digits [int] looks at nothing but its length. *)
Lemma digits_int_run (ds : str) :
  forallb is_decimal ds = true -> ds <> [] ->
  digits_int ds = if int_reads (Some ds) then Some (digits_number ds) else None.
Proof.
  intros H Hne. unfold digits_int, int_reads.
  rewrite (digits_value_run _ H) by (left; exact Hne).
  rewrite (count_digits_run _ H). fold (digits_number ds).
  destruct (N.ltb_spec max_str_digits (N.of_nat (List.length ds))),
    (N.leb_spec (N.of_nat (List.length ds)) max_str_digits);
    try reflexivity; lia.
Qed.

Lemma py_int_digits (ds : str) :
  forallb is_decimal ds = true -> ds <> [] ->
  py_int ds
  = if int_reads (Some ds) then Ok (digits_number ds) else Raise ValueError.
Proof.
  intros H Hne. unfold py_int. rewrite (strip_digits _ H).
  pose proof (digits_int_run _ H Hne) as E.
  destruct ds as [|c ds]; [destruct Hne; reflexivity|].
  pose proof H as H'. simpl in H'. apply andb_true_iff in H'. destruct H' as [Hc _].
  rewrite (is_decimal_not_ascii c 45%N Hc), (is_decimal_not_ascii c 43%N Hc)
    by reflexivity.
  rewrite E. destruct (int_reads _); reflexivity.
Qed.

Lemma int_group_counted (l s : str) (m : rematch) :
  search (Seq (Lit l) (Group (Plus is_decimal))) s = Some m ->
  exists ds,
    m = Some ds
    /\ int_group m
       = if int_reads (Some ds) then Ok (digits_number ds) else Raise ValueError.
Proof.
  intros H. apply search_counted in H. destruct H as (ds & -> & Hne & Hall).
  exists ds. split; [reflexivity|]. apply py_int_digits; assumption.
Qed.

Lemma number_rule (l s : str) (f : Filters.t) (set : Z -> Filters.t) :
  match search (Seq (Lit l) (Group (Plus is_decimal))) s with
  | Some m => n <- int_group m ;; Ok (set n)
  | None => Ok f
  end =
  if int_reads (found_text (Seq (Lit l) (Group (Plus is_decimal))) s)
  then Ok match found_number (Seq (Lit l) (Group (Plus is_decimal))) s with
          | Some n => set n
          | None => f
          end
  else Raise ValueError.
Proof.
  unfold found_number, found_text.
  destruct (search (Seq (Lit l) (Group (Plus is_decimal))) s) as [m|] eqn:E;
    [|reflexivity].
  destruct (int_group_counted _ _ _ E) as (ds & -> & ->).
  destruct (int_reads (Some ds)); reflexivity.
Qed.

Lemma letter_rule (s : str) (f : Filters.t) (set : str -> Filters.t) :
  match search char_pattern s with
  | Some m => c <- group_text m ;; Ok (set c)
  | None => Ok f
  end =
  Ok match found_text char_pattern s with
     | Some c => set c
     | None => f
     end.
Proof.
  unfold found_text.
  destruct (search char_pattern s) as [m|] eqn:E; [|reflexivity].
  destruct (search_char_pattern _ _ E) as (c & -> & _). reflexivity.
Qed.

(** The translator raises [ValueError] when one of its length rules finds a
    numeral too long for [int]; otherwise its filters are these. *)
Theorem parse_natural_language_eq (query : str) :
  let query_lower := lower query in
  parse_natural_language query =
    if numerals_read query_lower
    then
      Ok (Filters.make
            (if substring_in (u "palindrom") query_lower then Some true else None)
            (option_map (fun n => n + 1)%Z (found_number length_pattern query_lower))
            (option_map (fun n => n - 1)%Z (found_number length_pattern2 query_lower))
            (if substring_in (u "single word") query_lower then Some 1%Z
             else if substring_in (u "two word") query_lower
                     || substring_in (u "2 word") query_lower
             then Some 2%Z else None)
            (if substring_in (u "first vowel") query_lower then Some (u "a")
             else found_text char_pattern query_lower))
    else Raise ValueError.
Proof.
  intros query_lower. unfold parse_natural_language, numerals_read.
  fold query_lower. unfold length_pattern, length_pattern2.
  rewrite number_rule.
  destruct (int_reads (found_text _ query_lower)); cbn [bind andb]; [|reflexivity].
  rewrite number_rule.
  destruct (int_reads (found_text _ query_lower)); cbn [bind]; [|reflexivity].
  rewrite letter_rule. cbn [bind].
  repeat match goal with
         | |- context [substring_in ?a ?b] => destruct (substring_in a b)
         | |- context [found_number ?a ?b] => destruct (found_number a b)
         | |- context [found_text ?a ?b] => destruct (found_text a b)
         end; reflexivity.
Qed.
End IntFacts.

(** ** Decimal numerals *)

Lemma decimal_value_uint (d : Decimal.uint) (acc : N) :
  fold_left add_ascii_digit (uint_chars d) acc
  = (acc * 10 ^ DecimalPos.Unsigned.usize d
     + DecimalPos.Unsigned.of_lu (Decimal.rev d))%N.
Proof.
  revert acc.
  induction d; intros acc; cbn [uint_chars fold_left DecimalPos.Unsigned.usize];
    [simpl; lia|..];
    rewrite IHd;
    match goal with
    | |- context [Decimal.rev (?D d)] =>
        change (Decimal.rev (D d)) with (Decimal.revapp d (D Decimal.Nil));
        rewrite (DecimalPos.Unsigned.of_lu_revapp d (D Decimal.Nil))
    end;
    unfold add_ascii_digit; cbn [DecimalPos.Unsigned.of_lu];
    rewrite N.pow_succ_r'; lia.
Qed.

Lemma decimal_value_numeral (n : N) : decimal_value (numeral n) = n.
Proof.
  unfold decimal_value, numeral.
  rewrite decimal_value_uint, N.mul_0_l, N.add_0_l.
  rewrite <- DecimalPos.Unsigned.of_uint_alt.
  exact (DecimalN.Unsigned.of_to n).
Qed.

Lemma uint_chars_digits (d : Decimal.uint) : forallb ascii_digit (uint_chars d) = true.
Proof. induction d; simpl; auto. Qed.

Lemma numeral_digits (n : N) : forallb ascii_digit (numeral n) = true.
Proof. apply uint_chars_digits. Qed.

Lemma uint_chars_nil (d : Decimal.uint) : uint_chars d = [] -> d = Decimal.Nil.
Proof. destruct d; simpl; congruence. Qed.

Lemma numeral_not_nil (n : N) : numeral n <> [].
Proof.
  unfold numeral. intros E. apply uint_chars_nil in E.
  destruct n as [|p]; [discriminate|].
  exact (DecimalPos.Unsigned.to_uint_nonnil p E).
Qed.

(** ** Where a search finds its match *)

Lemma starts_with_app (l rest : str) : starts_with l (l ++ rest) = Some rest.
Proof.
  induction l as [|x l IH]; simpl; [reflexivity|].
  rewrite N.eqb_refl. exact IH.
Qed.

Lemma search_first (r : regex) (pre rest : str) :
  (forall i, (i < List.length pre)%nat -> match_at r (skipn i (pre ++ rest)) = None) ->
  search r (pre ++ rest) = search r rest.
Proof.
  induction pre as [|c pre IH]; intros H; [reflexivity|].
  assert (H0 := H 0%nat ltac:(simpl; lia)). cbn [skipn app] in H0.
  cbn [app search]. rewrite H0.
  apply IH. intros i Hi. apply (H (S i)). simpl; lia.
Qed.

Lemma search_literal_absent (l : str) (r : regex) (s : str) :
  substring_in l s = false -> search (Seq (Lit l) r) s = None.
Proof.
  induction s as [|c s IH]; cbn [search substring_in]; unfold match_at; simpl;
    destruct (starts_with l _); try discriminate; auto.
Qed.

Lemma take_while_run (p : char -> bool) (ds post : str) :
  forallb p ds = true ->
  match post with c :: _ => p c = false | [] => True end ->
  take_while p (ds ++ post) = ds.
Proof.
  intros H Hpost. induction ds as [|c ds IH]; simpl.
  - destruct post as [|c post]; [reflexivity|]. simpl. rewrite Hpost. reflexivity.
  - simpl in H. apply andb_true_iff in H. destruct H as [-> H].
    rewrite IH by exact H. reflexivity.
Qed.

Section TranslatorFacts.
Context {R : Runtime}.

Lemma ascii_digit_decimal (c : char) :
  ascii_digit c = true -> decimal c = Some (c - 48)%N.
Proof.
  intros H. unfold ascii_digit in H.
  assert (Ha : is_ascii c = true).
  { unfold is_ascii. apply andb_true_iff in H. destruct H as [_ H].
    apply N.leb_le in H. apply N.ltb_lt. lia. }
  rewrite (decimal_ascii _ Ha). unfold ascii_decimal. rewrite H. reflexivity.
Qed.

Lemma ascii_digits_decimal (ds : str) :
  forallb ascii_digit ds = true -> forallb is_decimal ds = true.
Proof.
  induction ds as [|c ds IH]; simpl; [reflexivity|].
  intros H. apply andb_true_iff in H. destruct H as [Hc H].
  unfold is_decimal at 1. rewrite (ascii_digit_decimal _ Hc). auto.
Qed.

Lemma digits_number_ascii (ds : str) :
  forallb ascii_digit ds = true -> digits_number ds = Z.of_N (decimal_value ds).
Proof.
  unfold digits_number, decimal_value.
  change 0%Z with (Z.of_N 0). generalize 0%N as acc.
  induction ds as [|c ds IH]; intros acc H; [reflexivity|].
  simpl in H. apply andb_true_iff in H. destruct H as [Hc H].
  cbn [fold_left]. unfold add_digit at 2, add_ascii_digit at 2.
  rewrite (ascii_digit_decimal _ Hc).
  rewrite <- (IH _ H). f_equal. lia.
Qed.

(** The leftmost match of a literal followed by digits, when the text is
    [pre], the literal, the numeral of [n] and [post], no match starts
    inside [pre] and [post] does not go on with a digit. *)
Lemma found_number_at (l pre post : str) (n : N) :
  let r := Seq (Lit l) (Group (Plus is_decimal)) in
  (forall i, (i < List.length pre)%nat ->
     match_at r (skipn i (pre ++ l ++ numeral n ++ post)) = None) ->
  match post with c :: _ => is_decimal c = false | [] => True end ->
  found_number r (pre ++ l ++ numeral n ++ post) = Some (Z.of_N n).
Proof.
  intros r Hpre Hpost. unfold found_number.
  rewrite (search_first r pre _ Hpre).
  assert (E : match_at r (l ++ numeral n ++ post) = Some (Some (numeral n))).
  { unfold r. rewrite match_at_counted, starts_with_app.
    pose proof (numeral_not_nil n) as Hne.
    pose proof (ascii_digits_decimal _ (numeral_digits n)) as Hd.
    destruct (numeral n) as [|c ds]; [destruct Hne; reflexivity|].
    simpl in Hd. apply andb_true_iff in Hd. destruct Hd as [Hc Hd].
    cbn [app]. rewrite Hc, (take_while_run _ _ _ Hd Hpost). reflexivity. }
  destruct (l ++ numeral n ++ post) as [|c s] eqn:El; cbn [search]; rewrite E;
    rewrite (digits_number_ascii _ (numeral_digits n)), decimal_value_numeral;
    reflexivity.
Qed.

Lemma found_text_at (l pre post : str) (n : N) :
  let r := Seq (Lit l) (Group (Plus is_decimal)) in
  (forall i, (i < List.length pre)%nat ->
     match_at r (skipn i (pre ++ l ++ numeral n ++ post)) = None) ->
  match post with c :: _ => is_decimal c = false | [] => True end ->
  found_text r (pre ++ l ++ numeral n ++ post) = Some (numeral n).
Proof.
  intros r Hpre Hpost. unfold found_text.
  rewrite (search_first r pre _ Hpre).
  assert (E : match_at r (l ++ numeral n ++ post) = Some (Some (numeral n))).
  { unfold r. rewrite match_at_counted, starts_with_app.
    pose proof (numeral_not_nil n) as Hne.
    pose proof (ascii_digits_decimal _ (numeral_digits n)) as Hd.
    destruct (numeral n) as [|c ds]; [destruct Hne; reflexivity|].
    simpl in Hd. apply andb_true_iff in Hd. destruct Hd as [Hc Hd].
    cbn [app]. rewrite Hc, (take_while_run _ _ _ Hd Hpost). reflexivity. }
  destruct (l ++ numeral n ++ post) as [|c s] eqn:El; cbn [search]; rewrite E;
    reflexivity.
Qed.

(** What the translator does when it returns, and when it does. *)
Lemma parse_natural_language_ok (query : str) (f : Filters.t) :
  parse_natural_language query = Ok f ->
  numerals_read (lower query) = true
  /\ f = Filters.make
           (if substring_in (u "palindrom") (lower query) then Some true else None)
           (option_map (fun n => n + 1)%Z (found_number length_pattern (lower query)))
           (option_map (fun n => n - 1)%Z (found_number length_pattern2 (lower query)))
           (if substring_in (u "single word") (lower query) then Some 1%Z
            else if substring_in (u "two word") (lower query)
                    || substring_in (u "2 word") (lower query)
            then Some 2%Z else None)
           (if substring_in (u "first vowel") (lower query) then Some (u "a")
            else found_text char_pattern (lower query)).
Proof.
  rewrite parse_natural_language_eq. cbv zeta.
  destruct (numerals_read (lower query)); [|discriminate].
  intros H. injection H as <-. split; reflexivity.
Qed.

Lemma parse_natural_language_raises (query : str) :
  numerals_read (lower query) = false ->
  parse_natural_language query = Raise ValueError.
Proof. intros H. rewrite parse_natural_language_eq. cbv zeta. rewrite H. reflexivity. Qed.


(** C6 (as amended).  When the lowercased query is [pre], "longer than ", the
    numeral of [n] and [post], where no match of the pattern starts inside
    [pre] and [post] does not go on with a digit, every filter set the
    translator returns has [min_length = n + 1]; it returns one when the
    numeral has at most 4300 digits (and the numeral of the other length
    rule, if there is one, too), and raises [ValueError] when the numeral
    has more.  With "shorter than " the same holds of [max_length = n - 1].
    "strings longer than 5 characters" gives [min_length = 6] and nothing
    else. *)
Theorem longer_shorter_than (query pre post : str) (n : N) :
  (lower query = pre ++ u "longer than " ++ numeral n ++ post ->
   (forall i, (i < List.length pre)%nat ->
      match_at length_pattern (skipn i (lower query)) = None) ->
   match post with c :: _ => is_decimal c = false | [] => True end ->
   (forall f,
      parse_natural_language query = Ok f ->
      Filters.min_length f = Some (Z.of_N n + 1)%Z)
   /\ (int_reads (Some (numeral n)) = true ->
       int_reads (found_text length_pattern2 (lower query)) = true ->
       exists f,
         parse_natural_language query = Ok f
         /\ Filters.min_length f = Some (Z.of_N n + 1)%Z)
   /\ (int_reads (Some (numeral n)) = false ->
       parse_natural_language query = Raise ValueError))
  /\ (lower query = pre ++ u "shorter than " ++ numeral n ++ post ->
      (forall i, (i < List.length pre)%nat ->
         match_at length_pattern2 (skipn i (lower query)) = None) ->
      match post with c :: _ => is_decimal c = false | [] => True end ->
      (forall f,
         parse_natural_language query = Ok f ->
         Filters.max_length f = Some (Z.of_N n - 1)%Z)
      /\ (int_reads (Some (numeral n)) = true ->
          int_reads (found_text length_pattern (lower query)) = true ->
          exists f,
            parse_natural_language query = Ok f
            /\ Filters.max_length f = Some (Z.of_N n - 1)%Z)
      /\ (int_reads (Some (numeral n)) = false ->
          parse_natural_language query = Raise ValueError))
  /\ parse_natural_language (u "strings longer than 5 characters")
     = Ok (Filters.make None (Some 6%Z) None None None).
Proof.
  split; [|split].
  - intros Hq Hpre Hpost.
    assert (Hn : found_number length_pattern (lower query) = Some (Z.of_N n)).
    { rewrite Hq in *. exact (found_number_at _ pre post n Hpre Hpost). }
    assert (Ht : found_text length_pattern (lower query) = Some (numeral n)).
    { rewrite Hq in *. exact (found_text_at _ pre post n Hpre Hpost). }
    split; [|split].
    + intros f Hf. apply parse_natural_language_ok in Hf. destruct Hf as [_ ->].
      cbn [Filters.min_length]. rewrite Hn. reflexivity.
    + intros H1 H2. rewrite parse_natural_language_eq. cbv zeta.
      unfold numerals_read. rewrite Ht, H1, H2. cbn [andb].
      eexists. split; [reflexivity|]. cbn [Filters.min_length].
      rewrite Hn. reflexivity.
    + intros H1. apply parse_natural_language_raises.
      unfold numerals_read. rewrite Ht, H1. reflexivity.
  - intros Hq Hpre Hpost.
    assert (Hn : found_number length_pattern2 (lower query) = Some (Z.of_N n)).
    { rewrite Hq in *. exact (found_number_at _ pre post n Hpre Hpost). }
    assert (Ht : found_text length_pattern2 (lower query) = Some (numeral n)).
    { rewrite Hq in *. exact (found_text_at _ pre post n Hpre Hpost). }
    split; [|split].
    + intros f Hf. apply parse_natural_language_ok in Hf. destruct Hf as [_ ->].
      cbn [Filters.max_length]. rewrite Hn. reflexivity.
    + intros H1 H2. rewrite parse_natural_language_eq. cbv zeta.
      unfold numerals_read. rewrite Ht, H1, H2. cbn [andb].
      eexists. split; [reflexivity|]. cbn [Filters.max_length].
      rewrite Hn. reflexivity.
    + intros H1. apply parse_natural_language_raises.
      unfold numerals_read. rewrite Ht, H1. apply andb_false_r.
  - rewrite parse_natural_language_eq. cbv zeta.
    rewrite lower_ascii by reflexivity.
    unfold numerals_read.
    unfold found_text, char_pattern.
    unfold found_number at 2. unfold length_pattern2.
    rewrite !search_literal_absent by reflexivity.
    unfold length_pattern.
    change (List.map ascii_lower (u "strings longer than 5 characters"))
      with (u "strings " ++ u "longer than " ++ numeral 5 ++ u " characters").
    assert (Hpre : forall i, (i < List.length (u "strings "))%nat ->
              match_at (Seq (Lit (u "longer than ")) (Group (Plus is_decimal)))
                (skipn i (u "strings " ++ u "longer than " ++ numeral 5
                          ++ u " characters")) = None).
    { intros i Hi. rewrite match_at_counted.
      do 8 (destruct i as [|i]; [reflexivity|]). simpl in Hi. lia. }
    assert (Hpost : is_decimal (chr " ") = false).
    { unfold is_decimal. rewrite decimal_ascii by reflexivity. reflexivity. }
    fold (found_text (Seq (Lit (u "longer than ")) (Group (Plus is_decimal)))
            (u "strings " ++ u "longer than " ++ numeral 5 ++ u " characters")).
    rewrite (found_text_at (u "longer than ") (u "strings ") (u " characters") 5
               Hpre Hpost).
    rewrite (found_number_at (u "longer than ") (u "strings ") (u " characters") 5
               Hpre Hpost).
    reflexivity.
Qed.
End TranslatorFacts.

(** ** The operator LIKE *)

Lemma like_percent (p s : str) :
  like (37%N :: p) s
  = like p s || match s with [] => false | _ :: s' => like (37%N :: p) s' end.
Proof. destruct s; reflexivity. Qed.

Lemma like_plain (c : char) (p s : str) :
  c <> 37%N -> c <> 95%N ->
  like (c :: p) s
  = match s with [] => false | d :: s' => like_char c d && like p s' end.
Proof.
  intros H1 H2. cbn [like].
  rewrite (proj2 (N.eqb_neq c 37) H1), (proj2 (N.eqb_neq c 95) H2). reflexivity.
Qed.

Lemma like_any (s : str) : like [37%N] s = true.
Proof.
  induction s as [|d s IH]; rewrite like_percent; [reflexivity|].
  rewrite IH. apply orb_true_r.
Qed.

(** [%c%] matches the texts with a character that is [c] up to ASCII
    case. *)
Lemma like_contains (c : char) (s : str) :
  c <> 37%N -> c <> 95%N ->
  like [37%N; c; 37%N] s = true <-> exists d, In d s /\ like_char c d = true.
Proof.
  intros H1 H2. induction s as [|d s IH]; rewrite like_percent, like_plain by assumption.
  - simpl. split; [discriminate|]. intros (d & [] & _).
  - rewrite like_any, andb_true_r, orb_true_iff, IH. split.
    + intros [E|(d' & Hin & E)]; [exists d|exists d']; simpl; auto.
    + intros (d' & [<-|Hin] & E); [left; exact E|right; exists d'; auto].
Qed.

Lemma like_char_lower (c d : char) :
  like_char c d = true <-> ascii_lower d = ascii_lower c.
Proof. unfold like_char. rewrite N.eqb_eq. split; congruence. Qed.

Section HandlerFacts.
Context {R : Runtime}.

(** C3 (as amended).  For a single character [c] that is not NUL, [%] or
    [_], both filter paths add the term [value LIKE '%c%'], and a record
    satisfies it exactly when some character of its value, read up to the
    first NUL, equals [c] up to the case of ASCII letters. *)
Theorem contains_character_like (r : Row.t) (c : char) :
  c <> 0%N -> c <> 37%N -> c <> 95%N ->
  let term := ValueLike (u "%" ++ [c] ++ u "%") in
  structured_query None None None None (Some [c])
    = Ok ([term], Filters.set_contains_character Filters.empty [c])
  /\ filters_query (Filters.set_contains_character Filters.empty [c]) = [term]
  /\ (holds r term = true <->
      exists d, In d (c_text (Row.value r)) /\ ascii_lower d = ascii_lower c).
Proof.
  intros H0 H1 H2 term. split; [reflexivity|]. split; [reflexivity|].
  unfold term, holds.
  assert (E : c_text (u "%" ++ [c] ++ u "%") = [37%N; c; 37%N]).
  { unfold c_text. cbn. rewrite (proj2 (N.eqb_neq c 0) H0). reflexivity. }
  rewrite E, (like_contains c _ H1 H2).
  split; intros (d & Hin & Hd); exists d; split; auto; apply like_char_lower; exact Hd.
Qed.

(** C4.  Whatever text the parameter [is_palindrome] carries, the
    structured path builds a filter from it and never answers with the
    malformed-request error; "banana" filters for non-palindromes.  A text
    that [int] refuses for [min_length] is answered with that error. *)
Theorem is_palindrome_parameter_never_rejected (db : table) (text : str) :
  structured_query (Some text) None None None None
    = Ok ([IsPalindromeEq (bool_int (str_eqb (lower text) (u "true")))],
          Filters.set_is_palindrome Filters.empty
            (str_eqb (lower text) (u "true")))
  /\ get_all_strings db (Some text) None None None None
     <> Response (Error "Invalid query parameter values or types") 400
  /\ get_all_strings [] (Some (u "banana")) None None None None
     = Response (Listing [] 0 (Filters.set_is_palindrome Filters.empty false)) 200
  /\ (forall bound, py_int bound = Raise ValueError ->
      get_all_strings db None (Some bound) None None None
      = Response (Error "Invalid query parameter values or types") 400).
Proof.
  split; [reflexivity|]. split; [|split].
  - unfold get_all_strings. cbn [structured_query bind app fst snd].
    destruct (fetchall db _) as [rows|e]; cbn [bind]; [|discriminate].
    destruct (row_items rows); discriminate.
  - unfold get_all_strings. cbn [structured_query bind app fst snd].
    rewrite lower_ascii by reflexivity. reflexivity.
  - intros bound E. unfold get_all_strings, structured_query. rewrite E. reflexivity.
Qed.

(** C7 (as amended).  For a query text that is not empty: when the
    translator returns filters and they are empty, the endpoint answers
    with the unparseable-query error, as it does for "banana bread"; when
    they are not empty, the answer is never that error, and if the bounds
    fit SQLite's integers and no record matches, it is status 200 with an
    empty result set.  The translator returns unless a length rule finds a
    numeral too long for [int]; then the request ends in [ValueError]. *)
Theorem unparseable_query_reported (db : table) (query : str) :
  (query <> [] ->
   (forall f,
      parse_natural_language query = Ok f ->
      (Filters.is_empty f = true ->
       filter_by_natural_language db (Some query)
       = Response (Error "Unable to parse natural language query") 400)
      /\ (Filters.is_empty f = false ->
          filter_by_natural_language db (Some query)
          <> Response (Error "Unable to parse natural language query") 400
          /\ (forallb bindable (filters_query f) = true ->
              filter (fun r => forallb (holds r) (filters_query f)) db = [] ->
              filter_by_natural_language db (Some query)
              = Response (Interpreted [] 0 query f) 200)))
   /\ (numerals_read (lower query) = true ->
       exists f, parse_natural_language query = Ok f)
   /\ (numerals_read (lower query) = false ->
       filter_by_natural_language db (Some query) = Unhandled ValueError))
  /\ filter_by_natural_language db (Some (u "banana bread"))
     = Response (Error "Unable to parse natural language query") 400.
Proof.
  split.
  - intros Hne. split; [|split].
    + intros f Hf. split.
      * intros He. unfold filter_by_natural_language.
        destruct query as [|c query]; [destruct Hne; reflexivity|].
        rewrite Hf, He. reflexivity.
      * intros He. unfold filter_by_natural_language.
        destruct query as [|c query]; [destruct Hne; reflexivity|].
        rewrite Hf, He. split.
        -- destruct (fetchall db _) as [rows|e]; cbn [bind]; [|discriminate].
           destruct (row_items rows); discriminate.
        -- intros Hb Hrows. unfold fetchall. rewrite Hb, Hrows. reflexivity.
    + intros Hr. rewrite parse_natural_language_eq. cbv zeta. rewrite Hr.
      eexists. reflexivity.
    + intros Hr. unfold filter_by_natural_language.
      destruct query as [|c query]; [destruct Hne; reflexivity|].
      rewrite (parse_natural_language_raises _ Hr). reflexivity.
  - unfold filter_by_natural_language. cbn [u list_ascii_of_string List.map].
    rewrite parse_natural_language_eq. cbv zeta.
    rewrite lower_ascii by reflexivity.
    unfold numerals_read.
    unfold found_number, found_text, length_pattern, length_pattern2, char_pattern.
    rewrite !search_literal_absent by reflexivity. reflexivity.
Qed.

(** ** The table under requests *)

Lemma NoDup_map_filter {A B} (f : A -> B) (p : A -> bool) (l : list A) :
  NoDup (List.map f l) -> NoDup (List.map f (filter p l)).
Proof.
  induction l as [|x l IH]; simpl; intros H; [constructor|].
  inversion H as [|? ? Hx Hl]; subst.
  destruct (p x); simpl; auto.
  constructor; auto.
  intros Hin. apply Hx. apply in_map_iff in Hin. destruct Hin as (y & E & Hy).
  apply in_map_iff. exists y. split; [exact E|].
  apply filter_In in Hy. tauto.
Qed.

Lemma existsb_value_false (db : table) (r : Row.t) :
  existsb (fun x => str_eqb (Row.id x) (Row.id r)
                    || str_eqb (Row.value x) (Row.value r)) db = false ->
  ~ In (Row.value r) (List.map Row.value db).
Proof.
  intros H Hin. apply in_map_iff in Hin. destruct Hin as (x & E & Hx).
  assert (existsb (fun x => str_eqb (Row.id x) (Row.id r)
                            || str_eqb (Row.value x) (Row.value r)) db = true).
  { apply existsb_exists. exists x. split; [exact Hx|].
    rewrite E, str_eqb_refl. apply orb_true_r. }
  congruence.
Qed.

Lemma insert_unique (db db' : table) (r : Row.t) :
  insert db r = Some db' ->
  NoDup (List.map Row.value db) -> NoDup (List.map Row.value db').
Proof.
  unfold insert. destruct (existsb _ db) eqn:E; [discriminate|].
  intros H; inversion H; subst. intros Hnd.
  rewrite map_app. simpl.
  apply NoDup_app; [exact Hnd|repeat constructor; intros []|].
  intros v Hv [<-|[]]. exact (existsb_value_false db r E Hv).
Qed.

Lemma insert_again (db db' : table) (r r' : Row.t) :
  insert db r = Some db' -> Row.value r' = Row.value r -> insert db' r' = None.
Proof.
  unfold insert. destruct (existsb _ db) eqn:E; [discriminate|].
  intros H; inversion H; subst. intros Hv.
  rewrite existsb_app. simpl. rewrite Hv, str_eqb_refl, !orb_true_r. reflexivity.
Qed.

(** What [create_string] does to the table: nothing, or one insertion of
    the row of the submitted value. *)
Lemma create_string_cases (db : table) (data : json) (now : str) :
  (fst (create_string db data now) = db
   /\ forall b, snd (create_string db data now) <> Response b 201)
  \/ exists value p i,
       value_of data = Ok (Some (JStr value))
       /\ falsy data = false
       /\ analyze_string value = Ok p
       /\ insert db
            (Row.make (Properties.sha256_hash p) value (Properties.length p)
               (bool_int (Properties.is_palindrome p))
               (Properties.unique_characters p) (Properties.word_count p)
               (Properties.sha256_hash p)
               (str_dict (Properties.character_frequency_map p)) (now ++ u "Z"))
          = Some (fst (create_string db data now))
       /\ snd (create_string db data now) = Response (Item i) 201
       /\ i = make_item (Properties.sha256_hash p) value p (now ++ u "Z").
Proof.
  unfold create_string.
  destruct (falsy data) eqn:Ef; [left; split; [reflexivity|discriminate]|].
  destruct (value_of data) as [[j|]|e] eqn:Ev;
    try (left; split; [reflexivity|discriminate]).
  destruct j; try (left; split; [reflexivity|discriminate]).
  destruct (analyze_string s) as [p|e] eqn:Ea;
    [|left; split; [reflexivity|discriminate]].
  destruct (insert db _) as [db'|] eqn:Ei;
    [|left; split; [reflexivity|discriminate]].
  right. exists s, p. eexists. repeat split; try reflexivity; assumption.
Qed.

Lemma step_unique (db : table) (req : request) :
  NoDup (List.map Row.value db) -> NoDup (List.map Row.value (step db req)).
Proof.
  intros H. destruct req as [data now|value]; cbn [step].
  - destruct (create_string_cases db data now)
      as [[-> _]|(value & p & i & _ & _ & _ & Hi & _)]; [exact H|].
    exact (insert_unique _ _ _ Hi H).
  - unfold delete_string, delete_by_value.
    destruct (Z.eqb _ 0); cbn [fst]; apply NoDup_map_filter, H.
Qed.

Lemma run_unique (reqs : list request) (db : table) :
  NoDup (List.map Row.value db) -> NoDup (List.map Row.value (run db reqs)).
Proof.
  revert db. induction reqs as [|req reqs IH]; intros db H; [exact H|].
  apply IH, step_unique, H.
Qed.

(** C2.  From a table with no value twice, any sequence of create and
    delete requests leaves a table with no value twice.  A create request
    that succeeds there is refused with a conflict when repeated, and the
    table stays as the first one left it.  The first one succeeds when the
    value can be encoded and neither it nor its digest is in the table. *)
Theorem values_stay_unique (db : table) (reqs : list request) (data : json)
    (now now' : str) :
  NoDup (List.map Row.value db) ->
  let db0 := run db reqs in
  NoDup (List.map Row.value db0)
  /\ (forall db1 b,
        create_string db0 data now = (db1, Response b 201) ->
        create_string db1 data now'
        = (db1, Response (Error "String already exists in the system") 409))
  /\ (forall value,
        data = JObj [(u "value", JStr value)] ->
        forallb is_scalar value = true ->
        ~ In value (List.map Row.value db0) ->
        ~ In (sha256_hexdigest (flat_map utf8_char value)) (List.map Row.id db0) ->
        exists db1 i,
          create_string db0 data now = (db1, Response (Item i) 201)
          /\ item_value i = value
          /\ List.map Row.value db1 = List.map Row.value db0 ++ [value]).
Proof.
  intros H db0. split; [apply run_unique, H|]. split.
  - intros db1 b Hc.
    destruct (create_string_cases db0 data now)
      as [[_ Hno]|(value & p & i & Hv & Hf & Ha & Hi & _)].
    + rewrite Hc in Hno. destruct (Hno b). reflexivity.
    + rewrite Hc in Hi. cbn [fst] in Hi.
      unfold create_string. rewrite Hf, Hv, Ha.
      erewrite insert_again; [reflexivity|exact Hi|reflexivity].
  - intros value -> Hs Hv Hid.
    unfold create_string. cbn [falsy value_of dict_find].
    rewrite str_eqb_refl, (analyze_string_ok _ Hs). cbn [Properties.sha256_hash].
    unfold insert. cbn [Row.id Row.value].
    destruct (existsb _ db0) eqn:E.
    + apply existsb_exists in E. destruct E as (x & Hx & E).
      apply orb_true_iff in E. destruct E as [E|E]; apply str_eqb_eq in E.
      * destruct Hid. rewrite <- E. apply in_map, Hx.
      * destruct Hv. rewrite <- E. apply in_map, Hx.
    + do 2 eexists. split; [reflexivity|]. split; [reflexivity|].
      rewrite map_app. reflexivity.
Qed.

Lemma filter_twice {A} (p : A -> bool) (l : list A) :
  filter p (filter p l) = filter p l.
Proof.
  induction l as [|x l IH]; simpl; [reflexivity|].
  destruct (p x) eqn:E; simpl; [rewrite E, IH|]; auto.
Qed.

Lemma select_after_delete (db : table) (value : str) :
  select_by_value (fst (delete_by_value db value)) value = [].
Proof.
  unfold select_by_value, delete_by_value. cbn [fst].
  induction db as [|x db IH]; simpl; [reflexivity|].
  destruct (str_eqb (Row.value x) value) eqn:E; simpl; [|rewrite E]; exact IH.
Qed.

Lemma select_absent (db : table) (value : str) :
  ~ In value (List.map Row.value db) -> select_by_value db value = [].
Proof.
  unfold select_by_value. induction db as [|x db IH]; simpl; [reflexivity|].
  intros H. destruct (str_eqb (Row.value x) value) eqn:E.
  - apply str_eqb_eq in E. tauto.
  - apply IH. tauto.
Qed.

Lemma delete_nothing (db : table) (value : str) :
  select_by_value db value = [] ->
  delete_string db value
  = (db, Response (Error "String does not exist in the system") 404).
Proof.
  intros H. unfold delete_string, delete_by_value. rewrite H. cbn.
  f_equal. unfold select_by_value in H.
  induction db as [|x db IH]; simpl in *; [reflexivity|].
  destruct (str_eqb (Row.value x) value); simpl; [discriminate|].
  rewrite IH by exact H. reflexivity.
Qed.

Lemma delete_string_table (db : table) (value : str) :
  fst (delete_string db value) = fst (delete_by_value db value).
Proof.
  unfold delete_string. destruct (delete_by_value db value) as [db' n].
  destruct (Z.eqb n 0); reflexivity.
Qed.

(** C9.  Deleting a value that is not in the table answers not-found and
    leaves the table as it is.  After a first delete request for a value,
    whether it removed a record or not, every further delete request for
    that value answers not-found and removes nothing. *)
Theorem delete_absent_not_found (db : table) (value : str) :
  (~ In value (List.map Row.value db) ->
   delete_string db value
   = (db, Response (Error "String does not exist in the system") 404))
  /\ (forall db1,
        delete_string db value = (db1, Response Empty 204) ->
        delete_string db1 value
        = (db1, Response (Error "String does not exist in the system") 404))
  /\ (forall n,
        let db1 := fst (delete_string db value) in
        delete_string (Nat.iter n (fun d => fst (delete_string d value)) db1) value
        = (db1, Response (Error "String does not exist in the system") 404)).
Proof.
  assert (Hafter : delete_string (fst (delete_string db value)) value
                   = (fst (delete_string db value),
                      Response (Error "String does not exist in the system") 404)).
  { apply delete_nothing. rewrite delete_string_table. apply select_after_delete. }
  split; [|split].
  - intros H. apply delete_nothing, select_absent, H.
  - intros db1 H. rewrite H in Hafter. exact Hafter.
  - intros n. cbv zeta. induction n as [|n IH].
    + exact Hafter.
    + rewrite Nat.iter_succ, IH. cbn [fst]. exact Hafter.
Qed.
End HandlerFacts.

(** ** Escapes: what [repr] writes, the literal reads back *)

Lemma hex_value_digit (d : N) : (d < 16)%N -> hex_value (hex_digit d) = Some d.
Proof.
  intros H. unfold hex_digit, hex_value.
  destruct (N.ltb_spec d 10).
  - replace (N.leb 48 (48 + d)) with true by (symmetry; apply N.leb_le; lia).
    replace (N.leb (48 + d) 57) with true by (symmetry; apply N.leb_le; lia).
    cbn [andb]. f_equal. lia.
  - replace (N.leb (87 + d) 57) with false by (symmetry; apply N.leb_gt; lia).
    rewrite andb_false_r.
    replace (N.leb 97 (87 + d)) with true by (symmetry; apply N.leb_le; lia).
    replace (N.leb (87 + d) 102) with true by (symmetry; apply N.leb_le; lia).
    cbn [andb]. f_equal. lia.
Qed.

Lemma mod16 (n : N) : (n mod 16 < 16)%N.
Proof. apply N.mod_lt. discriminate. Qed.

Lemma hex_number_step (acc d : N) (ds : str) :
  (d < 16)%N -> hex_number acc (hex_digit d :: ds) = hex_number (16 * acc + d) ds.
Proof. intros H. cbn [hex_number]. rewrite (hex_value_digit d H). reflexivity. Qed.

Lemma hex2_value (c : char) : (c < 256)%N -> hex_number 0 (hex2 c) = Some c.
Proof.
  intros H. unfold hex2.
  rewrite !hex_number_step; [|apply mod16|apply N.Div0.div_lt_upper_bound; lia].
  cbn [hex_number]. f_equal.
  pose proof (N.div_mod c 16). lia.
Qed.

Lemma hex4_value (c : char) : (c < 65536)%N -> hex_number 0 (hex4 c) = Some c.
Proof.
  intros H. unfold hex4.
  rewrite !hex_number_step;
    [|apply mod16|apply mod16|apply mod16|apply N.Div0.div_lt_upper_bound; lia].
  cbn [hex_number]. f_equal.
  pose proof (N.div_mod c 16). pose proof (N.div_mod (c / 16) 16).
  pose proof (N.div_mod (c / 256) 16).
  assert (c / 256 = c / 16 / 16)%N by (rewrite N.Div0.div_div; reflexivity).
  assert (c / 4096 = c / 256 / 16)%N by (rewrite N.Div0.div_div; reflexivity).
  lia.
Qed.

Lemma hex8_value (c : char) : (c < 4294967296)%N -> hex_number 0 (hex8 c) = Some c.
Proof.
  intros H. unfold hex8.
  rewrite !hex_number_step; try apply mod16;
    [|apply N.Div0.div_lt_upper_bound; lia].
  cbn [hex_number]. f_equal.
  pose proof (N.div_mod c 16). pose proof (N.div_mod (c / 16) 16).
  pose proof (N.div_mod (c / 256) 16). pose proof (N.div_mod (c / 4096) 16).
  pose proof (N.div_mod (c / 65536) 16). pose proof (N.div_mod (c / 1048576) 16).
  pose proof (N.div_mod (c / 16777216) 16).
  assert (c / 256 = c / 16 / 16)%N by (rewrite N.Div0.div_div; reflexivity).
  assert (c / 4096 = c / 256 / 16)%N by (rewrite N.Div0.div_div; reflexivity).
  assert (c / 65536 = c / 4096 / 16)%N by (rewrite N.Div0.div_div; reflexivity).
  assert (c / 1048576 = c / 65536 / 16)%N by (rewrite N.Div0.div_div; reflexivity).
  assert (c / 16777216 = c / 1048576 / 16)%N by (rewrite N.Div0.div_div; reflexivity).
  assert (c / 268435456 = c / 16777216 / 16)%N by (rewrite N.Div0.div_div; reflexivity).
  lia.
Qed.

Lemma eqb_neq (a b : N) : a <> b -> N.eqb a b = false.
Proof. apply N.eqb_neq. Qed.

Lemma sb_raw (q c : char) (t : str) :
  c <> q -> c <> 92%N -> literal_char c = true ->
  string_body q (c :: t) = cons_text c (string_body q t).
Proof.
  intros H1 H2 H3. cbn [string_body]. rewrite (eqb_neq _ _ H1), (eqb_neq _ _ H2), H3.
  reflexivity.
Qed.

Lemma sb_simple (q e c : char) (t : str) :
  q <> 92%N -> e <> 120%N -> e <> 117%N -> e <> 85%N -> simple_escape e = Some c ->
  string_body q (92%N :: e :: t) = cons_text c (string_body q t).
Proof.
  intros Hq H1 H2 H3 He. cbn [string_body].
  rewrite (eqb_neq 92 q) by congruence.
  rewrite N.eqb_refl, (eqb_neq _ _ H1), (eqb_neq _ _ H2), (eqb_neq _ _ H3), He.
  reflexivity.
Qed.

Lemma sb_x (q : char) (digits t : str) (c : char) :
  q <> 92%N -> List.length digits = 2%nat ->
  hex_number 0 digits = Some c -> (c < 0x110000)%N ->
  string_body q (u "\x" ++ digits ++ t) = cons_text c (string_body q t).
Proof.
  intros Hq Hl Hv Hc.
  destruct digits as [|h1 [|h2 [|]]]; try discriminate.
  cbn [u list_ascii_of_string List.map app string_body].
  change (chr "\") with 92%N. change (chr "x") with 120%N.
  rewrite (eqb_neq 92 q) by congruence.
  rewrite !N.eqb_refl. unfold escaped. rewrite Hv, (proj2 (N.ltb_lt _ _) Hc).
  reflexivity.
Qed.

Lemma sb_u (q : char) (digits t : str) (c : char) :
  q <> 92%N -> List.length digits = 4%nat ->
  hex_number 0 digits = Some c -> (c < 0x110000)%N ->
  string_body q (u "\u" ++ digits ++ t) = cons_text c (string_body q t).
Proof.
  intros Hq Hl Hv Hc.
  destruct digits as [|h1 [|h2 [|h3 [|h4 [|]]]]]; try discriminate.
  cbn [u list_ascii_of_string List.map app string_body].
  change (chr "\") with 92%N. change (chr "u") with 117%N.
  rewrite (eqb_neq 92 q) by congruence.
  rewrite !N.eqb_refl. change (N.eqb 117 120) with false. cbv iota.
  unfold escaped. rewrite Hv, (proj2 (N.ltb_lt _ _) Hc).
  reflexivity.
Qed.

Lemma sb_U (q : char) (digits t : str) (c : char) :
  q <> 92%N -> List.length digits = 8%nat ->
  hex_number 0 digits = Some c -> (c < 0x110000)%N ->
  string_body q (u "\U" ++ digits ++ t) = cons_text c (string_body q t).
Proof.
  intros Hq Hl Hv Hc.
  destruct digits as [|h1 [|h2 [|h3 [|h4 [|h5 [|h6 [|h7 [|h8 [|]]]]]]]]];
    try discriminate.
  cbn [u list_ascii_of_string List.map app string_body].
  change (chr "\") with 92%N. change (chr "U") with 85%N.
  rewrite (eqb_neq 92 q) by congruence.
  rewrite !N.eqb_refl. change (N.eqb 85 120) with false.
  change (N.eqb 85 117) with false. cbv iota.
  unfold escaped. rewrite Hv, (proj2 (N.ltb_lt _ _) Hc).
  reflexivity.
Qed.

Lemma is_scalar_bound (c : char) : is_scalar c = true -> (c < 0x110000)%N.
Proof.
  unfold is_scalar. intros H. apply andb_true_iff in H. destruct H as [H _].
  apply N.ltb_lt, H.
Qed.

Section ReprFacts.
Context {R : Runtime}.

(** Reading back one character as [repr] writes it. *)
Lemma string_body_repr_char (q c : char) (t : str) :
  q = 39%N \/ q = 34%N -> is_scalar c = true ->
  string_body q (repr_char q c ++ t) = cons_text c (string_body q t).
Proof.
  intros Hq Hs. pose proof (is_scalar_bound c Hs) as Hb.
  assert (Hq92 : q <> 92%N) by (destruct Hq; subst; discriminate).
  unfold repr_char.
  destruct (N.eqb_spec c q) as [->|Hcq].
  { cbn [orb app]. apply sb_simple; try (destruct Hq; subst; discriminate).
    destruct Hq; subst; reflexivity. }
  destruct (N.eqb_spec c 92) as [->|Hc92].
  { cbn [orb app]. apply sb_simple; try discriminate; auto. }
  cbn [orb].
  destruct (N.eqb_spec c 9) as [->|H9]; [apply sb_simple; try discriminate; auto|].
  destruct (N.eqb_spec c 10) as [->|H10]; [apply sb_simple; try discriminate; auto|].
  destruct (N.eqb_spec c 13) as [->|H13]; [apply sb_simple; try discriminate; auto|].
  assert (Hraw : (32 <= c)%N -> string_body q ([c] ++ t) = cons_text c (string_body q t)).
  { intros H32. apply sb_raw; auto. unfold literal_char.
    rewrite Hs, !eqb_neq by lia. reflexivity. }
  destruct (N.ltb_spec c 32) as [H32|H32].
  { cbn [orb]. rewrite <- app_assoc.
    apply sb_x; auto. apply hex2_value. lia. }
  destruct (N.eqb_spec c 127) as [->|H127].
  { cbn [orb]. rewrite <- app_assoc. apply sb_x; auto. }
  cbn [orb].
  destruct (N.ltb_spec c 127); [apply Hraw, H32|].
  destruct (isprintable c); [apply Hraw, H32|].
  destruct (N.leb_spec c 255).
  { rewrite <- app_assoc. apply sb_x; auto. apply hex2_value. lia. }
  destruct (N.leb_spec c 65535).
  { rewrite <- app_assoc. apply sb_u; auto. apply hex4_value. lia. }
  rewrite <- app_assoc. apply sb_U; auto. apply hex8_value. lia.
Qed.

Lemma string_body_repr (q : char) (s rest : str) :
  q = 39%N \/ q = 34%N -> forallb is_scalar s = true ->
  string_body q (flat_map (repr_char q) s ++ q :: rest) = Some (s, rest).
Proof.
  intros Hq. induction s as [|c s IH]; intros Hs.
  - cbn [flat_map app string_body]. rewrite N.eqb_refl. reflexivity.
  - cbn [forallb] in Hs. apply andb_true_iff in Hs. destruct Hs as [Hc Hs].
    cbn [flat_map]. rewrite <- app_assoc, (string_body_repr_char q c _ Hq Hc).
    rewrite (IH Hs). reflexivity.
Qed.

(** What [repr] writes for a character never begins with the quote. *)
Lemma repr_char_head (q c : char) :
  q = 39%N \/ q = 34%N ->
  exists h t, repr_char q c = h :: t /\ h <> q.
Proof.
  intros Hq.
  assert (Hq92 : 92%N <> q) by (destruct Hq; subst; discriminate).
  unfold repr_char.
  repeat match goal with
         | |- context [if ?b then _ else _] => destruct b eqn:?
         end;
    try (do 2 eexists; split; [reflexivity|exact Hq92]).
  all: do 2 eexists; (split; [reflexivity|]).
  all: intros ->; rewrite N.eqb_refl in *; discriminate.
Qed.
End ReprFacts.

(** ** Numbers: what [repr] writes, the literal reads back *)

Lemma take_digits_run (ds rest : str) :
  forallb ascii_digit ds = true ->
  match rest with c :: _ => ascii_digit c = false | [] => True end ->
  take_digits (ds ++ rest) = (ds, rest).
Proof.
  intros H Hrest. induction ds as [|c ds IH]; cbn [app].
  - destruct rest as [|c rest]; [reflexivity|]. cbn [take_digits]. rewrite Hrest.
    reflexivity.
  - cbn [forallb] in H. apply andb_true_iff in H. destruct H as [Hc H].
    cbn [take_digits]. rewrite Hc, (IH H). reflexivity.
Qed.

Lemma numeral_no_leading_zero (n : N) (c : char) (ds : str) :
  numeral n <> 48%N :: c :: ds.
Proof.
  unfold numeral. intros E.
  pose proof (DecimalN.Unsigned.to_of (N.to_uint n)) as Hn.
  rewrite DecimalN.Unsigned.of_to in Hn.
  destruct (N.to_uint n) as [|d| | | | | | | | |]; try discriminate.
  destruct d as [|d|d|d|d|d|d|d|d|d|d]; [discriminate|..];
    rewrite DecimalFacts.unorm_D0 in Hn; unfold Decimal.unorm in Hn;
    match type of Hn with
    | _ = match Decimal.nzhead ?x with _ => _ end =>
        pose proof (DecimalFacts.nzhead_nonzero x) as Hz;
        destruct (Decimal.nzhead x) eqn:Ez
    end; try discriminate; eapply Hz; symmetry; exact Hn.
Qed.

Lemma number_value_numeral (n : N) : number_value (numeral n) = Some n.
Proof.
  unfold number_value.
  pose proof (numeral_no_leading_zero n) as H.
  pose proof (decimal_value_numeral n) as Hv.
  destruct (numeral n) as [|c [|c' ds]]; try (rewrite Hv; reflexivity).
  destruct (N.eqb_spec c 48) as [->|_]; [|rewrite Hv; reflexivity].
  destruct (H c' ds). reflexivity.
Qed.

(** ** Tokens *)

Lemma cons_text_inv (c : char) (r : option (str * str)) (text rest : str) :
  cons_text c r = Some (text, rest) -> exists text', r = Some (text', rest).
Proof.
  destruct r as [[text' rest']|]; [|discriminate].
  intros H; inversion H; subst. eauto.
Qed.

Lemma escaped_inv (digits : str) (r : option (str * str)) (text rest : str) :
  escaped digits r = Some (text, rest) -> exists text', r = Some (text', rest).
Proof.
  unfold escaped. destruct (hex_number 0 digits); [|discriminate].
  destruct (N.ltb _ _); [|discriminate]. apply cons_text_inv.
Qed.

Lemma string_body_length (q : char) (n : nat) :
  forall s text rest,
  (List.length s <= n)%nat ->
  string_body q s = Some (text, rest) -> (List.length rest <= List.length s)%nat.
Proof.
  induction n as [|n IH]; intros s text rest Hn H.
  - destruct s; [discriminate|simpl in Hn; lia].
  - destruct s as [|c s1]; [discriminate|]. cbn [string_body] in H.
    cbn [List.length] in *.
    destruct (N.eqb c q).
    { inversion H; subst. lia. }
    destruct (N.eqb c 92).
    + destruct s1 as [|e s2]; [discriminate|]. cbn [List.length] in *.
      destruct (N.eqb e 120).
      { destruct s2 as [|h1 [|h2 s3]]; try discriminate.
        apply escaped_inv in H. destruct H as (text' & H).
        apply IH in H; cbn [List.length] in *; lia. }
      destruct (N.eqb e 117).
      { destruct s2 as [|h1 [|h2 [|h3 [|h4 s3]]]]; try discriminate.
        apply escaped_inv in H. destruct H as (text' & H).
        apply IH in H; cbn [List.length] in *; lia. }
      destruct (N.eqb e 85).
      { destruct s2 as [|h1 [|h2 [|h3 [|h4 [|h5 [|h6 [|h7 [|h8 s3]]]]]]]];
          try discriminate.
        apply escaped_inv in H. destruct H as (text' & H).
        apply IH in H; cbn [List.length] in *; lia. }
      destruct (simple_escape e); [|discriminate].
      apply cons_text_inv in H. destruct H as (text' & H).
      apply IH in H; lia.
    + destruct (literal_char c); [|discriminate].
      apply cons_text_inv in H. destruct H as (text' & H).
      apply IH in H; lia.
Qed.

Lemma take_digits_length (s : str) :
  (List.length (snd (take_digits s)) <= List.length s)%nat.
Proof.
  induction s as [|c s IH]; cbn [take_digits]; [simpl; lia|].
  destruct (ascii_digit c); [|simpl; lia].
  destruct (take_digits s) as [ds rest]. cbn [snd List.length] in *. lia.
Qed.

Lemma take_digits_digit_length (c : char) (s : str) :
  ascii_digit c = true ->
  (List.length (snd (take_digits (c :: s))) <= List.length s)%nat.
Proof.
  intros H. cbn [take_digits]. rewrite H.
  pose proof (take_digits_length s) as Hl.
  destruct (take_digits s) as [ds rest]. exact Hl.
Qed.

Lemma option_map_tokens (t : token) (a b : option (list token)) (ts : list token) :
  (forall ts', a = Some ts' -> b = Some ts') ->
  option_map (cons t) a = Some ts -> option_map (cons t) b = Some ts.
Proof.
  intros H. destruct a as [ts'|]; [|discriminate].
  rewrite (H ts' eq_refl). auto.
Qed.

(** More fuel does not change the tokens. *)
Lemma tokens_mono (fuel : nat) :
  forall s ts, tokens fuel s = Some ts ->
  forall fuel', (fuel <= fuel')%nat -> tokens fuel' s = Some ts.
Proof.
  induction fuel as [|f IH]; intros s ts H fuel' Hle; [discriminate|].
  destruct fuel' as [|f']; [lia|].
  assert (Hf : forall x ts', tokens f x = Some ts' -> tokens f' x = Some ts').
  { intros x ts' Hx. apply (IH x ts' Hx). lia. }
  cbn [tokens] in *. destruct s as [|c s']; [exact H|].
  destruct (N.eqb c 32); [apply Hf, H|].
  destruct (N.eqb c 123); [revert H; apply option_map_tokens, Hf|].
  destruct (N.eqb c 125); [revert H; apply option_map_tokens, Hf|].
  destruct (N.eqb c 58); [revert H; apply option_map_tokens, Hf|].
  destruct (N.eqb c 44); [revert H; apply option_map_tokens, Hf|].
  destruct (N.eqb c 39 || N.eqb c 34).
  { destruct (starts_with [c; c] s'); [discriminate|].
    destruct (string_body c s') as [[text rest]|]; [|discriminate].
    revert H; apply option_map_tokens, Hf. }
  destruct (ascii_digit c); [|discriminate].
  destruct (take_digits (c :: s')) as [ds rest].
  destruct (number_value ds); [|discriminate].
  revert H; apply option_map_tokens, Hf.
Qed.

(** The fuel [eval_dict] gives is enough for every text. *)
Lemma tokens_fuel (fuel : nat) :
  forall s ts, tokens fuel s = Some ts -> tokens (S (List.length s)) s = Some ts.
Proof.
  induction fuel as [|f IH]; intros s ts H; [discriminate|].
  destruct s as [|c s']; [exact H|].
  assert (Hf : forall x ts', (List.length x <= List.length s')%nat ->
                 tokens f x = Some ts' -> tokens (List.length (c :: s')) x = Some ts').
  { intros x ts' Hl Hx. apply (tokens_mono _ _ _ (IH x ts' Hx)). simpl. lia. }
  cbn [tokens] in *.
  destruct (N.eqb c 32); [apply Hf; auto|].
  destruct (N.eqb c 123); [revert H; apply option_map_tokens; intros; apply Hf; auto|].
  destruct (N.eqb c 125); [revert H; apply option_map_tokens; intros; apply Hf; auto|].
  destruct (N.eqb c 58); [revert H; apply option_map_tokens; intros; apply Hf; auto|].
  destruct (N.eqb c 44); [revert H; apply option_map_tokens; intros; apply Hf; auto|].
  destruct (N.eqb c 39 || N.eqb c 34).
  { destruct (starts_with [c; c] s'); [discriminate|].
    destruct (string_body c s') as [[text rest]|] eqn:Eb; [|discriminate].
    revert H; apply option_map_tokens; intros; apply Hf; auto.
    eapply string_body_length; [apply Nat.le_refl|exact Eb]. }
  destruct (ascii_digit c) eqn:Ed; [|discriminate].
  pose proof (take_digits_digit_length c s' Ed) as Hl.
  destruct (take_digits (c :: s')) as [ds rest].
  destruct (number_value ds); [|discriminate].
  revert H; apply option_map_tokens; intros; apply Hf; auto.
Qed.

Lemma tokens_string (q : char) (s text rest : str) (fuel : nat) :
  q = 39%N \/ q = 34%N ->
  starts_with [q; q] s = None ->
  string_body q s = Some (text, rest) ->
  tokens (S fuel) (q :: s) = option_map (cons (TString text)) (tokens fuel rest).
Proof.
  intros Hq Hs Hb. cbn [tokens]. rewrite Hs, Hb.
  destruct Hq as [-> | ->]; reflexivity.
Qed.

Lemma tokens_number (ds rest : str) (n : N) (fuel : nat) :
  ds <> [] -> forallb ascii_digit ds = true ->
  match rest with c :: _ => ascii_digit c = false | [] => True end ->
  number_value ds = Some n ->
  tokens (S fuel) (ds ++ rest) = option_map (cons (TNumber n)) (tokens fuel rest).
Proof.
  intros Hne Hd Hrest Hn.
  pose proof (take_digits_run ds rest Hd Hrest) as Ht.
  destruct ds as [|c ds]; [destruct Hne; reflexivity|].
  cbn [forallb] in Hd. apply andb_true_iff in Hd. destruct Hd as [Hc _].
  cbn [app] in *. cbn [tokens]. rewrite Ht, Hn, Hc.
  unfold ascii_digit in Hc. apply andb_true_iff in Hc. destruct Hc as [H1 H2].
  apply N.leb_le in H1, H2.
  rewrite !eqb_neq by lia. reflexivity.
Qed.

Section EvalFacts.
Context {R : Runtime}.

Lemma repr_quote_cases (s : str) : repr_quote s = 39%N \/ repr_quote s = 34%N.
Proof. unfold repr_quote. destruct (_ && _); auto. Qed.

Lemma no_triple_quote (q : char) (s rest : str) :
  q = 39%N \/ q = 34%N ->
  match rest with c :: _ => c <> q | [] => True end ->
  starts_with [q; q] (flat_map (repr_char q) s ++ q :: rest) = None.
Proof.
  intros Hq Hrest. destruct s as [|c s]; cbn [flat_map app].
  - cbn [starts_with]. rewrite N.eqb_refl.
    destruct rest as [|c rest]; [reflexivity|]. rewrite eqb_neq by congruence.
    reflexivity.
  - destruct (repr_char_head q c Hq) as (h & t & -> & Hh).
    cbn [app starts_with]. rewrite eqb_neq by congruence. reflexivity.
Qed.

Lemma repr_int_numeral (v : Z) : (0 <= v)%Z -> repr_int v = numeral (Z.to_N v).
Proof.
  intros H. unfold repr_int. rewrite (proj2 (Z.ltb_ge v 0) H). reflexivity.
Qed.

(** The tokens of one item, followed by what is not a digit. *)
Lemma tokens_item (kv : str * Z) (rest : str) (fuel : nat) :
  plain_item kv = true ->
  match rest with c :: _ => ascii_digit c = false | [] => True end ->
  tokens (4 + fuel) (repr_item kv ++ rest)
  = option_map (app (item_tokens kv)) (tokens fuel rest).
Proof.
  intros Hp Hrest. destruct kv as [k v]. unfold plain_item in Hp. cbn [fst snd] in Hp.
  apply andb_true_iff in Hp. destruct Hp as [Hk Hv]. apply Z.leb_le in Hv.
  unfold repr_item, repr_str, item_tokens. cbn [fst snd].
  rewrite (repr_int_numeral v Hv).
  pose proof (repr_quote_cases k) as Hq.
  set (q := repr_quote k) in *.
  change (4 + fuel)%nat with (S (S (S (S fuel)))).
  cbn [app]. rewrite <- !app_assoc. cbn [app].
  change (u ": ") with [58%N; 32%N]. cbn [app].
  rewrite (tokens_string q _ k (58%N :: 32%N :: numeral (Z.to_N v) ++ rest) _ Hq).
  - change (tokens (S (S (S fuel))) (58%N :: 32%N :: numeral (Z.to_N v) ++ rest))
      with (option_map (cons TColon) (tokens (S fuel) (numeral (Z.to_N v) ++ rest))).
    rewrite (tokens_number _ rest (Z.to_N v) fuel (numeral_not_nil _)
               (numeral_digits _) Hrest (number_value_numeral _)).
    destruct (tokens fuel rest); reflexivity.
  - apply no_triple_quote; [exact Hq|]. destruct Hq as [-> | ->]; discriminate.
  - apply string_body_repr; assumption.
Qed.

Lemma tokens_items (d : dict Z) :
  forallb plain_item d = true ->
  exists fuel,
    tokens fuel (join (u ", ") (List.map repr_item d) ++ u "}")
    = Some (items_tokens d ++ [TRBrace]).
Proof.
  induction d as [|kv d IH]; intros H.
  - exists 2%nat. reflexivity.
  - cbn [forallb] in H. apply andb_true_iff in H. destruct H as [Hkv H].
    destruct d as [|kv' d].
    + exists (4 + 2)%nat. cbn [List.map join items_tokens].
      rewrite (tokens_item kv _ _ Hkv) by reflexivity. reflexivity.
    + destruct (IH H) as (fuel & Hfuel).
      exists (4 + (2 + fuel))%nat.
      change (join (u ", ") (List.map repr_item (kv :: kv' :: d)))
        with (repr_item kv ++ u ", " ++ join (u ", ") (List.map repr_item (kv' :: d))).
      rewrite <- !app_assoc.
      rewrite (tokens_item kv _ _ Hkv) by reflexivity.
      change (tokens (2 + fuel)
                (u ", " ++ join (u ", ") (List.map repr_item (kv' :: d)) ++ u "}"))
        with (option_map (cons TComma)
                (tokens fuel (join (u ", ") (List.map repr_item (kv' :: d)) ++ u "}"))).
      rewrite Hfuel. reflexivity.
Qed.

Lemma display_items_tokens (d : dict Z) (acc : dict Z) :
  display_items (items_tokens d ++ [TRBrace]) acc = Some (fold_left set_item d acc).
Proof.
  revert acc. induction d as [|kv d IH]; intros acc; [reflexivity|].
  destruct d as [|kv' d]; [reflexivity|].
  change (items_tokens (kv :: kv' :: d))
    with (item_tokens kv ++ TComma :: items_tokens (kv' :: d)).
  unfold item_tokens at 1. cbn [app display_items]. rewrite IH. reflexivity.
Qed.
End EvalFacts.

(** ** Dictionaries built key by key *)

Lemma dict_find_none {V} (d : dict V) (k : str) :
  dict_find d k = None <-> ~ In k (dict_keys d).
Proof.
  induction d as [|[k' v'] d IH]; cbn [dict_find dict_keys List.map fst In].
  - tauto.
  - destruct (str_eqb k' k) eqn:E.
    + apply str_eqb_eq in E. split; [discriminate|tauto].
    + apply str_eqb_neq in E. unfold dict_keys in IH. rewrite IH. tauto.
Qed.

Lemma dict_set_fresh {V} (d : dict V) (k : str) (v : V) :
  dict_find d k = None -> dict_set d k v = d ++ [(k, v)].
Proof.
  induction d as [|[k' v'] d IH]; cbn [dict_find dict_set app]; [reflexivity|].
  destruct (str_eqb k' k); [discriminate|]. intros H. rewrite (IH H). reflexivity.
Qed.

Lemma dict_set_keys {V} (d : dict V) (k : str) (v : V) :
  dict_keys (dict_set d k v)
  = match dict_find d k with
    | Some _ => dict_keys d
    | None => dict_keys d ++ [k]
    end.
Proof.
  induction d as [|[k' v'] d IH]; cbn [dict_find dict_set dict_keys List.map fst app];
    [reflexivity|].
  destruct (str_eqb k' k); [reflexivity|].
  cbn [List.map fst]. unfold dict_keys in IH. rewrite IH.
  destruct (dict_find d k); reflexivity.
Qed.

Lemma dict_set_NoDup {V} (d : dict V) (k : str) (v : V) :
  NoDup (dict_keys d) -> NoDup (dict_keys (dict_set d k v)).
Proof.
  intros H. rewrite dict_set_keys.
  destruct (dict_find d k) eqn:E; [exact H|].
  apply dict_find_none in E.
  apply NoDup_app; [exact H|repeat constructor; intros []|].
  intros x Hx [<-|[]]. exact (E Hx).
Qed.

Lemma dict_set_plain (d : dict Z) (k : str) (v : Z) :
  forallb plain_item d = true -> plain_item (k, v) = true ->
  forallb plain_item (dict_set d k v) = true.
Proof.
  intros H Hkv. induction d as [|[k' v'] d IH]; cbn [dict_set forallb].
  - rewrite Hkv. reflexivity.
  - cbn [forallb] in H. apply andb_true_iff in H. destruct H as [H1 H2].
    destruct (str_eqb k' k) eqn:E; cbn [forallb].
    + apply str_eqb_eq in E. subst. rewrite Hkv, H2. reflexivity.
    + rewrite H1, (IH H2). reflexivity.
Qed.

Lemma dict_get_nonneg (d : dict Z) (k : str) :
  forallb plain_item d = true -> (0 <= dict_get d k 0)%Z.
Proof.
  unfold dict_get. induction d as [|[k' v'] d IH]; cbn [dict_find forallb]; [lia|].
  intros H. apply andb_true_iff in H. destruct H as [H1 H2].
  destruct (str_eqb k' k); [|exact (IH H2)].
  unfold plain_item in H1. apply andb_true_iff in H1. destruct H1 as [_ H1].
  apply Z.leb_le, H1.
Qed.

Lemma fold_set_items (d acc : dict Z) :
  NoDup (dict_keys (acc ++ d)) -> forallb plain_item d = true ->
  fold_left set_item d acc = acc ++ d.
Proof.
  revert acc. induction d as [|[k v] d IH]; intros acc Hn Hp; cbn [fold_left].
  - symmetry. apply List.app_nil_r.
  - cbn [forallb] in Hp. apply andb_true_iff in Hp. destruct Hp as [Hkv Hp].
    unfold set_item at 2. cbn [fst snd].
    unfold plain_item in Hkv. cbn [fst snd] in Hkv.
    apply andb_true_iff in Hkv. destruct Hkv as [_ Hv]. apply Z.leb_le in Hv.
    rewrite Z2N.id by exact Hv.
    rewrite dict_set_fresh.
    + rewrite IH; [rewrite <- app_assoc; reflexivity| |exact Hp].
      rewrite <- app_assoc. exact Hn.
    + apply dict_find_none. unfold dict_keys in *. rewrite map_app in Hn.
      cbn [List.map fst] in Hn. apply NoDup_remove_2 in Hn.
      intros Hin. apply Hn, in_or_app. left. exact Hin.
Qed.

Section RoundTrip.
Context {R : Runtime}.

(** What [str] writes of a dict with distinct encodable keys and counts that
    are not negative, [eval] reads back as that dict. *)
Theorem eval_dict_str_dict (d : dict Z) :
  NoDup (dict_keys d) -> forallb plain_item d = true ->
  eval_dict (str_dict d) = Some d.
Proof.
  intros Hn Hp. unfold eval_dict.
  destruct (tokens_items d Hp) as (fuel & Hfuel).
  assert (Ht : tokens (S fuel) (str_dict d)
               = Some (TLBrace :: items_tokens d ++ [TRBrace])).
  { unfold str_dict. change (u "{") with [123%N]. cbn [app tokens].
    change (N.eqb 123 32) with false. change (N.eqb 123 123) with true. cbv iota.
    rewrite Hfuel. reflexivity. }
  rewrite (tokens_fuel _ _ _ Ht), display_items_tokens.
  rewrite (fold_set_items d [] Hn Hp). reflexivity.
Qed.

Lemma count_char_plain (d : dict Z) (c : char) :
  NoDup (dict_keys d) /\ forallb plain_item d = true ->
  is_scalar c = true ->
  NoDup (dict_keys (count_char d c)) /\ forallb plain_item (count_char d c) = true.
Proof.
  intros [Hn Hp] Hc. unfold count_char. split; [apply dict_set_NoDup, Hn|].
  apply dict_set_plain; [exact Hp|].
  unfold plain_item. cbn [fst snd forallb]. rewrite Hc.
  pose proof (dict_get_nonneg d [c] Hp).
  apply andb_true_iff. split; [reflexivity|]. apply Z.leb_le. lia.
Qed.

Lemma char_frequency_plain (value : str) :
  forallb is_scalar value = true ->
  NoDup (dict_keys (char_frequency value))
  /\ forallb plain_item (char_frequency value) = true.
Proof.
  unfold char_frequency.
  assert (H0 : NoDup (dict_keys (@nil (str * Z)))
               /\ forallb plain_item (@nil (str * Z)) = true)
    by (split; [constructor|reflexivity]).
  revert H0. generalize (@nil (str * Z)) as d.
  induction value as [|c value IH]; intros d Hd Hs; [exact Hd|].
  cbn [forallb] in Hs. apply andb_true_iff in Hs. destruct Hs as [Hc Hs].
  cbn [fold_left]. apply IH; [|exact Hs]. apply count_char_plain; assumption.
Qed.

(** ** Reading a record back *)

Lemma int_bool_int (b : bool) : int_bool (bool_int b) = b.
Proof. destruct b; reflexivity. Qed.

Lemma insert_select (db db' : table) (r : Row.t) :
  insert db r = Some db' -> select_by_value db' (Row.value r) = [r].
Proof.
  unfold insert. destruct (existsb _ db) eqn:E; [discriminate|].
  intros H; inversion H; subst.
  pose proof (select_absent db (Row.value r) (existsb_value_false db r E)) as Ha.
  unfold select_by_value in *. rewrite filter_app, Ha. cbn [filter app].
  rewrite str_eqb_refl. reflexivity.
Qed.

Lemma select_value (db : table) (value : str) (r : Row.t) :
  In r (select_by_value db value) -> Row.value r = value.
Proof.
  unfold select_by_value. intros H. apply filter_In in H. destruct H as [_ H].
  apply str_eqb_eq, H.
Qed.

Lemma filter_filter {A} (p q : A -> bool) (l : list A) :
  filter p (filter q l) = filter q (filter p l).
Proof.
  induction l as [|x l IH]; simpl; [reflexivity|].
  destruct (p x) eqn:Ep, (q x) eqn:Eq; simpl; rewrite ?Ep, ?Eq, IH; reflexivity.
Qed.

Lemma step_select (db : table) (req : request) (value : str) (r : Row.t) :
  select_by_value db value = [r] -> req <> Delete value ->
  select_by_value (step db req) value = [r].
Proof.
  intros Hs Hreq.
  assert (Hr : Row.value r = value)
    by (apply (select_value db); rewrite Hs; left; reflexivity).
  destruct req as [data now|value']; cbn [step].
  - destruct (create_string_cases db data now)
      as [[-> _]|(v & p & i & _ & _ & _ & Hi & _)]; [exact Hs|].
    revert Hi. generalize (fst (create_string db data now)) as db'.
    intros db' Hi. unfold insert in Hi.
    destruct (existsb _ db) eqn:E; [discriminate|]. inversion Hi; subst db'.
    unfold select_by_value in *. rewrite filter_app, Hs. cbn [filter Row.value].
    destruct (str_eqb v value) eqn:Ev; [|reflexivity].
    apply str_eqb_eq in Ev. subst v.
    apply existsb_value_false in E. cbn [Row.value] in E. destruct E.
    apply in_map_iff. exists r. split; [exact Hr|].
    assert (In r (filter (fun x => str_eqb (Row.value x) value) db))
      by (rewrite Hs; left; reflexivity).
    apply filter_In in H. tauto.
  - rewrite delete_string_table. unfold delete_by_value, select_by_value in *.
    cbn [fst]. rewrite filter_filter, Hs. cbn [filter].
    destruct (str_eqb (Row.value r) value') eqn:E; [|reflexivity].
    apply str_eqb_eq in E. destruct Hreq. congruence.
Qed.

Lemma run_select (reqs : list request) (db : table) (value : str) (r : Row.t) :
  select_by_value db value = [r] ->
  Forall (fun req => req <> Delete value) reqs ->
  select_by_value (run db reqs) value = [r].
Proof.
  revert db. induction reqs as [|req reqs IH]; intros db Hs Hf; [exact Hs|].
  inversion Hf; subst. cbn [run fold_left]. apply IH; [|assumption].
  apply step_select; assumption.
Qed.

(** C10.  When [create_string] accepts a value, the record it returns has
    the properties [analyze_string] computed; the text [str] wrote of its
    frequency map is read back by [eval] as that map; and [get_string] for
    the value, then or after any further requests that do not delete it,
    returns that same record, so the same map. *)
Theorem frequency_map_round_trip (db db1 : table) (data : json) (now : str)
    (i : item) (reqs : list request) :
  create_string db data now = (db1, Response (Item i) 201) ->
  Forall (fun req => req <> Delete (item_value i)) reqs ->
  analyze_string (item_value i) = Ok (item_properties i)
  /\ eval_dict (str_dict (Properties.character_frequency_map (item_properties i)))
     = Some (Properties.character_frequency_map (item_properties i))
  /\ get_string (run db1 reqs) (item_value i) = Response (Item i) 200.
Proof.
  intros Hc Hreqs.
  destruct (create_string_cases db data now)
    as [[_ Hno]|(value & p & i0 & _ & _ & Ha & Hi & Hresp & ->)].
  { rewrite Hc in Hno. destruct (Hno (Item i)). reflexivity. }
  rewrite Hc in Hi, Hresp. cbn [fst snd] in Hi, Hresp.
  inversion Hresp; subst i. cbn [item_value item_properties] in *.
  destruct (analyze_string_inv value p Ha) as [Hs Hp].
  destruct (char_frequency_plain value Hs) as [Hn Hpl].
  assert (He : eval_dict (str_dict (Properties.character_frequency_map p))
               = Some (Properties.character_frequency_map p)).
  { rewrite Hp. cbn [Properties.character_frequency_map].
    apply eval_dict_str_dict; assumption. }
  split; [exact Ha|]. split; [exact He|].
  unfold get_string.
  apply insert_select in Hi. cbn [Row.value] in Hi.
  rewrite (run_select reqs db1 value _ Hi Hreqs).
  unfold row_item. cbn [Row.character_frequency_map]. rewrite He.
  cbn [Row.id Row.value Row.length Row.is_palindrome Row.unique_characters
       Row.word_count Row.sha256_hash Row.created_at].
  rewrite int_bool_int. destruct p; reflexivity.
Qed.
End RoundTrip.

(** ** The frequency map, entry by entry *)

Lemma dict_find_set_same {V} (d : dict V) (k : str) (v : V) :
  dict_find (dict_set d k v) k = Some v.
Proof.
  induction d as [|[k' v'] d IH]; cbn [dict_set dict_find].
  - rewrite str_eqb_refl. reflexivity.
  - destruct (str_eqb k' k) eqn:E; cbn [dict_find]; rewrite E; auto.
Qed.

Lemma dict_find_set_other {V} (d : dict V) (k k' : str) (v : V) :
  k <> k' -> dict_find (dict_set d k v) k' = dict_find d k'.
Proof.
  intros Hk. induction d as [|[k0 v0] d IH]; cbn [dict_set dict_find].
  - rewrite (proj2 (str_eqb_neq k k') Hk). reflexivity.
  - destruct (str_eqb k0 k) eqn:E; cbn [dict_find].
    + apply str_eqb_eq in E. subst k0.
      rewrite (proj2 (str_eqb_neq k k') Hk). reflexivity.
    + rewrite IH. reflexivity.
Qed.

Section FrequencyFacts.
Context {R : Runtime}.

Lemma count_char_get (d : dict Z) (c c' : char) :
  dict_get (count_char d c) [c'] 0%Z
  = (dict_get d [c'] 0 + (if N.eqb c c' then 1 else 0))%Z.
Proof.
  unfold count_char, dict_get. destruct (N.eqb_spec c c') as [->|Hc].
  - rewrite dict_find_set_same. reflexivity.
  - rewrite dict_find_set_other by congruence. lia.
Qed.

Lemma fold_count_char_get (s : str) (d : dict Z) (c : char) :
  dict_get (fold_left count_char s d) [c] 0%Z
  = (dict_get d [c] 0 + occurrences c s)%Z.
Proof.
  unfold occurrences. revert d. induction s as [|x s IH]; intros d; cbn [fold_left].
  - simpl. lia.
  - rewrite IH, count_char_get. cbn [count_occ].
    destruct (N.eq_dec x c) as [->|Hx].
    + rewrite N.eqb_refl. lia.
    + rewrite (proj2 (N.eqb_neq x c) Hx). lia.
Qed.

Lemma count_char_keys (d : dict Z) (c : char) (k : str) :
  In k (dict_keys (count_char d c)) <-> In k (dict_keys d) \/ k = [c].
Proof.
  unfold count_char. rewrite dict_set_keys.
  destruct (dict_find d [c]) eqn:E.
  - split; [tauto|]. intros [H| ->]; [exact H|].
    destruct (in_dec (list_eq_dec N.eq_dec) [c] (dict_keys d)) as [Hin|Hn]; [exact Hin|].
    apply dict_find_none in Hn. congruence.
  - rewrite in_app_iff. simpl. split; intros [H|H]; auto.
    destruct H as [<-|[]]. auto.
Qed.

Lemma fold_count_char_keys (s : str) (d : dict Z) (k : str) :
  In k (dict_keys (fold_left count_char s d))
  <-> In k (dict_keys d) \/ exists c, In c s /\ k = [c].
Proof.
  revert d. induction s as [|x s IH]; intros d; cbn [fold_left].
  - split; [tauto|]. intros [H|(c & [] & _)]. exact H.
  - rewrite IH, count_char_keys. split.
    + intros [[H| ->]|(c & Hc & ->)]; auto.
      * right. exists x. split; [left; reflexivity|reflexivity].
      * right. exists c. split; [right; exact Hc|reflexivity].
    + intros [H|(c & [<-|Hc] & ->)]; auto.
      right. exists c. auto.
Qed.

Lemma fold_count_char_NoDup (s : str) (d : dict Z) :
  NoDup (dict_keys d) -> NoDup (dict_keys (fold_left count_char s d)).
Proof.
  revert d. induction s as [|x s IH]; intros d H; cbn [fold_left]; [exact H|].
  apply IH. unfold count_char. apply dict_set_NoDup, H.
Qed.

Lemma nodup_length_le (s : str) :
  (List.length (nodup N.eq_dec s) <= List.length s)%nat.
Proof.
  induction s as [|x s IH]; cbn [nodup]; [simpl; lia|].
  destruct (in_dec N.eq_dec x s); cbn [List.length]; lia.
Qed.

Lemma singleton_inj (a b : char) : [a] = [b] -> a = b.
Proof. intros H; inversion H; reflexivity. Qed.

Lemma NoDup_singletons (l : str) :
  NoDup l -> NoDup (List.map (fun c => [c]) l).
Proof.
  induction 1 as [|x l Hx Hl IH]; cbn [List.map]; constructor; [|exact IH].
  intros Hin. apply in_map_iff in Hin. destruct Hin as (y & E & Hy).
  apply singleton_inj in E. subst. auto.
Qed.

Lemma char_frequency_size (s : str) :
  List.length (char_frequency s) = List.length (nodup N.eq_dec s).
Proof.
  assert (Hk : List.length (dict_keys (char_frequency s))
               = List.length (List.map (fun c => [c]) (nodup N.eq_dec s))).
  { apply Nat.le_antisymm; apply NoDup_incl_length.
    - apply fold_count_char_NoDup. constructor.
    - intros k Hin. apply fold_count_char_keys in Hin.
      destruct Hin as [[]|(c & Hc & ->)].
      apply (in_map (fun c => [c])), nodup_In, Hc.
    - apply NoDup_singletons, NoDup_nodup.
    - intros k Hin. apply in_map_iff in Hin. destruct Hin as (c & <- & Hc).
      apply nodup_In in Hc. apply fold_count_char_keys. right. eauto. }
  unfold dict_keys in Hk. rewrite !length_map in Hk. exact Hk.
Qed.

(** X1.  Each entry of the frequency map is the number of times its character
    occurs in the value, a character has an entry exactly when it occurs,
    and every key is one character of the value. *)
Theorem frequency_counts_occurrences (s : str) (p : Properties.t) :
  analyze_string s = Ok p ->
  (forall c,
     dict_get (Properties.character_frequency_map p) [c] 0%Z = occurrences c s)
  /\ (forall c,
        dict_find (Properties.character_frequency_map p) [c] = None <-> ~ In c s)
  /\ (forall k,
        In k (dict_keys (Properties.character_frequency_map p)) ->
        exists c, k = [c] /\ In c s)
  /\ NoDup (dict_keys (Properties.character_frequency_map p)).
Proof.
  intros Hp. apply analyze_string_inv in Hp. destruct Hp as [_ ->].
  cbn [Properties.character_frequency_map]. unfold char_frequency.
  split; [|split; [|split]].
  - intros c. rewrite fold_count_char_get. reflexivity.
  - intros c. rewrite dict_find_none, fold_count_char_keys. split.
    + intros H Hc. apply H. right. eauto.
    + intros H [[]|(c' & Hc & E)]. apply singleton_inj in E. subst. auto.
  - intros k Hk. apply fold_count_char_keys in Hk.
    destruct Hk as [[]|(c & Hc & ->)]. eauto.
  - apply fold_count_char_NoDup. constructor.
Qed.

(** X2.  [unique_characters] is the number of entries of the frequency map; it is
    at most [length], and zero only for the empty string. *)
Theorem unique_characters_counts_entries (s : str) (p : Properties.t) :
  analyze_string s = Ok p ->
  Properties.unique_characters p = len (Properties.character_frequency_map p)
  /\ (0 <= Properties.unique_characters p <= Properties.length p)%Z
  /\ (Properties.unique_characters p = 0%Z <-> s = []).
Proof.
  intros Hp. apply analyze_string_inv in Hp. destruct Hp as [_ ->].
  cbn [Properties.character_frequency_map Properties.unique_characters
       Properties.length]. unfold len.
  split; [rewrite char_frequency_size; reflexivity|].
  pose proof (nodup_length_le s) as Hle. split; [lia|].
  split.
  - destruct s as [|x s]; [reflexivity|]. intros H0.
    assert (Hin : In x (nodup N.eq_dec (x :: s))) by (apply nodup_In; left; reflexivity).
    destruct (nodup N.eq_dec (x :: s)); [destruct Hin|simpl in H0; lia].
  - intros ->. reflexivity.
Qed.
End FrequencyFacts.

(** ** Words *)

Section WordFacts.
Context {R : Runtime}.

Lemma split_from_concat (s cur : str) :
  List.concat (split_from cur s) = rev cur ++ filter (fun c => negb (isspace c)) s.
Proof.
  revert cur. induction s as [|c s IH]; intros cur; cbn [split_from filter].
  - destruct cur; cbn [List.concat]; rewrite ?List.app_nil_r; reflexivity.
  - destruct (isspace c); cbn [negb].
    + destruct cur as [|x cur]; [apply IH|].
      cbn [List.concat]. rewrite IH. reflexivity.
    + rewrite IH. cbn [rev]. rewrite <- app_assoc. reflexivity.
Qed.

Lemma split_from_words (s cur : str) :
  forallb (fun c => negb (isspace c)) cur = true ->
  Forall (fun w => w <> [] /\ forallb (fun c => negb (isspace c)) w = true)
    (split_from cur s).
Proof.
  revert cur. induction s as [|c s IH]; intros cur Hcur; cbn [split_from].
  - destruct cur as [|x cur]; constructor; [|constructor].
    split; [|rewrite forallb_rev; exact Hcur].
    intros E. apply (f_equal (@List.length _)) in E.
    rewrite length_rev in E. discriminate.
  - destruct (isspace c) eqn:Ec.
    + destruct cur as [|x cur]; [apply IH; reflexivity|].
      constructor; [|apply IH; reflexivity].
      split; [|rewrite forallb_rev; exact Hcur].
      intros E. apply (f_equal (@List.length _)) in E.
      rewrite length_rev in E. discriminate.
    + apply IH. cbn [forallb]. rewrite Ec, Hcur. reflexivity.
Qed.

Lemma split_from_lead (a s : str) :
  forallb isspace a = true -> split_from [] (a ++ s) = split_from [] s.
Proof.
  induction a as [|c a IH]; intros H; [reflexivity|].
  cbn [forallb] in H. apply andb_true_iff in H. destruct H as [Hc H].
  cbn [app split_from]. rewrite Hc. apply IH, H.
Qed.

Lemma split_from_spaces (b cur : str) :
  forallb isspace b = true -> split_from cur b = split_from cur [].
Proof.
  revert cur. induction b as [|c b IH]; intros cur H; [reflexivity|].
  cbn [forallb] in H. apply andb_true_iff in H. destruct H as [Hc H].
  cbn [split_from]. rewrite Hc. destruct cur as [|x cur]; [apply (IH [] H)|].
  rewrite (IH [] H). reflexivity.
Qed.

Lemma split_from_trail (s b cur : str) :
  forallb isspace b = true -> split_from cur (s ++ b) = split_from cur s.
Proof.
  intros H. revert cur. induction s as [|c s IH]; intros cur.
  - apply split_from_spaces, H.
  - cbn [app split_from]. destruct (isspace c); [|apply IH].
    destruct cur; rewrite IH; reflexivity.
Qed.

Lemma concat_words_length (ws : list str) :
  Forall (fun w => w <> [] /\ forallb (fun c => negb (isspace c)) w = true) ws ->
  (List.length ws <= List.length (List.concat ws))%nat.
Proof.
  induction 1 as [|w ws [Hw _] _ IH]; [simpl; lia|].
  cbn [List.concat List.length]. rewrite length_app.
  destruct w; [destruct Hw; reflexivity|]. simpl. lia.
Qed.

Lemma filter_length_le {A} (f : A -> bool) (l : list A) :
  (List.length (filter f l) <= List.length l)%nat.
Proof.
  induction l as [|x l IH]; simpl; [lia|]. destruct (f x); simpl; lia.
Qed.

Lemma filter_nil_all (s : str) :
  filter (fun c => negb (isspace c)) s = [] <-> forallb isspace s = true.
Proof.
  induction s as [|c s IH]; cbn [filter forallb]; [tauto|].
  destruct (isspace c); cbn [negb andb]; [exact IH|].
  split; discriminate.
Qed.

(** X3.  The words [word_count] counts are not empty and have no space in them;
    put together they are the value without its spaces.  The count is zero
    exactly when the value is all spaces (or empty), and at most [length]. *)
Theorem word_count_words (s : str) (p : Properties.t) :
  analyze_string s = Ok p ->
  Properties.word_count p = len (split s)
  /\ Forall (fun w => w <> [] /\ forallb (fun c => negb (isspace c)) w = true)
       (split s)
  /\ List.concat (split s) = filter (fun c => negb (isspace c)) s
  /\ (Properties.word_count p = 0%Z <-> forallb isspace s = true)
  /\ (Properties.word_count p <= Properties.length p)%Z.
Proof.
  intros Hp. apply analyze_string_inv in Hp. destruct Hp as [_ ->].
  cbn [Properties.word_count Properties.length]. unfold split, len.
  pose proof (split_from_words s [] eq_refl) as Hw.
  pose proof (split_from_concat s []) as Hc. cbn [rev app] in Hc.
  split; [reflexivity|]. split; [exact Hw|]. split; [exact Hc|].
  pose proof (concat_words_length _ Hw) as Hl. rewrite Hc in Hl.
  pose proof (filter_length_le (fun c => negb (isspace c)) s) as Hf.
  split; [|lia].
  rewrite <- filter_nil_all. split.
  - intros H0. destruct (split_from [] s); [|simpl in H0; lia].
    symmetry. exact Hc.
  - intros H0. rewrite H0 in Hl.
    destruct (split_from [] s); [reflexivity|simpl in Hl; lia].
Qed.

(** X4.  Spaces before and after a value do not change its words. *)
Theorem word_count_ignores_outer_spaces (a s b : str) (p q : Properties.t) :
  forallb isspace a = true -> forallb isspace b = true ->
  analyze_string s = Ok p -> analyze_string (a ++ s ++ b) = Ok q ->
  split (a ++ s ++ b) = split s
  /\ Properties.word_count q = Properties.word_count p.
Proof.
  intros Ha Hb Hp Hq.
  apply analyze_string_inv in Hp, Hq. destruct Hp as [_ ->], Hq as [_ ->].
  cbn [Properties.word_count].
  assert (E : split (a ++ s ++ b) = split s).
  { unfold split. rewrite (split_from_lead a _ Ha). apply split_from_trail, Hb. }
  split; [exact E|]. rewrite E. reflexivity.
Qed.
End WordFacts.

(** ** Palindromes of ASCII text *)

Lemma ascii_lower_twice (c : char) : ascii_lower (ascii_lower c) = ascii_lower c.
Proof.
  unfold ascii_lower.
  destruct (N.leb_spec 65 c), (N.leb_spec c 90); cbn [andb]; try reflexivity;
    try (destruct (N.leb_spec 65 c), (N.leb_spec c 90); cbn [andb]; reflexivity || lia).
  destruct (N.leb_spec 65 (c + 32)), (N.leb_spec (c + 32) 90); cbn [andb];
    reflexivity || lia.
Qed.

Lemma ascii_lower_ascii (c : char) : is_ascii c = true -> is_ascii (ascii_lower c) = true.
Proof.
  unfold is_ascii, ascii_lower. intros H. apply N.ltb_lt in H.
  destruct (N.leb_spec 65 c), (N.leb_spec c 90); cbn [andb]; apply N.ltb_lt; lia.
Qed.

Lemma is_ascii_scalar (c : char) : is_ascii c = true -> is_scalar c = true.
Proof.
  unfold is_ascii, is_scalar, is_surrogate. intros H. apply N.ltb_lt in H.
  apply andb_true_iff. split; [apply N.ltb_lt; lia|].
  destruct (N.leb_spec 0xD800 c); [lia|reflexivity].
Qed.

Lemma forallb_impl {A} (f g : A -> bool) (l : list A) :
  (forall x, f x = true -> g x = true) -> forallb f l = true -> forallb g l = true.
Proof.
  intros H. induction l as [|x l IH]; cbn [forallb]; [reflexivity|].
  intros E. apply andb_true_iff in E. destruct E as [E1 E2].
  rewrite (H x E1), (IH E2). reflexivity.
Qed.

Lemma forallb_map {A B} (f : B -> bool) (g : A -> B) (l : list A) :
  forallb f (List.map g l) = forallb (fun x => f (g x)) l.
Proof. induction l as [|x l IH]; cbn [List.map forallb]; [|rewrite IH]; reflexivity. Qed.

Lemma str_eqb_sym (a b : str) : str_eqb a b = str_eqb b a.
Proof.
  destruct (str_eqb a b) eqn:E1, (str_eqb b a) eqn:E2; try reflexivity.
  - apply str_eqb_eq in E1. apply str_eqb_neq in E2. congruence.
  - apply str_eqb_eq in E2. apply str_eqb_neq in E1. congruence.
Qed.

Section PalindromeFacts.
Context {R : Runtime}.

(** X5.  On ASCII text, [is_palindrome] is the same for a value, its reversal and
    its lowercase form, and a value followed by its reversal is a
    palindrome. *)
Theorem ascii_palindrome_invariance (s : str) :
  forallb is_ascii s = true ->
  exists p pr pl pd,
    analyze_string s = Ok p
    /\ analyze_string (rev s) = Ok pr
    /\ analyze_string (lower s) = Ok pl
    /\ analyze_string (s ++ rev s) = Ok pd
    /\ Properties.is_palindrome pr = Properties.is_palindrome p
    /\ Properties.is_palindrome pl = Properties.is_palindrome p
    /\ Properties.is_palindrome pd = true.
Proof.
  intros Ha.
  assert (Hr : forallb is_ascii (rev s) = true) by (rewrite forallb_rev; exact Ha).
  assert (Hl : forallb is_ascii (List.map ascii_lower s) = true).
  { rewrite forallb_map. revert Ha. apply forallb_impl, ascii_lower_ascii. }
  assert (Hd : forallb is_ascii (s ++ rev s) = true)
    by (rewrite forallb_app, Ha, Hr; reflexivity).
  assert (Hs : forall t, forallb is_ascii t = true -> forallb is_scalar t = true)
    by (intros t; apply forallb_impl, is_ascii_scalar).
  rewrite (lower_ascii s Ha).
  do 4 eexists.
  split; [apply analyze_string_ok, Hs, Ha|].
  split; [apply analyze_string_ok, Hs, Hr|].
  split; [apply analyze_string_ok, Hs, Hl|].
  split; [apply analyze_string_ok, Hs, Hd|].
  cbn [Properties.is_palindrome]. unfold palindrome.
  rewrite (lower_ascii _ Ha), (lower_ascii _ Hr), (lower_ascii _ Hl), (lower_ascii _ Hd).
  split; [|split].
  - rewrite map_rev, rev_involutive. apply str_eqb_sym.
  - rewrite map_map. rewrite (map_ext _ _ ascii_lower_twice). reflexivity.
  - apply str_eqb_eq. rewrite map_app, rev_app_distr, !map_rev, rev_involutive.
    reflexivity.
Qed.
End PalindromeFacts.

(** ** The length of a numeral *)

Lemma decimal_value_lower (ds : str) (acc : N) :
  (acc * 10 ^ N.of_nat (List.length ds) <= fold_left add_ascii_digit ds acc)%N.
Proof.
  revert acc. induction ds as [|c ds IH]; intros acc.
  - cbn [List.length fold_left]. change (10 ^ N.of_nat 0)%N with 1%N. lia.
  - cbn [List.length fold_left]. rewrite Nat2N.inj_succ, N.pow_succ_r'.
    eapply N.le_trans; [|apply IH]. unfold add_ascii_digit.
    rewrite N.mul_assoc. apply N.mul_le_mono_r. lia.
Qed.

(** A numeral of more than [k] digits is at least [10 ^ k]. *)
Lemma numeral_length (n : N) (k : nat) :
  (1 <= k)%nat -> (n < 10 ^ N.of_nat k)%N -> (List.length (numeral n) <= k)%nat.
Proof.
  intros Hk Hn.
  pose proof (decimal_value_numeral n) as Hv.
  pose proof (numeral_digits n) as Hd.
  pose proof (numeral_no_leading_zero n) as Hz.
  unfold decimal_value in Hv.
  destruct (numeral n) as [|c ds]; [cbn [List.length]; lia|].
  cbn [List.length]. destruct (Nat.le_gt_cases (List.length ds) (k - 1)) as [H|H]; [lia|].
  exfalso. cbn [fold_left forallb] in Hv, Hd.
  apply andb_true_iff in Hd. destruct Hd as [Hc _]. unfold ascii_digit in Hc.
  apply andb_true_iff in Hc. destruct Hc as [Hc1 Hc2].
  apply N.leb_le in Hc1, Hc2.
  destruct (N.eq_dec c 48) as [->|Hne].
  - destruct ds as [|c' ds]; [cbn [List.length] in H; lia|]. destruct (Hz c' ds).
    reflexivity.
  - pose proof (decimal_value_lower ds (add_ascii_digit 0 c)) as Hl.
    rewrite Hv in Hl. unfold add_ascii_digit in Hl.
    assert (Hp : (10 ^ N.of_nat k <= 10 ^ N.of_nat (List.length ds))%N)
      by (apply N.pow_le_mono_r; lia).
    assert (H1 : (1 * 10 ^ N.of_nat (List.length ds)
                  <= (10 * 0 + (c - 48)) * 10 ^ N.of_nat (List.length ds))%N)
      by (apply N.mul_le_mono_r; lia).
    lia.
Qed.

(** The numbers SQLite's integers hold are short enough for [int]. *)
Lemma fits_int64_reads (n : Z) :
  fits_int64 n = true -> int_reads (Some (numeral (Z.abs_N n))) = true.
Proof.
  unfold fits_int64, int_reads. intros H. apply andb_true_iff in H.
  destruct H as [H1 H2]. apply Z.leb_le in H1, H2. apply N.leb_le.
  assert (Hl : (List.length (numeral (Z.abs_N n)) <= 19)%nat).
  { apply numeral_length; [lia|].
    change (10 ^ N.of_nat 19)%N with 10000000000000000000%N. lia. }
  unfold max_str_digits. lia.
Qed.

Lemma decimal_value_upper (ds : str) (acc : N) :
  forallb ascii_digit ds = true ->
  (fold_left add_ascii_digit ds acc < (acc + 1) * 10 ^ N.of_nat (List.length ds))%N.
Proof.
  revert acc. induction ds as [|c ds IH]; intros acc H.
  - cbn [List.length fold_left]. change (10 ^ N.of_nat 0)%N with 1%N. lia.
  - cbn [forallb] in H. apply andb_true_iff in H. destruct H as [Hc H].
    unfold ascii_digit in Hc. apply andb_true_iff in Hc. destruct Hc as [Hc1 Hc2].
    apply N.leb_le in Hc1, Hc2.
    cbn [List.length fold_left]. rewrite Nat2N.inj_succ, N.pow_succ_r'.
    eapply N.lt_le_trans; [apply (IH _ H)|]. unfold add_ascii_digit.
    rewrite N.mul_assoc. apply N.mul_le_mono_r. lia.
Qed.

(** A number of at least [10 ^ k] has a numeral of more than [k] digits. *)
Lemma numeral_long (n k : N) :
  (10 ^ k <= n)%N -> (k < N.of_nat (List.length (numeral n)))%N.
Proof.
  intros Hn.
  pose proof (decimal_value_upper _ 0 (numeral_digits n)) as Hu.
  fold (decimal_value (numeral n)) in Hu. rewrite decimal_value_numeral in Hu.
  destruct (N.lt_ge_cases k (N.of_nat (List.length (numeral n)))) as [H|H];
    [exact H|].
  exfalso.
  assert (Hp : (10 ^ N.of_nat (List.length (numeral n)) <= 10 ^ k)%N)
    by (apply N.pow_le_mono_r; [discriminate|exact H]).
  revert Hn Hu Hp. generalize (10 ^ k)%N (10 ^ N.of_nat (List.length (numeral n)))%N.
  intros a b. lia.
Qed.

Section NumeralLimit.
Context {R : Runtime}.

Lemma digits_ascii (ds : str) :
  forallb ascii_digit ds = true ->
  forallb is_ascii ds = true /\ List.map ascii_lower ds = ds.
Proof.
  induction ds as [|c ds IH]; [split; reflexivity|].
  cbn [forallb List.map]. intros H. apply andb_true_iff in H. destruct H as [Hc H].
  destruct (IH H) as [H1 H2]. rewrite H1, H2.
  unfold ascii_digit in Hc. apply andb_true_iff in Hc. destruct Hc as [Hc1 Hc2].
  apply N.leb_le in Hc1, Hc2. unfold is_ascii, ascii_lower.
  destruct (N.ltb_spec c 128); [|lia].
  destruct (N.leb_spec 65 c), (N.leb_spec c 90); cbn [andb];
    try (split; reflexivity); lia.
Qed.

(** A length rule that finds the numeral of a number of at least
    [10 ^ 4300] makes the translator raise. *)
Lemma numeral_limit_raises (n : N) :
  (10 ^ 4300 <= n)%N ->
  parse_natural_language (u "strings longer than " ++ numeral n) = Raise ValueError
  /\ parse_natural_language (u "strings shorter than " ++ numeral n)
     = Raise ValueError.
Proof.
  intros Hn.
  assert (Hr : int_reads (Some (numeral n)) = false).
  { unfold int_reads, max_str_digits. apply N.leb_gt. apply numeral_long, Hn. }
  destruct (digits_ascii _ (numeral_digits n)) as [Ha Hl].
  assert (Hpost : match @nil char with c :: _ => is_decimal c = false | [] => True end)
    by exact I.
  split; apply parse_natural_language_raises; unfold numerals_read;
    rewrite lower_ascii by (rewrite forallb_app, Ha; reflexivity);
    rewrite map_app, Hl.
  - change (List.map ascii_lower (u "strings longer than "))
      with (u "strings " ++ u "longer than ").
    rewrite <- app_assoc, <- (List.app_nil_r (numeral n)).
    unfold length_pattern at 1.
    rewrite (found_text_at (u "longer than ") (u "strings ") [] n);
      [rewrite Hr; reflexivity| |exact Hpost].
    intros i Hi. rewrite match_at_counted.
    do 8 (destruct i as [|i]; [reflexivity|]). simpl in Hi. lia.
  - change (List.map ascii_lower (u "strings shorter than "))
      with (u "strings " ++ u "shorter than ").
    rewrite <- app_assoc, <- (List.app_nil_r (numeral n)).
    unfold length_pattern2.
    rewrite (found_text_at (u "shorter than ") (u "strings ") [] n);
      [rewrite Hr; apply andb_false_r| |exact Hpost].
    intros i Hi. rewrite match_at_counted.
    do 8 (destruct i as [|i]; [reflexivity|]). simpl in Hi. lia.
Qed.
End NumeralLimit.

(** ** Integers as text, and the two filter paths *)

Section IntTexts.
Context {R : Runtime}.

Lemma lstrip_head (c : char) (s : str) :
  int_space c = false -> lstrip (c :: s) = c :: s.
Proof. intros H. cbn [lstrip]. rewrite H. reflexivity. Qed.

Lemma minus_not_space : int_space 45%N = false.
Proof. reflexivity. Qed.

Lemma strip_minus_digits (ds : str) :
  ds <> [] -> forallb is_decimal ds = true -> strip (45%N :: ds) = 45%N :: ds.
Proof.
  intros Hne Hd. unfold strip. rewrite (lstrip_head _ _ minus_not_space).
  cbn [rev].
  assert (Hr : forallb is_decimal (rev ds) = true) by (rewrite forallb_rev; exact Hd).
  destruct (rev ds) as [|x t] eqn:E.
  - apply (f_equal (@rev _)) in E. rewrite rev_involutive in E. destruct Hne. exact E.
  - cbn [forallb] in Hr. apply andb_true_iff in Hr. destruct Hr as [Hx _].
    cbn [app]. rewrite (lstrip_head _ _ (is_decimal_not_int_space _ Hx)).
    change (x :: t ++ [45%N]) with ((x :: t) ++ [45%N]).
    rewrite <- E, rev_app_distr, rev_involutive. reflexivity.
Qed.

(** [int] reads back what [repr] writes of an integer, when the digits are
    not too many. *)
Lemma py_int_repr_int_eq (n : Z) :
  py_int (repr_int n)
  = if int_reads (Some (numeral (Z.abs_N n))) then Ok n else Raise ValueError.
Proof.
  unfold repr_int. fold (numeral (Z.to_N (- n))). fold (numeral (Z.to_N n)).
  destruct (Z.ltb_spec n 0) as [Hn|Hn].
  - replace (Z.abs_N n) with (Z.to_N (- n)) by lia.
    pose proof (ascii_digits_decimal _ (numeral_digits (Z.to_N (- n)))) as Hd.
    pose proof (numeral_not_nil (Z.to_N (- n))) as Hne.
    unfold py_int. rewrite (strip_minus_digits _ Hne Hd).
    rewrite N.eqb_refl, (digits_int_run _ Hd Hne).
    destruct (int_reads _); [|reflexivity].
    rewrite (digits_number_ascii _ (numeral_digits _)), decimal_value_numeral.
    cbn [option_map]. f_equal. lia.
  - replace (Z.abs_N n) with (Z.to_N n) by lia.
    rewrite py_int_digits
      by (auto using numeral_not_nil, ascii_digits_decimal, numeral_digits).
    destruct (int_reads _); [|reflexivity].
    rewrite (digits_number_ascii _ (numeral_digits _)), decimal_value_numeral.
    f_equal. lia.
Qed.

Lemma py_int_repr_int (n : Z) : fits_int64 n = true -> py_int (repr_int n) = Ok n.
Proof.
  intros H. rewrite py_int_repr_int_eq, (fits_int64_reads _ H). reflexivity.
Qed.

Lemma py_int_repr_int_cases (n : Z) :
  py_int (repr_int n) = Ok n \/ py_int (repr_int n) = Raise ValueError.
Proof. rewrite py_int_repr_int_eq. destruct (int_reads _); auto. Qed.

Lemma py_int_cases (text : str) :
  (exists n, py_int text = Ok n) \/ py_int text = Raise ValueError.
Proof.
  unfold py_int. destruct (strip text) as [|c s]; [right; reflexivity|].
  destruct (N.eqb c 45).
  - destruct (digits_int s); cbn [option_map]; eauto.
  - destruct (N.eqb c 43); [destruct (digits_int s); eauto|].
    destruct (digits_int (c :: s)); eauto.
Qed.

Lemma add_digit_nonneg (acc : Z) (c : char) : (0 <= acc)%Z -> (0 <= add_digit acc c)%Z.
Proof. unfold add_digit. destruct (decimal c); lia. Qed.

Lemma digits_number_nonneg (ds : str) : (0 <= digits_number ds)%Z.
Proof.
  unfold digits_number.
  assert (H : forall acc, (0 <= acc)%Z -> (0 <= fold_left add_digit ds acc)%Z).
  { induction ds as [|c ds IH]; intros acc H; [exact H|].
    cbn [fold_left]. apply IH, add_digit_nonneg, H. }
  apply H. lia.
Qed.
End IntTexts.

Section PathFacts.
Context {R : Runtime}.

Lemma lower_bool_text (b : bool) :
  str_eqb (lower (bool_text b)) (u "true") = b.
Proof. destruct b; cbn [bool_text]; rewrite lower_ascii by reflexivity; reflexivity. Qed.

Lemma structured_query_of_filters (f : Filters.t) :
  forallb bindable (filters_query f) = true ->
  structured_query (option_map bool_text (Filters.is_palindrome f))
    (option_map repr_int (Filters.min_length f))
    (option_map repr_int (Filters.max_length f))
    (option_map repr_int (Filters.word_count f))
    (Filters.contains_character f)
  = Ok (filters_query f, f).
Proof.
  destruct f as [[b|] [mn|] [mx|] [wc|] [cc|]];
    unfold structured_query, filters_query;
    cbn [option_map Filters.is_palindrome Filters.min_length Filters.max_length
         Filters.word_count Filters.contains_character app forallb bindable];
    intros H;
    repeat match type of H with
           | (_ && _)%bool = true =>
               let H1 := fresh "H" in
               apply andb_true_iff in H; destruct H as [H1 H];
               try rewrite (py_int_repr_int _ H1)
           end;
    rewrite ?lower_bool_text; reflexivity.
Qed.

(** Beyond that, [int] may refuse a bound for its length. *)
Lemma structured_query_of_filters_cases (f : Filters.t) :
  structured_query (option_map bool_text (Filters.is_palindrome f))
    (option_map repr_int (Filters.min_length f))
    (option_map repr_int (Filters.max_length f))
    (option_map repr_int (Filters.word_count f))
    (Filters.contains_character f)
  = Ok (filters_query f, f)
  \/ structured_query (option_map bool_text (Filters.is_palindrome f))
       (option_map repr_int (Filters.min_length f))
       (option_map repr_int (Filters.max_length f))
       (option_map repr_int (Filters.word_count f))
       (Filters.contains_character f)
     = Raise ValueError.
Proof.
  destruct f as [[b|] [mn|] [mx|] [wc|] [cc|]];
    unfold structured_query, filters_query;
    cbn [option_map Filters.is_palindrome Filters.min_length Filters.max_length
         Filters.word_count Filters.contains_character];
    rewrite ?lower_bool_text;
    repeat match goal with
           | |- context [py_int (repr_int ?n)] =>
               let E := fresh "E" in
               destruct (py_int_repr_int_cases n) as [E|E]; rewrite E;
               cbn [bind fst snd]
           end; auto.
Qed.

(** X9.  The two filter paths agree: the natural-language path answers 200 with
    some records and filters exactly when the structured path, sent the
    filters the translator found (integers in decimal, the boolean as "true"
    or "false"), answers 200 with the same records and the same filters. *)
Theorem structured_path_agrees (db : table) (query : str) (f : Filters.t)
    (data : list item) (n : Z) :
  parse_natural_language query = Ok f ->
  query <> [] -> Filters.is_empty f = false ->
  filter_by_natural_language db (Some query)
  = Response (Interpreted data n query f) 200
  <-> get_all_strings db (option_map bool_text (Filters.is_palindrome f))
        (option_map repr_int (Filters.min_length f))
        (option_map repr_int (Filters.max_length f))
        (option_map repr_int (Filters.word_count f))
        (Filters.contains_character f)
      = Response (Listing data n f) 200.
Proof.
  intros Hp Hq He.
  unfold get_all_strings, filter_by_natural_language. rewrite Hp, He.
  destruct query as [|c query]; [destruct Hq; reflexivity|].
  destruct (forallb bindable (filters_query f)) eqn:Hb.
  - rewrite (structured_query_of_filters f Hb).
    destruct (rows <- fetchall db (filters_query f);; row_items rows) as [d|e].
    + split; intros H; inversion H; subst; reflexivity.
    + split; discriminate.
  - destruct (structured_query_of_filters_cases f) as [E|E]; rewrite E;
      unfold fetchall; rewrite Hb; cbn [bind]; split; discriminate.
Qed.

(** X8.  What the translator can return: [is_palindrome] is never false,
    [min_length] is at least 1 and [max_length] at least -1, [word_count] is
    1 or 2, and [contains_character] is one lowercase ASCII letter. *)
Theorem translator_ranges (query : str) (f : Filters.t) :
  parse_natural_language query = Ok f ->
  Filters.is_palindrome f <> Some false
  /\ (forall n, Filters.min_length f = Some n -> (1 <= n)%Z)
  /\ (forall n, Filters.max_length f = Some n -> (-1 <= n)%Z)
  /\ (forall n, Filters.word_count f = Some n -> n = 1%Z \/ n = 2%Z)
  /\ (forall c, Filters.contains_character f = Some c ->
        exists x, c = [x] /\ a_to_z x = true).
Proof.
  intros Hp. apply parse_natural_language_ok in Hp. destruct Hp as [_ ->].
  cbn [Filters.is_palindrome Filters.min_length Filters.max_length
       Filters.word_count Filters.contains_character].
  split; [destruct (substring_in _ _); discriminate|].
  split.
  { unfold found_number. intros n.
    destruct (search length_pattern (lower query)) as [[ds|]|]; try discriminate.
    cbn [option_map]. intros H; inversion H.
    pose proof (digits_number_nonneg ds). lia. }
  split.
  { unfold found_number. intros n.
    destruct (search length_pattern2 (lower query)) as [[ds|]|]; try discriminate.
    cbn [option_map]. intros H; inversion H.
    pose proof (digits_number_nonneg ds). lia. }
  split.
  { intros n. destruct (substring_in (u "single word") _).
    - intros H; inversion H; auto.
    - destruct (_ || _); [|discriminate]. intros H; inversion H; auto. }
  intros c. destruct (substring_in (u "first vowel") _).
  - intros H; inversion H. exists 97%N. split; reflexivity.
  - unfold found_text.
    destruct (search char_pattern (lower query)) as [m|] eqn:E; [|discriminate].
    destruct (search_char_pattern _ _ E) as (x & -> & Hx).
    intros H; inversion H. eauto.
Qed.

(** X10.  A length or word-count parameter that [int] refuses makes the structured
    path answer 400, whatever the other parameters are. *)
Theorem malformed_integer_rejected (db : table)
    (is_palindrome min_length max_length word_count contains_character : option str)
    (text : str) :
  min_length = Some text \/ max_length = Some text \/ word_count = Some text ->
  py_int text = Raise ValueError ->
  get_all_strings db is_palindrome min_length max_length word_count
    contains_character
  = Response (Error "Invalid query parameter values or types") 400.
Proof.
  intros Hin Ht. unfold get_all_strings, structured_query.
  destruct is_palindrome as [ip|];
    destruct min_length as [mn|], max_length as [mx|], word_count as [wc|];
    destruct Hin as [H|[H|H]]; try discriminate; inversion H; subst;
    repeat match goal with
           | |- context [py_int ?t] =>
               first [rewrite Ht
                     |let n := fresh "n" in let E := fresh "E" in
                      destruct (py_int_cases t) as [[n E]|E]; rewrite E]
           end; cbn [bind fst snd]; try rewrite Ht; reflexivity.
Qed.


End PathFacts.

(** ** Tables made by requests *)

Section StoreFacts.
Context {R : Runtime}.

Lemma create_string_row (db db' : table) (data : json) (now : str) (resp : response) :
  create_string db data now = (db', resp) ->
  (db' = db /\ forall b, resp <> Response b 201)
  \/ exists r p,
       resp = Response (Item (shown r p)) 201
       /\ db' = db ++ [r]
       /\ analysed_row r
       /\ analyze_string (Row.value r) = Ok p
       /\ Row.created_at r = now ++ u "Z"
       /\ value_of data = Ok (Some (JStr (Row.value r)))
       /\ ~ In (Row.value r) (List.map Row.value db)
       /\ ~ In (Row.id r) (List.map Row.id db).
Proof.
  intros Hc.
  destruct (create_string_cases db data now)
    as [[Hdb Hno]|(value & p & i & Hv & _ & Ha & Hi & Hresp & ->)];
    rewrite Hc in *; cbn [fst snd] in *.
  - left. auto.
  - right. eexists (Row.make _ value _ _ _ _ _ _ _), p.
    unfold insert in Hi. destruct (existsb _ db) eqn:E; [discriminate|].
    inversion Hi; subst db'.
    split; [exact Hresp|]. split; [reflexivity|].
    split; [exists p; split; [exact Ha|reflexivity]|].
    split; [exact Ha|]. split; [reflexivity|]. split; [exact Hv|].
    split.
    + apply (existsb_value_false db _ E).
    + intros Hin. apply in_map_iff in Hin. destruct Hin as (x & Ex & Hx).
      assert (existsb (fun x0 => str_eqb (Row.id x0) (Properties.sha256_hash p)
                                 || str_eqb (Row.value x0) value) db = true).
      { apply existsb_exists. exists x. split; [exact Hx|].
        cbn [Row.id] in Ex. rewrite Ex, str_eqb_refl. reflexivity. }
      cbn [Row.id Row.value] in E. congruence.
Qed.

Lemma step_analysed (db : table) (req : request) :
  Forall analysed_row db -> Forall analysed_row (step db req).
Proof.
  intros H. destruct req as [data now|value]; cbn [step].
  - destruct (create_string db data now) as [db' resp] eqn:Hc. cbn [fst].
    destruct (create_string_row _ _ _ _ _ Hc)
      as [[-> _]|(r & p & _ & -> & Hr & _)]; [exact H|].
    apply Forall_app. split; [exact H|]. constructor; [exact Hr|constructor].
  - rewrite delete_string_table. unfold delete_by_value. cbn [fst].
    apply Forall_forall. intros r Hr. apply filter_In in Hr.
    rewrite Forall_forall in H. apply H. tauto.
Qed.

Lemma run_analysed (reqs : list request) (db : table) :
  Forall analysed_row db -> Forall analysed_row (run db reqs).
Proof.
  revert db. induction reqs as [|req reqs IH]; intros db H; [exact H|].
  apply IH, step_analysed, H.
Qed.

Lemma step_ids (db : table) (req : request) :
  NoDup (List.map Row.id db) -> NoDup (List.map Row.id (step db req)).
Proof.
  intros H. destruct req as [data now|value]; cbn [step].
  - destruct (create_string db data now) as [db' resp] eqn:Hc. cbn [fst].
    destruct (create_string_row _ _ _ _ _ Hc)
      as [[-> _]|(r & p & _ & -> & _ & _ & _ & _ & _ & Hid)]; [exact H|].
    rewrite map_app. cbn [List.map].
    apply NoDup_app; [exact H|repeat constructor; intros []|].
    intros x Hx [<-|[]]. exact (Hid Hx).
  - rewrite delete_string_table. unfold delete_by_value. cbn [fst].
    apply NoDup_map_filter, H.
Qed.

Lemma run_ids (reqs : list request) (db : table) :
  NoDup (List.map Row.id db) -> NoDup (List.map Row.id (run db reqs)).
Proof.
  revert db. induction reqs as [|req reqs IH]; intros db H; [exact H|].
  apply IH, step_ids, H.
Qed.

Lemma row_item_analysed (r : Row.t) :
  analysed_row r ->
  exists p, analyze_string (Row.value r) = Ok p /\ row_item r = Ok (shown r p).
Proof.
  intros (p & Ha & Hr). exists p. split; [exact Ha|].
  destruct (analyze_string_inv _ _ Ha) as [Hs Hp].
  destruct (char_frequency_plain _ Hs) as [Hn Hpl].
  unfold row_item. rewrite Hr.
  cbn [Row.character_frequency_map Row.id Row.value Row.length Row.is_palindrome
       Row.unique_characters Row.word_count Row.sha256_hash Row.created_at].
  rewrite Hp at 1. cbn [Properties.character_frequency_map].
  rewrite (eval_dict_str_dict _ Hn Hpl), int_bool_int.
  unfold shown. rewrite Hp. reflexivity.
Qed.

Lemma row_items_analysed (rows : list Row.t) :
  Forall analysed_row rows ->
  exists data,
    row_items rows = Ok data
    /\ List.map item_value data = List.map Row.value rows
    /\ Forall2 (fun r i => exists p, analyze_string (Row.value r) = Ok p
                                     /\ i = shown r p) rows data.
Proof.
  induction 1 as [|r rows Hr _ (data & Hd & Hv & Hf)].
  - exists []. repeat split. constructor.
  - destruct (row_item_analysed r Hr) as (p & Ha & Hi).
    exists (shown r p :: data). cbn [row_items]. rewrite Hi, Hd.
    split; [reflexivity|]. split; [cbn [List.map shown item_value]; rewrite Hv; reflexivity|].
    constructor; [eauto|exact Hf].
Qed.
End StoreFacts.

Section StoreProperties.
Context {R : Runtime}.

(** X16.  Only an answer 201 changes the table: [create_string] then appends one
    row, the analysis of the submitted string, whose value and digest were
    in no row before, stamped with the time of the request; every other
    answer leaves the table as it was. *)
Theorem create_string_effect (db db' : table) (data : json) (now : str)
    (resp : response) :
  create_string db data now = (db', resp) ->
  (db' = db /\ forall b, resp <> Response b 201)
  \/ exists r p,
       resp = Response (Item (make_item (Row.id r) (Row.value r) p (now ++ u "Z"))) 201
       /\ db' = db ++ [r]
       /\ value_of data = Ok (Some (JStr (Row.value r)))
       /\ analyze_string (Row.value r) = Ok p
       /\ Row.id r = Properties.sha256_hash p
       /\ Row.created_at r = now ++ u "Z"
       /\ ~ In (Row.value r) (List.map Row.value db)
       /\ ~ In (Row.id r) (List.map Row.id db).
Proof.
  intros Hc. destruct (create_string_row _ _ _ _ _ Hc)
    as [H|(r & p & -> & -> & (p' & Ha' & Hr) & Ha & Ht & Hv & Hn & Hi)]; [left; exact H|].
  right. exists r, p.
  assert (Hid : Row.id r = Properties.sha256_hash p).
  { rewrite Ha in Ha'. inversion Ha'; subst p'. rewrite Hr. reflexivity. }
  unfold shown. rewrite Ht, Hid. repeat split; auto.
  rewrite <- Hid. exact Hi.
Qed.

(** X17.  Deleting a value right after its creation answers 204 and gives back the
    table as it was before the creation. *)
Theorem create_then_delete (db db1 : table) (data : json) (now : str) (i : item) :
  create_string db data now = (db1, Response (Item i) 201) ->
  delete_string db1 (item_value i) = (db, Response Empty 204).
Proof.
  intros Hc. destruct (create_string_row _ _ _ _ _ Hc)
    as [[_ Hno]|(r & p & Hresp & -> & _ & _ & _ & _ & Hn & _)].
  { destruct (Hno (Item i)). reflexivity. }
  inversion Hresp; subst i. cbn [shown item_value].
  pose proof (select_absent db (Row.value r) Hn) as Hs.
  unfold delete_string, delete_by_value, select_by_value in *.
  rewrite !filter_app, Hs. cbn [filter app]. rewrite str_eqb_refl. cbn [negb].
  assert (Hf : filter (fun x => negb (str_eqb (Row.value x) (Row.value r))) db = db).
  { clear Hc Hs Hresp. induction db as [|x db IH]; [reflexivity|].
    cbn [filter]. cbn [List.map In] in Hn.
    destruct (str_eqb (Row.value x) (Row.value r)) eqn:E.
    - apply str_eqb_eq in E. tauto.
    - cbn [negb]. rewrite IH by tauto. reflexivity. }
  rewrite Hf, List.app_nil_r. reflexivity.
Qed.

(** X18.  Every record in a table that create and delete requests made from the
    empty one is the analysis of its value: the properties, the digest used
    as id and the text of the frequency map are the ones [analyze_string]
    gives for the value.  No two records have the same id. *)
Theorem stored_records_are_analyses (reqs : list request) (r : Row.t) :
  NoDup (List.map Row.id (run [] reqs))
  /\ (In r (run [] reqs) ->
      exists p,
        analyze_string (Row.value r) = Ok p
        /\ Row.id r = Properties.sha256_hash p
        /\ Row.sha256_hash r = Properties.sha256_hash p
        /\ Row.length r = len (Row.value r)
        /\ Row.is_palindrome r = bool_int (Properties.is_palindrome p)
        /\ Row.unique_characters r = Properties.unique_characters p
        /\ Row.word_count r = Properties.word_count p
        /\ eval_dict (Row.character_frequency_map r)
           = Some (Properties.character_frequency_map p)).
Proof.
  split; [apply run_ids; constructor|].
  intros Hin.
  pose proof (run_analysed reqs [] (Forall_nil _)) as H.
  rewrite Forall_forall in H. destruct (H r Hin) as (p & Ha & Hr).
  destruct (analyze_string_inv _ _ Ha) as [Hs Hp].
  destruct (char_frequency_plain _ Hs) as [Hn Hpl].
  exists p. split; [exact Ha|].
  rewrite Hr. cbn [Row.id Row.sha256_hash Row.length Row.is_palindrome
                   Row.unique_characters Row.word_count Row.value
                   Row.character_frequency_map].
  repeat split; try reflexivity.
  - rewrite Hp. reflexivity.
  - rewrite Hp. cbn [Properties.character_frequency_map].
    apply eval_dict_str_dict; assumption.
Qed.

Lemma bool_int_eqb (a b : bool) : Z.eqb (bool_int a) (bool_int b) = Bool.eqb a b.
Proof. destruct a, b; reflexivity. Qed.

Lemma holds_query_matches (f : Filters.t) (r : Row.t) :
  analysed_row r ->
  forallb (holds r) (filters_query f) = value_matches f (Row.value r).
Proof.
  intros (p & Ha & Hr). destruct (analyze_string_inv _ _ Ha) as [_ Hp].
  assert (H1 : Row.is_palindrome r = bool_int (palindrome (Row.value r)))
    by (rewrite Hr, Hp; reflexivity).
  assert (H2 : Row.length r = len (Row.value r)) by (rewrite Hr, Hp; reflexivity).
  assert (H3 : Row.word_count r = len (split (Row.value r)))
    by (rewrite Hr, Hp; reflexivity).
  destruct f as [[b|] [mn|] [mx|] [wc|] [cc|]];
    unfold filters_query, value_matches;
    cbn [Filters.is_palindrome Filters.min_length Filters.max_length
         Filters.word_count Filters.contains_character app forallb holds];
    rewrite ?H1, ?H2, ?H3, ?bool_int_eqb, ?andb_true_r; cbn [andb];
    rewrite ?andb_assoc; reflexivity.
Qed.

Lemma filter_values (f : Filters.t) (db : table) :
  Forall analysed_row db ->
  List.map Row.value (filter (fun r => forallb (holds r) (filters_query f)) db)
  = filter (value_matches f) (List.map Row.value db).
Proof.
  induction 1 as [|r db Hr _ IH]; [reflexivity|].
  cbn [filter List.map]. rewrite (holds_query_matches f r Hr).
  destruct (value_matches f (Row.value r)); cbn [List.map]; rewrite IH; reflexivity.
Qed.

Lemma filter_analysed (g : Row.t -> bool) (db : table) :
  Forall analysed_row db -> Forall analysed_row (filter g db).
Proof.
  intros H. apply Forall_forall. intros r Hr. apply filter_In in Hr.
  rewrite Forall_forall in H. apply H. tauto.
Qed.

(** X13.  On a table made by requests, filters whose bounds fit SQLite's integers
    (and whose text, if any, fits a LIKE pattern)
    select the records by their values alone: the answer is 200 and lists,
    in the order of the table, the records whose value is a palindrome or
    not as asked, has a length within the bounds, the number of words asked
    and a text LIKE finds; [count] is the number of records listed. *)
Theorem filters_select_by_value (reqs : list request) (f : Filters.t) :
  forallb bindable (filters_query f) = true ->
  (forall c, Filters.contains_character f = Some c -> pattern_fits c = true) ->
  exists data,
    get_all_strings (run [] reqs)
      (option_map bool_text (Filters.is_palindrome f))
      (option_map repr_int (Filters.min_length f))
      (option_map repr_int (Filters.max_length f))
      (option_map repr_int (Filters.word_count f))
      (Filters.contains_character f)
    = Response (Listing data (len data) f) 200
    /\ List.map item_value data
       = filter (value_matches f) (List.map Row.value (run [] reqs)).
Proof.
  intros Hb _.
  pose proof (run_analysed reqs [] (Forall_nil _)) as H.
  destruct (row_items_analysed _ (filter_analysed
              (fun r => forallb (holds r) (filters_query f)) _ H))
    as (data & Hd & Hv & _).
  exists data. unfold get_all_strings. rewrite (structured_query_of_filters f Hb).
  unfold fetchall. rewrite Hb. cbn [bind]. rewrite Hd.
  split; [reflexivity|]. rewrite Hv. apply filter_values, H.
Qed.

Lemma get_string_select (db db' : table) (v : str) :
  select_by_value db' v = select_by_value db v -> get_string db' v = get_string db v.
Proof. unfold get_string. intros ->. reflexivity. Qed.

(** X20.  A request about one value does not change what [get_string] answers for
    another. *)
Theorem other_values_undisturbed (db : table) (req : request) (v : str) :
  match req with
  | Delete v' => v' <> v
  | Create data _ => value_of data <> Ok (Some (JStr v))
  end ->
  get_string (step db req) v = get_string db v.
Proof.
  intros H. apply get_string_select. destruct req as [data now|v']; cbn [step].
  - destruct (create_string db data now) as [db' resp] eqn:Hc. cbn [fst].
    destruct (create_string_row _ _ _ _ _ Hc)
      as [[-> _]|(r & p & _ & -> & _ & _ & _ & Hv & _)]; [reflexivity|].
    unfold select_by_value. rewrite filter_app. cbn [filter].
    destruct (str_eqb (Row.value r) v) eqn:E; [|apply List.app_nil_r].
    apply str_eqb_eq in E. subst v. destruct (H Hv).
  - rewrite delete_string_table. unfold delete_by_value, select_by_value. cbn [fst].
    rewrite filter_filter.
    induction db as [|x db IH]; [reflexivity|]. cbn [filter].
    destruct (str_eqb (Row.value x) v) eqn:E; [|exact IH].
    cbn [filter]. destruct (str_eqb (Row.value x) v') eqn:E'.
    + apply str_eqb_eq in E, E'. congruence.
    + cbn [negb]. rewrite IH. reflexivity.
Qed.

(** X19.  On a table made by requests, [get_string] answers 200 with the analysis
    of the value when a record has the value, and 404 when none has. *)
Theorem get_string_found_iff_stored (reqs : list request) (v : str) :
  (In v (List.map Row.value (run [] reqs)) ->
   exists r p,
     In r (run [] reqs) /\ Row.value r = v /\ analyze_string v = Ok p
     /\ get_string (run [] reqs) v
        = Response (Item (make_item (Properties.sha256_hash p) v p
                            (Row.created_at r))) 200)
  /\ (~ In v (List.map Row.value (run [] reqs)) ->
      get_string (run [] reqs) v
      = Response (Error "String does not exist in the system") 404).
Proof.
  split.
  - intros Hin. apply in_map_iff in Hin. destruct Hin as (x & Hx & Hin).
    pose proof (run_analysed reqs [] (Forall_nil _)) as H.
    unfold get_string.
    destruct (select_by_value (run [] reqs) v) as [|r rows] eqn:E.
    + assert (Hf : In x (select_by_value (run [] reqs) v)).
      { apply filter_In. split; [exact Hin|]. apply str_eqb_eq, Hx. }
      rewrite E in Hf. destruct Hf.
    + assert (Hr : In r (select_by_value (run [] reqs) v)) by (rewrite E; left; reflexivity).
      pose proof (select_value _ _ _ Hr) as Hv.
      apply filter_In in Hr. destruct Hr as [Hr _].
      rewrite Forall_forall in H.
      destruct (row_item_analysed r (H r Hr)) as (p & Ha & Hi).
      exists r, p. rewrite Hi. unfold shown. rewrite Hv in *. auto.
  - intros Hn. unfold get_string. rewrite (select_absent _ _ Hn). reflexivity.
Qed.

(** X12.  A lower bound on the length above the upper bound is no error: the
    answer is 200 with no record, on every table. *)
Theorem contradictory_bounds_empty (db : table) (n m : Z) :
  fits_int64 n = true -> fits_int64 m = true -> (m < n)%Z ->
  get_all_strings db None (Some (repr_int n)) (Some (repr_int m)) None None
  = Response
      (Listing [] 0
         (Filters.set_max_length (Filters.set_min_length Filters.empty n) m)) 200.
Proof.
  intros Hn Hm Hlt. unfold get_all_strings, structured_query.
  rewrite (py_int_repr_int n Hn), (py_int_repr_int m Hm).
  cbn [bind fst snd app]. unfold fetchall.
  cbn [forallb bindable]. rewrite Hn, Hm. cbn [andb bind].
  match goal with
  | |- context [filter ?g db] => assert (E : filter g db = [])
  end.
  { induction db as [|r db IH]; [reflexivity|]. cbn [filter forallb holds app fst].
    destruct (Z.leb_spec n (Row.length r)), (Z.leb_spec (Row.length r) m);
      cbn [andb]; try exact IH. lia. }
  rewrite E. reflexivity.
Qed.
End StoreProperties.

(** ** LIKE with a text of several characters *)

Lemma like_underscore (p s : str) :
  like (95%N :: p) s = match s with [] => false | _ :: s' => like p s' end.
Proof. destruct s; reflexivity. Qed.

Lemma take_while_id (p : char -> bool) (s : str) :
  forallb p s = true -> take_while p s = s.
Proof.
  induction s as [|c s IH]; cbn [forallb take_while]; [reflexivity|].
  intros H. apply andb_true_iff in H. destruct H as [-> H]. rewrite (IH H). reflexivity.
Qed.

Lemma like_prefix (t s : str) :
  Forall (fun c => c <> 37%N /\ c <> 95%N) t ->
  like (t ++ [37%N]) s = true
  <-> exists w post, s = w ++ post /\ List.map ascii_lower w = List.map ascii_lower t.
Proof.
  intros Ht. revert s. induction Ht as [|c t [H1 H2] _ IH]; intros s; cbn [app].
  - rewrite like_any. split; [|reflexivity]. intros _. exists [], s. auto.
  - rewrite like_plain by assumption. destruct s as [|d s].
    + split; [discriminate|]. intros (w & post & E & Hw).
      destruct w; [discriminate|discriminate].
    + rewrite andb_true_iff, IH. unfold like_char. rewrite N.eqb_eq. split.
      * intros (Hc & w & post & -> & Hw). exists (d :: w), post.
        split; [reflexivity|]. cbn [List.map]. congruence.
      * intros (w & post & E & Hw). destruct w as [|d' w]; [discriminate|].
        cbn [List.map app] in *. injection E as -> ->. injection Hw as Hd Hw.
        split; [congruence|]. exists w, post. split; [reflexivity|exact Hw].
Qed.

Lemma like_infix (t s : str) :
  Forall (fun c => c <> 37%N /\ c <> 95%N) t ->
  like (37%N :: t ++ [37%N]) s = true
  <-> exists pre w post,
        s = pre ++ w ++ post /\ List.map ascii_lower w = List.map ascii_lower t.
Proof.
  intros Ht. induction s as [|d s IH]; rewrite like_percent, orb_true_iff,
    (like_prefix t _ Ht).
  - split.
    + intros [(w & post & E & Hw)|H]; [|discriminate]. exists [], w, post. auto.
    + intros (pre & w & post & E & Hw). left.
      destruct pre; [|discriminate]. exists w, post. split; assumption.
  - rewrite IH. split.
    + intros [(w & post & E & Hw)|(pre & w & post & E & Hw)].
      * exists [], w, post. auto.
      * exists (d :: pre), w, post. rewrite E. auto.
    + intros (pre & w & post & E & Hw). destruct pre as [|d' pre].
      * left. exists w, post. split; assumption.
      * right. cbn [app] in E. injection E as -> ->.
        exists pre, w, post. split; [reflexivity|exact Hw].
Qed.

Lemma like_underscores (k : nat) (s : str) :
  like (repeat 95%N k ++ [37%N]) s = true <-> (k <= List.length s)%nat.
Proof.
  revert s. induction k as [|k IH]; intros s; cbn [repeat app].
  - rewrite like_any. split; [simpl; lia|reflexivity].
  - rewrite like_underscore. destruct s as [|d s]; cbn [List.length].
    + split; [discriminate|lia].
    + rewrite IH. lia.
Qed.

Lemma like_some_underscores (k : nat) (s : str) :
  like (37%N :: repeat 95%N k ++ [37%N]) s = true <-> (k <= List.length s)%nat.
Proof.
  induction s as [|d s IH]; rewrite like_percent, orb_true_iff, like_underscores.
  - split; [intros [H|H]; [exact H|discriminate]|auto].
  - rewrite IH. cbn [List.length]. split; [intros [H|H]; lia|].
    intros H. destruct (Nat.eq_dec k (S (List.length s))); [left|right]; lia.
Qed.

Lemma like_percents (t s : str) :
  forallb (N.eqb 37) t = true -> like (t ++ [37%N]) s = true.
Proof.
  induction t as [|c t IH]; cbn [forallb app]; [intros _; apply like_any|].
  intros H. apply andb_true_iff in H. destruct H as [Hc H].
  apply N.eqb_eq in Hc. subst c. rewrite like_percent, (IH H). reflexivity.
Qed.

Lemma c_text_pattern (t : str) :
  Forall (fun c => c <> 0%N) t -> c_text (u "%" ++ t ++ u "%") = 37%N :: t ++ [37%N].
Proof.
  intros H. unfold c_text. apply take_while_id.
  change (u "%") with [37%N]. cbn [app forallb]. rewrite forallb_app. cbn [forallb].
  rewrite andb_true_r. apply forallb_forall. intros c Hc.
  rewrite Forall_forall in H. apply negb_true_iff, N.eqb_neq, H, Hc.
Qed.

(** X14.  A [contains_character] of several characters is not refused: it is
    searched as a text.  When it has no NUL, [%] or [_], a record satisfies
    the term exactly when its value, read up to the first NUL, has a piece
    equal to the text up to the case of ASCII letters; the empty text is
    found in every record. *)
Theorem contains_text_is_substring (r : Row.t) (t : str) :
  Forall (fun c => c <> 0%N /\ c <> 37%N /\ c <> 95%N) t ->
  pattern_fits t = true ->
  (holds r (ValueLike (u "%" ++ t ++ u "%")) = true
   <-> exists pre w post,
         c_text (Row.value r) = pre ++ w ++ post
         /\ List.map ascii_lower w = List.map ascii_lower t)
  /\ (t = [] -> holds r (ValueLike (u "%" ++ t ++ u "%")) = true).
Proof.
  intros Ht _.
  assert (H0 : Forall (fun c => c <> 0%N) t)
    by (revert Ht; apply Forall_impl; tauto).
  assert (H1 : Forall (fun c => c <> 37%N /\ c <> 95%N) t)
    by (revert Ht; apply Forall_impl; tauto).
  cbn [holds]. rewrite (c_text_pattern t H0). split; [apply like_infix, H1|].
  intros ->. apply like_infix; [constructor|]. exists [], [], (c_text (Row.value r)).
  auto.
Qed.

(** X15.  The wildcards of LIKE pass through [contains_character]: a text of [%]
    alone matches every record, and a text of [k] underscores matches the
    records whose value has at least [k] characters before any NUL. *)
Theorem contains_wildcards (r : Row.t) (t : str) (k : nat) :
  (forallb (N.eqb 37) t = true -> pattern_fits t = true ->
   holds r (ValueLike (u "%" ++ t ++ u "%")) = true)
  /\ (pattern_fits (repeat 95%N k) = true ->
      (holds r (ValueLike (u "%" ++ repeat 95%N k ++ u "%")) = true
       <-> (k <= List.length (c_text (Row.value r)))%nat)).
Proof.
  split; [|intros _].
  - intros H _. cbn [holds]. rewrite c_text_pattern.
    + rewrite like_percent, like_percents by exact H. reflexivity.
    + apply Forall_forall. intros c Hc. rewrite forallb_forall in H.
      apply H, N.eqb_eq in Hc. subst. discriminate.
  - cbn [holds]. rewrite c_text_pattern.
    + apply like_some_underscores.
    + apply Forall_forall. intros c Hc. apply repeat_spec in Hc. subst. discriminate.
Qed.

(** ** UTF-8 *)

Ltac euclid := zify; Z.to_euclidean_division_equations; lia.

Lemma cons_eq_inv {A} (a b : A) (l l' : list A) :
  a :: l = b :: l' -> a = b /\ l = l'.
Proof. intros H; inversion H; auto. Qed.

Ltac heads E :=
  repeat (let H := fresh "Hb" in
          apply cons_eq_inv in E; destruct E as [H E]).

Lemma utf8_char_app_inj (c c' : char) (r r' : list N) :
  is_scalar c = true -> is_scalar c' = true ->
  utf8_char c ++ r = utf8_char c' ++ r' -> c = c' /\ r = r'.
Proof.
  intros Hc Hc'. apply is_scalar_bound in Hc, Hc'.
  unfold utf8_char.
  destruct (N.ltb_spec c 0x80);
    [|destruct (N.ltb_spec c 0x800); [|destruct (N.ltb_spec c 0x10000)]];
    (destruct (N.ltb_spec c' 0x80);
     [|destruct (N.ltb_spec c' 0x800); [|destruct (N.ltb_spec c' 0x10000)]]);
    cbn [app]; intros E; heads E;
    match type of E with
    | ?a = ?b =>
        tryif (is_var a; is_var b)
        then (split; [euclid|exact E])
        else (exfalso; clear E; try clear Hb0; try clear Hb1; try clear Hb2; euclid)
    end.
Qed.

Lemma encode_injective (s s' : str) (bytes : list N) :
  encode s = Ok bytes -> encode s' = Ok bytes -> s = s'.
Proof.
  unfold encode.
  destruct (forallb is_scalar s) eqn:Hs; [|discriminate].
  destruct (forallb is_scalar s') eqn:Hs'; [|discriminate].
  intros E E'. inversion E; inversion E'; subst bytes. clear E E'.
  rename H1 into E. revert s' Hs' E.
  induction s as [|c s IH]; intros s' Hs' E.
  - destruct s' as [|c' s']; [reflexivity|].
    cbn [flat_map] in E. unfold utf8_char in E.
    repeat destruct (N.ltb _ _); discriminate.
  - destruct s' as [|c' s'].
    + cbn [flat_map] in E. unfold utf8_char in E.
      repeat destruct (N.ltb _ _); discriminate.
    + cbn [forallb] in Hs, Hs'. apply andb_true_iff in Hs, Hs'.
      destruct Hs as [Hc Hs], Hs' as [Hc' Hs'].
      cbn [flat_map] in E. symmetry in E.
      apply utf8_char_app_inj in E; auto. destruct E as [-> E].
      f_equal. apply IH; auto.
Qed.

Lemma utf8_char_bytes (c : char) :
  (c < 0x110000)%N ->
  Forall (fun b => (b < 256)%N) (utf8_char c)
  /\ (1 <= List.length (utf8_char c) <= 4)%nat.
Proof.
  intros Hc. unfold utf8_char.
  destruct (N.ltb_spec c 0x80);
    [|destruct (N.ltb_spec c 0x800); [|destruct (N.ltb_spec c 0x10000)]];
    (split; [repeat constructor; euclid|simpl; lia]).
Qed.

Lemma utf8_char_ascii (c : char) : is_ascii c = true -> utf8_char c = [c].
Proof. unfold is_ascii, utf8_char. intros ->. reflexivity. Qed.

(** X6.  [value.encode()], the input of the digest: it succeeds exactly on the
    strings without surrogates, gives bytes, between one and four for each
    character, leaves ASCII text as it is, and two different strings never
    have the same encoding. *)
Theorem utf8_encoding (s : str) :
  (forallb is_scalar s = false <-> encode s = Raise UnicodeEncodeError)
  /\ forall bytes,
       encode s = Ok bytes ->
       Forall (fun b => (b < 256)%N) bytes
       /\ (List.length s <= List.length bytes <= 4 * List.length s)%nat
       /\ (forallb is_ascii s = true -> bytes = s)
       /\ (forall s', encode s' = Ok bytes -> s' = s).
Proof.
  split.
  - unfold encode. destruct (forallb is_scalar s); split; congruence.
  - intros bytes E. split; [|split; [|split]].
    + unfold encode in E. destruct (forallb is_scalar s) eqn:Hs; [|discriminate].
      inversion E; subst bytes. clear E.
      induction s as [|c s IH]; [constructor|].
      cbn [forallb] in Hs. apply andb_true_iff in Hs. destruct Hs as [Hc Hs].
      cbn [flat_map]. apply Forall_app. split; [|apply IH, Hs].
      apply utf8_char_bytes, is_scalar_bound, Hc.
    + unfold encode in E. destruct (forallb is_scalar s) eqn:Hs; [|discriminate].
      inversion E; subst bytes. clear E.
      induction s as [|c s IH]; [simpl; lia|].
      cbn [forallb] in Hs. apply andb_true_iff in Hs. destruct Hs as [Hc Hs].
      cbn [flat_map List.length]. rewrite length_app.
      pose proof (proj2 (utf8_char_bytes c (is_scalar_bound c Hc))).
      specialize (IH Hs). lia.
    + intros Ha. unfold encode in E.
      destruct (forallb is_scalar s); [|discriminate]. inversion E; subst bytes.
      clear E. induction s as [|c s IH]; [reflexivity|].
      cbn [forallb] in Ha. apply andb_true_iff in Ha. destruct Ha as [Hc Ha].
      cbn [flat_map]. rewrite (utf8_char_ascii c Hc), (IH Ha). reflexivity.
    + intros s' E'. exact (encode_injective s' s bytes E' E).
Qed.

(** ** The stored text of the frequency map *)

Lemma hex_digit_clean (d : N) : clean_char (hex_digit d).
Proof. unfold clean_char, hex_digit. destruct (N.ltb d 10); lia. Qed.

Lemma uint_chars_clean (d : Decimal.uint) : Forall clean_char (uint_chars d).
Proof.
  induction d; cbn [uint_chars]; constructor; auto; unfold clean_char; lia.
Qed.

Lemma repr_int_clean (n : Z) : Forall clean_char (repr_int n).
Proof.
  unfold repr_int. destruct (Z.ltb n 0); [constructor; [unfold clean_char; lia|]|];
    apply uint_chars_clean.
Qed.

Section CleanText.
Context {R : Runtime}.

Lemma repr_char_clean (q c : char) :
  q = 39%N \/ q = 34%N -> Forall clean_char (repr_char q c).
Proof.
  intros Hq. unfold repr_char.
  destruct (N.eqb_spec c q) as [->|Hcq].
  { cbn [orb]. repeat constructor; unfold clean_char; destruct Hq; subst; lia. }
  destruct (N.eqb_spec c 92) as [->|H92].
  { cbn [orb]. repeat constructor; unfold clean_char; lia. }
  cbn [orb].
  destruct (N.eqb_spec c 9); [repeat constructor; unfold clean_char; cbn; lia|].
  destruct (N.eqb_spec c 10); [repeat constructor; unfold clean_char; cbn; lia|].
  destruct (N.eqb_spec c 13); [repeat constructor; unfold clean_char; cbn; lia|].
  assert (Hx : forall t, Forall clean_char t -> Forall clean_char (92%N :: 120%N :: t)).
  { intros t Ht. repeat constructor; try exact Ht; unfold clean_char; lia. }
  destruct (N.ltb_spec c 32).
  { cbn [orb]. apply Hx. repeat constructor; apply hex_digit_clean. }
  destruct (N.eqb_spec c 127).
  { cbn [orb]. apply Hx. repeat constructor; apply hex_digit_clean. }
  cbn [orb].
  assert (Hraw : Forall clean_char [c])
    by (repeat constructor; unfold clean_char; lia).
  destruct (N.ltb c 127); [exact Hraw|].
  destruct (isprintable c); [exact Hraw|].
  destruct (N.leb c 255); [apply Hx; repeat constructor; apply hex_digit_clean|].
  destruct (N.leb c 65535);
    repeat constructor; try apply hex_digit_clean; unfold clean_char; cbn; lia.
Qed.

Lemma repr_str_clean (s : str) : Forall clean_char (repr_str s).
Proof.
  unfold repr_str. pose proof (repr_quote_cases s) as Hq.
  generalize dependent (repr_quote s). intros q Hq.
  assert (Hc : clean_char q) by (unfold clean_char; destruct Hq as [-> | ->]; lia).
  constructor; [exact Hc|]. apply Forall_app. split; [|constructor; [exact Hc|constructor]].
  induction s as [|c s IH]; [constructor|].
  cbn [flat_map]. apply Forall_app. split; [apply repr_char_clean, Hq|exact IH].
Qed.

Lemma repr_item_clean (kv : str * Z) : Forall clean_char (repr_item kv).
Proof.
  unfold repr_item. apply Forall_app. split; [apply repr_str_clean|].
  apply Forall_app. split; [|apply repr_int_clean].
  repeat constructor; unfold clean_char; cbn; lia.
Qed.

Lemma join_clean (parts : list str) :
  Forall (Forall clean_char) parts -> Forall clean_char (join (u ", ") parts).
Proof.
  induction 1 as [|p parts Hp Hps IH]; [constructor|].
  destruct parts as [|p' parts]; [exact Hp|].
  change (join (u ", ") (p :: p' :: parts))
    with (p ++ u ", " ++ join (u ", ") (p' :: parts)).
  apply Forall_app. split; [exact Hp|]. apply Forall_app. split; [|exact IH].
  repeat constructor; unfold clean_char; cbn; lia.
Qed.

Lemma str_dict_clean (d : dict Z) : Forall clean_char (str_dict d).
Proof.
  unfold str_dict. apply Forall_app. split.
  - repeat constructor; unfold clean_char; cbn; lia.
  - apply Forall_app. split; [|repeat constructor; unfold clean_char; cbn; lia].
    apply join_clean. apply Forall_forall. intros p Hp.
    apply in_map_iff in Hp. destruct Hp as (kv & <- & _). apply repr_item_clean.
Qed.

(** X7.  The text [create_string] stores for the frequency map has no NUL and no
    line break in it, whatever characters the value has: they are written
    as escapes.  It is "{}" exactly for the empty string. *)
Theorem frequency_text_is_clean (s : str) (p : Properties.t) :
  analyze_string s = Ok p ->
  Forall clean_char (str_dict (Properties.character_frequency_map p))
  /\ (str_dict (Properties.character_frequency_map p) = u "{}" <-> s = []).
Proof.
  intros Hp. split; [apply str_dict_clean|].
  apply analyze_string_inv in Hp. destruct Hp as [_ ->].
  cbn [Properties.character_frequency_map]. split.
  - destruct s as [|c s]; [reflexivity|]. intros E. exfalso.
    assert (Hk : In [c] (dict_keys (char_frequency (c :: s)))).
    { apply fold_count_char_keys. right. exists c. split; [left|]; reflexivity. }
    destruct (char_frequency (c :: s)) as [|kv d]; [destruct Hk|].
    unfold str_dict in E. cbn [List.map] in E.
    assert (Hi : exists x t, repr_item kv = repr_quote (fst kv) :: x :: t).
    { unfold repr_item, repr_str.
      destruct (flat_map (repr_char (repr_quote (fst kv))) (fst kv)) as [|y ys];
        cbn [app]; eauto. }
    destruct Hi as (x & t0 & Hi).
    assert (Hj : exists t, join (u ", ") (repr_item kv :: List.map repr_item d)
                           = repr_quote (fst kv) :: x :: t).
    { rewrite Hi. destruct (List.map repr_item d) as [|p' ps]; cbn [join app]; eauto. }
    destruct Hj as (t & Hj). rewrite Hj in E.
    change (u "{}") with [123%N; 125%N] in E. change (u "{") with [123%N] in E.
    cbn [app] in E. injection E as Eq Et. discriminate Et.
  - intros ->. reflexivity.
Qed.
End CleanText.

(** ** Deleting *)

Section DeleteFacts.
Context {R : Runtime}.

(** X21.  [delete_string] answers 204 exactly when a record has the value, and
    404 otherwise; the table it leaves has the other records, in their
    order, and none with the value. *)
Theorem delete_string_effect (db : table) (v : str) :
  (In v (List.map Row.value db) <-> snd (delete_string db v) = Response Empty 204)
  /\ (~ In v (List.map Row.value db) <->
      snd (delete_string db v)
      = Response (Error "String does not exist in the system") 404)
  /\ List.map Row.value (fst (delete_string db v))
     = filter (fun x => negb (str_eqb x v)) (List.map Row.value db)
  /\ (forall r, In r (fst (delete_string db v)) <-> In r db /\ Row.value r <> v).
Proof.
  assert (Hs : select_by_value db v = [] <-> ~ In v (List.map Row.value db)).
  { split; [|apply select_absent]. intros E Hin.
    apply in_map_iff in Hin. destruct Hin as (x & Hx & Hin).
    assert (Hf : In x (select_by_value db v))
      by (apply filter_In; split; [exact Hin|apply str_eqb_eq, Hx]).
    rewrite E in Hf. destruct Hf. }
  assert (Hr : snd (delete_string db v)
               = if Z.eqb (len (select_by_value db v)) 0
                 then Response (Error "String does not exist in the system") 404
                 else Response Empty 204).
  { unfold delete_string, delete_by_value. destruct (Z.eqb _ 0); reflexivity. }
  assert (Hz : Z.eqb (len (select_by_value db v)) 0 = true
               <-> select_by_value db v = []).
  { unfold len. destruct (select_by_value db v); simpl; split; congruence. }
  assert (Hsnd : (In v (List.map Row.value db)
                  /\ snd (delete_string db v) = Response Empty 204)
                 \/ (~ In v (List.map Row.value db)
                     /\ snd (delete_string db v)
                        = Response (Error "String does not exist in the system") 404)).
  { destruct (in_dec (list_eq_dec N.eq_dec) v (List.map Row.value db)) as [H|H].
    - left. split; [exact H|]. rewrite Hr.
      assert (Hne : select_by_value db v <> []) by (intros E; apply Hs in E; tauto).
      destruct (select_by_value db v); [destruct Hne|]; reflexivity.
    - right. split; [exact H|]. rewrite Hr.
      rewrite (proj2 Hz (proj2 Hs H)). reflexivity. }
  split; [|split; [|split]].
  - destruct Hsnd as [[H ->]|[H ->]]; split; try tauto; discriminate.
  - destruct Hsnd as [[H ->]|[H ->]]; split; try tauto; discriminate.
  - rewrite delete_string_table. unfold delete_by_value. cbn [fst].
    clear. induction db as [|x db IH]; [reflexivity|]. cbn [filter List.map].
    destruct (str_eqb (Row.value x) v); cbn [negb List.map]; [|f_equal]; apply IH.
  - intros r. rewrite delete_string_table. unfold delete_by_value. cbn [fst].
    rewrite filter_In, negb_true_iff, str_eqb_neq. reflexivity.
Qed.
End DeleteFacts.

(** * The properties at concrete requests

    The requests below are ASCII text, on which every runtime agrees with
    [ascii_runtime] but for the digest, which only names the records. *)

#[local] Existing Instance ascii_runtime.

(** C3, as first stated, fails: the record with value "A" has neither "a"
    nor "%", and both filter paths return it for the character "a", as the
    structured one does for "%". *)
Lemma contains_character_case_counterexample :
  ~ In (chr "a") (u "A")
  /\ ~ In (chr "%") (u "A")
  /\ (exists i f,
        get_all_strings table_with_A None None None None (Some (u "a"))
        = Response (Listing [i] 1 f) 200
        /\ item_value i = u "A")
  /\ (exists i f,
        filter_by_natural_language table_with_A
          (Some (u "strings containing the letter a"))
        = Response (Interpreted [i] 1 (u "strings containing the letter a") f) 200
        /\ item_value i = u "A")
  /\ (exists i f,
        get_all_strings table_with_A None None None None (Some (u "%"))
        = Response (Listing [i] 1 f) 200
        /\ item_value i = u "A").
Proof.
  split; [intros [H|[]]; discriminate H|].
  split; [intros [H|[]]; discriminate H|].
  repeat split; do 2 eexists; split; vm_compute; reflexivity.
Qed.

Lemma contains_character_like_witness :
  (97 <> 0 /\ 97 <> 37 /\ 97 <> 95)%N
  /\ (holds (sample_row (u "An apple")) (ValueLike (u "%a%")) = true <->
      exists d, In d (c_text (u "An apple")) /\ ascii_lower d = ascii_lower 97%N).
Proof.
  assert (H0 : 97%N <> 0%N) by discriminate.
  assert (H1 : 97%N <> 37%N) by discriminate.
  assert (H2 : 97%N <> 95%N) by discriminate.
  split; [auto|].
  exact (proj2 (proj2 (contains_character_like (sample_row (u "An apple")) 97%N H0 H1 H2))).
Defined.

(** C7, as first stated, fails on the empty query text: no rule fires on it,
    and the endpoint answers that the parameter is missing.  It also fails
    on a parsed query whose bound is beyond SQLite's integers: on the empty
    table, where no record can match, the request ends in an exception and
    not in an empty result set. *)
Lemma empty_query_counterexample :
  parse_natural_language [] = Ok Filters.empty
  /\ Filters.is_empty Filters.empty = true
  /\ filter_by_natural_language [] (Some [])
     = Response (Error "Missing 'query' parameter") 400
  /\ filter_by_natural_language [] (Some [])
     <> Response (Error "Unable to parse natural language query") 400
  /\ parse_natural_language (u "strings longer than 99999999999999999999")
     = Ok (Filters.set_min_length Filters.empty 100000000000000000000)
  /\ filter_by_natural_language []
       (Some (u "strings longer than 99999999999999999999"))
     = Unhandled OverflowError.
Proof.
  split; [vm_compute; reflexivity|]. split; [reflexivity|].
  split; [reflexivity|]. split; [discriminate|].
  split; vm_compute; reflexivity.
Qed.

Lemma unparseable_query_reported_witness :
  u "banana bread" <> []
  /\ parse_natural_language (u "banana bread") = Ok Filters.empty
  /\ Filters.is_empty Filters.empty = true
  /\ filter_by_natural_language table_with_A (Some (u "banana bread"))
     = Response (Error "Unable to parse natural language query") 400.
Proof.
  assert (H : u "banana bread" <> []) by discriminate.
  assert (Hp : parse_natural_language (u "banana bread") = Ok Filters.empty)
    by (vm_compute; reflexivity).
  assert (He : Filters.is_empty Filters.empty = true) by reflexivity.
  split; [exact H|]. split; [exact Hp|]. split; [exact He|].
  exact (proj1 (proj1 (proj1 (unparseable_query_reported table_with_A
                                (u "banana bread")) H) _ Hp) He).
Defined.


(** C6, as first stated, fails for a number written with more than 4300
    digits: [int] refuses its numeral, and the translator raises
    [ValueError] where the bound was to be the number plus or minus one. *)
Lemma numeral_limit_counterexample :
  (4300 < N.of_nat (List.length (numeral (10 ^ 4300))))%N
  /\ parse_natural_language (u "strings longer than " ++ numeral (10 ^ 4300))
     = Raise ValueError
  /\ parse_natural_language (u "strings shorter than " ++ numeral (10 ^ 4300))
     = Raise ValueError.
Proof.
  split; [exact (numeral_long _ _ (N.le_refl _))|].
  exact (numeral_limit_raises _ (N.le_refl _)).
Qed.

Lemma longer_shorter_than_witness :
  int_reads (Some (numeral 12)) = true
  /\ int_reads
       (found_text length_pattern2 (lower (u "Strings LONGER than 12 characters")))
     = true
  /\ exists f,
       parse_natural_language (u "Strings LONGER than 12 characters") = Ok f
       /\ Filters.min_length f = Some 13%Z.
Proof.
  assert (H1 : int_reads (Some (numeral 12)) = true) by reflexivity.
  assert (H2 : int_reads
                 (found_text length_pattern2
                    (lower (u "Strings LONGER than 12 characters"))) = true)
    by (vm_compute; reflexivity).
  split; [exact H1|]. split; [exact H2|].
  refine (proj1 (proj2 (proj1 (longer_shorter_than
                                 (u "Strings LONGER than 12 characters")
                                 (u "strings ") (u " characters") 12) _ _ _))
            H1 H2).
  - vm_compute; reflexivity.
  - intros i Hi. do 8 (destruct i as [|i]; [vm_compute; reflexivity|]).
    simpl in Hi. lia.
  - reflexivity.
Defined.

Lemma values_stay_unique_witness :
  NoDup (List.map Row.value table_with_A)
  /\ NoDup (List.map Row.value
              (run table_with_A
                 [Create (JObj [(u "value", JStr (u "Abba"))]) (u "2025-01-02T00:00:00");
                  Create (JObj [(u "value", JStr (u "A"))]) (u "2025-01-03T00:00:00");
                  Delete (u "A");
                  Create (JObj [(u "value", JStr (u "Abba"))]) (u "2025-01-04T00:00:00")])).
Proof.
  assert (H : NoDup (List.map Row.value table_with_A))
    by (repeat constructor; intros []).
  split; [exact H|].
  exact (proj1 (values_stay_unique table_with_A _ JNull [] [] H)).
Defined.

Lemma frequency_map_round_trip_witness :
  create_string [] (JObj [(u "value", JStr (u "Abba"))]) (u "2025-01-01T00:00:00")
  = (table_with_Abba, Response (Item item_Abba) 201)
  /\ Forall (fun req => req <> Delete (item_value item_Abba))
       [Create (JObj [(u "value", JStr (u "A"))]) (u "2025-01-02T00:00:00");
        Delete (u "A")]
  /\ get_string
       (run table_with_Abba
          [Create (JObj [(u "value", JStr (u "A"))]) (u "2025-01-02T00:00:00");
           Delete (u "A")])
       (item_value item_Abba)
     = Response (Item item_Abba) 200.
Proof.
  assert (H1 : create_string [] (JObj [(u "value", JStr (u "Abba"))])
                 (u "2025-01-01T00:00:00")
               = (table_with_Abba, Response (Item item_Abba) 201))
    by (vm_compute; reflexivity).
  assert (H2 : Forall (fun req => req <> Delete (item_value item_Abba))
                 [Create (JObj [(u "value", JStr (u "A"))]) (u "2025-01-02T00:00:00");
                  Delete (u "A")])
    by (repeat constructor; discriminate).
  split; [exact H1|]. split; [exact H2|].
  exact (proj2 (proj2 (frequency_map_round_trip _ _ _ _ _ _ H1 H2))).
Defined.

Lemma is_palindrome_case_folded_witness :
  forallb is_scalar (u "Abba") = true
  /\ exists p,
       analyze_string (u "Abba") = Ok p
       /\ (Properties.is_palindrome p = true <->
           rev (lower (u "Abba")) = lower (u "Abba")).
Proof.
  assert (H : forallb is_scalar (u "Abba") = true) by reflexivity.
  split; [exact H|].
  destruct (is_palindrome_case_folded (u "Abba")) as (Hret & Hspec & _).
  destruct (Hret H) as (p & Hp).
  exists p. split; [exact Hp|exact (proj1 (Hspec p Hp))].
Defined.

Lemma character_frequency_sums_to_length_witness :
  forallb is_scalar (u "hello world") = true
  /\ exists p,
       analyze_string (u "hello world") = Ok p
       /\ sum_values (Properties.character_frequency_map p) = Properties.length p
       /\ Properties.length p = 11%Z.
Proof.
  assert (H : forallb is_scalar (u "hello world") = true) by reflexivity.
  split; [exact H|].
  destruct (character_frequency_sums_to_length (u "hello world")) as (Hret & Hspec).
  destruct (Hret H) as (p & Hp).
  exists p. split; [exact Hp|exact (Hspec p Hp)].
Defined.

Lemma is_palindrome_parameter_never_rejected_witness :
  py_int (u "abc") = Raise ValueError
  /\ get_all_strings table_with_A None (Some (u "abc")) None None None
     = Response (Error "Invalid query parameter values or types") 400.
Proof.
  assert (H : py_int (u "abc") = Raise ValueError) by reflexivity.
  split; [exact H|].
  exact (proj2 (proj2 (proj2
           (is_palindrome_parameter_never_rejected table_with_A (u "true"))))
           (u "abc") H).
Defined.

Lemma delete_absent_not_found_witness :
  ~ In (u "B") (List.map Row.value table_with_A)
  /\ delete_string table_with_A (u "B")
     = (table_with_A, Response (Error "String does not exist in the system") 404).
Proof.
  assert (H : ~ In (u "B") (List.map Row.value table_with_A))
    by (intros [H|[]]; discriminate H).
  split; [exact H|].
  exact (proj1 (delete_absent_not_found table_with_A (u "B")) H).
Defined.

(** ** The further properties at concrete requests *)

Lemma frequency_counts_occurrences_witness :
  exists p,
    analyze_string (u "hello") = Ok p
    /\ forall c,
         dict_get (Properties.character_frequency_map p) [c] 0%Z
         = occurrences c (u "hello").
Proof.
  eexists. split; [vm_compute; reflexivity|].
  refine (proj1 (frequency_counts_occurrences (u "hello") _ _)).
  vm_compute; reflexivity.
Defined.

Lemma unique_characters_counts_entries_witness :
  exists p,
    analyze_string (u "hello") = Ok p
    /\ Properties.unique_characters p = len (Properties.character_frequency_map p).
Proof.
  eexists. split; [vm_compute; reflexivity|].
  refine (proj1 (unique_characters_counts_entries (u "hello") _ _)).
  vm_compute; reflexivity.
Defined.

Lemma word_count_words_witness :
  exists p,
    analyze_string (u "  a   a  ") = Ok p
    /\ Properties.word_count p = len (split (u "  a   a  ")).
Proof.
  eexists. split; [vm_compute; reflexivity|].
  refine (proj1 (word_count_words (u "  a   a  ") _ _)).
  vm_compute; reflexivity.
Defined.

Lemma word_count_ignores_outer_spaces_witness :
  forallb isspace (u "  ") = true
  /\ forallb isspace (u " ") = true
  /\ exists p q,
       analyze_string (u "a b") = Ok p
       /\ analyze_string (u "  " ++ u "a b" ++ u " ") = Ok q
       /\ Properties.word_count q = Properties.word_count p.
Proof.
  split; [reflexivity|]. split; [reflexivity|].
  do 2 eexists. split; [vm_compute; reflexivity|].
  split; [vm_compute; reflexivity|].
  refine (proj2 (word_count_ignores_outer_spaces (u "  ") (u "a b") (u " ") _ _
                   _ _ _ _)); vm_compute; reflexivity.
Defined.

Lemma ascii_palindrome_invariance_witness :
  forallb is_ascii (u "Abba") = true
  /\ exists p pr pl pd,
       analyze_string (u "Abba") = Ok p
       /\ analyze_string (rev (u "Abba")) = Ok pr
       /\ analyze_string (lower (u "Abba")) = Ok pl
       /\ analyze_string (u "Abba" ++ rev (u "Abba")) = Ok pd
       /\ Properties.is_palindrome pr = Properties.is_palindrome p
       /\ Properties.is_palindrome pl = Properties.is_palindrome p
       /\ Properties.is_palindrome pd = true.
Proof.
  assert (H : forallb is_ascii (u "Abba") = true) by reflexivity.
  split; [exact H|]. exact (ascii_palindrome_invariance (u "Abba") H).
Defined.

Lemma utf8_encoding_witness :
  encode [233; 8364; 128512]%N
  = Ok [195; 169; 226; 130; 172; 240; 159; 152; 128]%N
  /\ forall s',
       encode s' = Ok [195; 169; 226; 130; 172; 240; 159; 152; 128]%N ->
       s' = [233; 8364; 128512]%N.
Proof.
  assert (H : encode [233; 8364; 128512]%N
              = Ok [195; 169; 226; 130; 172; 240; 159; 152; 128]%N)
    by (vm_compute; reflexivity).
  split; [exact H|].
  exact (proj2 (proj2 (proj2 (proj2 (utf8_encoding [233; 8364; 128512]%N) _ H)))).
Defined.

Lemma frequency_text_is_clean_witness :
  exists p,
    analyze_string [10; 0; 39]%N = Ok p
    /\ Forall clean_char (str_dict (Properties.character_frequency_map p)).
Proof.
  eexists. split; [vm_compute; reflexivity|].
  refine (proj1 (frequency_text_is_clean [10; 0; 39]%N _ _)).
  vm_compute; reflexivity.
Defined.

Lemma structured_path_agrees_witness :
  parse_natural_language (u "strings longer than 5 characters")
  = Ok (Filters.make None (Some 6%Z) None None None)
  /\ u "strings longer than 5 characters" <> []
  /\ Filters.is_empty (Filters.make None (Some 6%Z) None None None) = false
  /\ (filter_by_natural_language table_with_Abba
        (Some (u "strings longer than 5 characters"))
      = Response
          (Interpreted [] 0 (u "strings longer than 5 characters")
             (Filters.make None (Some 6%Z) None None None)) 200
      <-> get_all_strings table_with_Abba None (Some (repr_int 6)) None None None
          = Response (Listing [] 0 (Filters.make None (Some 6%Z) None None None))
              200).
Proof.
  assert (H1 : parse_natural_language (u "strings longer than 5 characters")
               = Ok (Filters.make None (Some 6%Z) None None None))
    by (vm_compute; reflexivity).
  assert (H2 : u "strings longer than 5 characters" <> []) by discriminate.
  assert (H3 : Filters.is_empty (Filters.make None (Some 6%Z) None None None) = false)
    by reflexivity.
  split; [exact H1|]. split; [exact H2|]. split; [exact H3|].
  exact (structured_path_agrees table_with_Abba _ _ [] 0 H1 H2 H3).
Defined.

Lemma malformed_integer_rejected_witness :
  py_int (28%N :: u "5") = Raise ValueError
  /\ get_all_strings table_with_A (Some (u "true")) None (Some (28%N :: u "5")) None
       (Some (u "a"))
     = Response (Error "Invalid query parameter values or types") 400.
Proof.
  assert (H : py_int (28%N :: u "5") = Raise ValueError) by reflexivity.
  split; [exact H|].
  exact (malformed_integer_rejected table_with_A (Some (u "true")) None
           (Some (28%N :: u "5")) None (Some (u "a")) (28%N :: u "5")
           (or_intror (or_introl eq_refl)) H).
Defined.


Lemma translator_ranges_witness :
  parse_natural_language (u "two word strings shorter than 0 letters")
  = Ok (Filters.make None None (Some (-1)%Z) (Some 2%Z) None)
  /\ forall n,
       Filters.max_length (Filters.make None None (Some (-1)%Z) (Some 2%Z) None)
       = Some n ->
       (-1 <= n)%Z.
Proof.
  assert (H : parse_natural_language (u "two word strings shorter than 0 letters")
              = Ok (Filters.make None None (Some (-1)%Z) (Some 2%Z) None))
    by (vm_compute; reflexivity).
  split; [exact H|].
  exact (proj1 (proj2 (proj2 (translator_ranges _ _ H)))).
Defined.

Lemma contradictory_bounds_empty_witness :
  fits_int64 5 = true /\ fits_int64 3 = true /\ (3 < 5)%Z
  /\ get_all_strings table_with_Abba None (Some (repr_int 5)) (Some (repr_int 3))
       None None
     = Response
         (Listing [] 0
            (Filters.set_max_length (Filters.set_min_length Filters.empty 5) 3)) 200.
Proof.
  assert (H1 : fits_int64 5 = true) by reflexivity.
  assert (H2 : fits_int64 3 = true) by reflexivity.
  assert (H3 : (3 < 5)%Z) by lia.
  split; [exact H1|]. split; [exact H2|]. split; [exact H3|].
  exact (contradictory_bounds_empty table_with_Abba 5 3 H1 H2 H3).
Defined.

Lemma filters_select_by_value_witness :
  forallb bindable
    (filters_query (Filters.make (Some true) (Some 2%Z) None None (Some (u "b"))))
  = true
  /\ pattern_fits (u "b") = true
  /\ exists data,
       get_all_strings
         (run [] [Create (JObj [(u "value", JStr (u "Abba"))]) (u "2025-01-01T00:00:00");
                  Create (JObj [(u "value", JStr (u "A"))]) (u "2025-01-02T00:00:00")])
         (Some (u "true")) (Some (repr_int 2)) None None (Some (u "b"))
       = Response
           (Listing data (len data)
              (Filters.make (Some true) (Some 2%Z) None None (Some (u "b"))))
           200
       /\ List.map item_value data = [u "Abba"].
Proof.
  assert (H : forallb bindable
                (filters_query
                   (Filters.make (Some true) (Some 2%Z) None None (Some (u "b"))))
              = true) by reflexivity.
  assert (H' : pattern_fits (u "b") = true) by reflexivity.
  split; [exact H|]. split; [exact H'|].
  refine (filters_select_by_value
           [Create (JObj [(u "value", JStr (u "Abba"))]) (u "2025-01-01T00:00:00");
            Create (JObj [(u "value", JStr (u "A"))]) (u "2025-01-02T00:00:00")]
           (Filters.make (Some true) (Some 2%Z) None None (Some (u "b"))) H _).
  intros c Hc. injection Hc as <-. exact H'.
Defined.

Lemma contains_text_is_substring_witness :
  Forall (fun c => c <> 0 /\ c <> 37 /\ c <> 95)%N (u "APP")
  /\ pattern_fits (u "APP") = true
  /\ (holds (sample_row (u "An apple")) (ValueLike (u "%" ++ u "APP" ++ u "%")) = true
      <-> exists pre w post,
            c_text (u "An apple") = pre ++ w ++ post
            /\ List.map ascii_lower w = List.map ascii_lower (u "APP")).
Proof.
  assert (H : Forall (fun c => c <> 0 /\ c <> 37 /\ c <> 95)%N (u "APP"))
    by (repeat constructor; discriminate).
  assert (H' : pattern_fits (u "APP") = true) by reflexivity.
  split; [exact H|]. split; [exact H'|].
  exact (proj1 (contains_text_is_substring (sample_row (u "An apple")) (u "APP") H H')).
Defined.

Lemma contains_wildcards_witness :
  forallb (N.eqb 37) (u "%%") = true
  /\ pattern_fits (u "%%") = true
  /\ holds (sample_row (u "An apple")) (ValueLike (u "%" ++ u "%%" ++ u "%")) = true.
Proof.
  assert (H : forallb (N.eqb 37) (u "%%") = true) by reflexivity.
  assert (H' : pattern_fits (u "%%") = true) by reflexivity.
  split; [exact H|]. split; [exact H'|].
  exact (proj1 (contains_wildcards (sample_row (u "An apple")) (u "%%") 0) H H').
Defined.

Lemma create_string_effect_witness :
  create_string [] (JObj [(u "value", JStr (u "Abba"))]) (u "2025-01-01T00:00:00")
  = (table_with_Abba, Response (Item item_Abba) 201)
  /\ exists r, table_with_Abba = [] ++ [r] /\ Row.value r = u "Abba".
Proof.
  assert (H : create_string [] (JObj [(u "value", JStr (u "Abba"))])
                (u "2025-01-01T00:00:00")
              = (table_with_Abba, Response (Item item_Abba) 201))
    by (vm_compute; reflexivity).
  split; [exact H|].
  destruct (create_string_effect _ _ _ _ _ H)
    as [[_ Hno]|(r & p & _ & Hdb & Hv & _)].
  - destruct (Hno (Item item_Abba)). reflexivity.
  - exists r. split; [exact Hdb|]. cbn [value_of dict_find] in Hv.
    change (str_eqb (u "value") (u "value")) with true in Hv. cbv iota in Hv.
    injection Hv as Hv. symmetry. exact Hv.
Defined.

Lemma create_then_delete_witness :
  create_string [] (JObj [(u "value", JStr (u "Abba"))]) (u "2025-01-01T00:00:00")
  = (table_with_Abba, Response (Item item_Abba) 201)
  /\ delete_string table_with_Abba (item_value item_Abba) = ([], Response Empty 204).
Proof.
  assert (H : create_string [] (JObj [(u "value", JStr (u "Abba"))])
                (u "2025-01-01T00:00:00")
              = (table_with_Abba, Response (Item item_Abba) 201))
    by (vm_compute; reflexivity).
  split; [exact H|]. exact (create_then_delete _ _ _ _ _ H).
Defined.

Lemma stored_records_are_analyses_witness :
  In (hd (sample_row []) table_with_A)
    (run [] [Create (JObj [(u "value", JStr (u "A"))]) (u "2025-01-01T00:00:00")])
  /\ exists p,
       analyze_string (u "A") = Ok p
       /\ Row.id (hd (sample_row []) table_with_A) = Properties.sha256_hash p.
Proof.
  assert (H : In (hd (sample_row []) table_with_A)
                (run [] [Create (JObj [(u "value", JStr (u "A"))])
                           (u "2025-01-01T00:00:00")]))
    by (vm_compute; left; reflexivity).
  split; [exact H|].
  destruct (proj2 (stored_records_are_analyses _ _) H) as (p & Ha & Hid & _).
  exists p. split; [exact Ha|exact Hid].
Defined.

Lemma get_string_found_iff_stored_witness :
  In (u "A")
    (List.map Row.value
       (run [] [Create (JObj [(u "value", JStr (u "A"))]) (u "2025-01-01T00:00:00")]))
  /\ exists r p,
       analyze_string (u "A") = Ok p
       /\ get_string
            (run [] [Create (JObj [(u "value", JStr (u "A"))])
                       (u "2025-01-01T00:00:00")]) (u "A")
          = Response (Item (make_item (Properties.sha256_hash p) (u "A") p
                              (Row.created_at r))) 200.
Proof.
  assert (H : In (u "A")
                (List.map Row.value
                   (run [] [Create (JObj [(u "value", JStr (u "A"))])
                              (u "2025-01-01T00:00:00")])))
    by (vm_compute; left; reflexivity).
  split; [exact H|].
  destruct (proj1 (get_string_found_iff_stored _ _) H) as (r & p & _ & _ & Ha & Hg).
  exists r, p. split; [exact Ha|exact Hg].
Defined.

Lemma other_values_undisturbed_witness :
  u "A" <> u "Abba"
  /\ get_string (step table_with_Abba (Delete (u "A"))) (u "Abba")
     = get_string table_with_Abba (u "Abba").
Proof.
  assert (H : u "A" <> u "Abba") by discriminate.
  split; [exact H|].
  exact (other_values_undisturbed table_with_Abba (Delete (u "A")) (u "Abba") H).
Defined.

Lemma delete_string_effect_witness :
  In (u "A") (List.map Row.value table_with_A)
  /\ snd (delete_string table_with_A (u "A")) = Response Empty 204.
Proof.
  assert (H : In (u "A") (List.map Row.value table_with_A))
    by (left; reflexivity).
  split; [exact H|].
  exact (proj1 (proj1 (delete_string_effect table_with_A (u "A"))) H).
Defined.
